(** * pnt: a printf-style formatter (include/pnt.hpp)

    Shallow embedding of [pnt::Formatter] and of the directive parser
    [pnt::_Formatter::StringFormatterItem], with the properties of the
    formatting engine proved about it.

    Conventions of the embedding.
    - [unsigned int] is a [Z] kept in [0, 2^32) by [u32]; [unsigned char]
      by [u8].  Bit operations are [Z.land], [Z.lor], [Z.lnot].
    - An iterator into the template is the suffix of the template that is
      still to be read; the terminating NUL is the end of the string (a NUL
      character inside a string terminates it as well).
    - The stream buffer [m_streambuf] is the string of the characters written
      so far; it is threaded through every printing routine and it keeps what
      was written when a routine fails.
    - [FORMAT_ERROR] is taken in its [FORMATTER_THROW_ON_ERROR] form: it
      throws a [FormatError] of the given type. *)

From Stdlib Require Import ZArith Lia List Bool Ascii String.
Import ListNotations.

Open Scope string_scope.
Open Scope Z_scope.

(* ===================================================================== *)
(** ** Machine integers and characters *)

Definition u32 (x : Z) : Z := x mod 2 ^ 32.
Definition u8 (x : Z) : Z := x mod 2 ^ 8.

(** [static_cast<int>] of an [unsigned int]. *)
Definition to_int (x : Z) : Z := if x <? 2 ^ 31 then x else x - 2 ^ 32.

Definition INT_MIN : Z := - 2 ^ 31.
Definition INT_MAX : Z := 2 ^ 31 - 1.

(** [a - b] on [int]; signed overflow has no defined result. *)
Definition int_sub (a b : Z) : option Z :=
  let r := a - b in
  if (INT_MIN <=? r) && (r <=? INT_MAX) then Some r else None.

Definition code (c : ascii) : Z := Z.of_N (N_of_ascii c).
Definition char_of (z : Z) : ascii := ascii_of_N (Z.to_N (u8 z)).

Definition is_digit (c : ascii) : bool :=
  (code "0" <=? code c) && (code c <=? code "9").

Definition len (s : string) : Z := Z.of_nat (String.length s).

(** [n] copies of [c]: what a loop of [n] calls of [sputc(c)] writes. *)
Fixpoint nchars_nat (n : nat) (c : ascii) : string :=
  match n with
  | O => EmptyString
  | S n' => String c (nchars_nat n' c)
  end.

Definition nchars (n : Z) (c : ascii) : string := nchars_nat (Z.to_nat n) c.

(** The characters of a NUL-terminated sequence: up to the first NUL. *)
Fixpoint c_str (s : string) : string :=
  match s with
  | EmptyString => EmptyString
  | String c r => if Ascii.eqb c zero then EmptyString else String c (c_str r)
  end.

(* ===================================================================== *)
(** ** Errors and the printing monad *)

Module FormatError.
Inductive type : Set :=
| InvalidFormatter
| TooFewArguments
| TooManyArguments
| IncompatibleType
| NotImplemented.

Definition what (t : type) : string :=
  match t with
  | InvalidFormatter => "Invalid formatter"
  | TooFewArguments => "Too few arguments"
  | TooManyArguments => "Too many arguments"
  | IncompatibleType => "Incompatible type"
  | NotImplemented => "Not implemented"
  end.
End FormatError.
Import FormatError.

(** Why a routine did not return normally. *)
Inductive stop : Set :=
| Throw (e : FormatError.type)   (* FORMAT_ERROR(e) *)
| AssertFalse                    (* assert(false) *)
| Undefined                      (* signed overflow, write outside buf *)
| OutOfFuel.                     (* the model's loop bound was reached *)

Inductive res (A : Type) : Type :=
| Ok (a : A)
| Stop (r : stop).
Arguments Ok {A} a.
Arguments Stop {A} r.

Definition streambuf := string.

Definition M (A : Type) : Type := streambuf -> streambuf * res A.

Definition ret {A} (a : A) : M A := fun s => (s, Ok a).
Definition bind {A B} (m : M A) (f : A -> M B) : M B :=
  fun s => match m s with
           | (s', Ok a) => f a s'
           | (s', Stop r) => (s', Stop r)
           end.
Definition raise {A} (r : stop) : M A := fun s => (s, Stop r).
Definition FORMAT_ERROR {A} (e : FormatError.type) : M A := raise (Throw e).

Notation "x <- m ;; k" := (bind m (fun x => k))
  (at level 61, m at next level, right associativity).
Notation "m ;; k" := (bind m (fun _ => k))
  (at level 61, right associativity).

Definition sputc (c : ascii) : M unit := fun s => (s ++ String c "", Ok tt).
Definition sputn (str : string) : M unit := fun s => (s ++ str, Ok tt).
(** [for (i = 0; i < n; ++i) sputc(c)] and [while (n--) sputc(c)]. *)
Definition sputc_times (n : Z) (c : ascii) : M unit := sputn (nchars n c).

(* ===================================================================== *)
(** ** _Formatter::FormatterItem *)

Definition POSITION_NONE : Z := u32 (-1).

Definition FLAG_LEFT_JUSTIFY : Z := 1.
Definition FLAG_SHOW_SIGN : Z := 2.
Definition FLAG_EXPLICIT_BASE : Z := 4.
Definition FLAG_FILL_ZERO : Z := 8.
Definition FLAG_ADD_SPACE : Z := 16.

Definition WIDTH_EMPTY : Z := u32 (-1).
Definition WIDTH_ARG : Z := u32 (-2).

Record FormatterItem : Set := mkItem {
  position : Z;
  flags : Z;
  width : Z;
  precision : Z;
  formatChar : ascii
}.

(** [flags & mask] as a condition. *)
Definition has (fl mask : Z) : bool := negb (Z.land fl mask =? 0).

(** [flags &= ~mask] on the [unsigned char] field. *)
Definition clear (fl mask : Z) : Z := u8 (Z.land fl (u32 (Z.lnot mask))).

Definition fixFlags (fmt : FormatterItem) : FormatterItem :=
  let fc := formatChar fmt in
  let fl := flags fmt in
  (* no sign or space for non decimal and non binary and non %s *)
  let fl :=
    if negb (Ascii.eqb fc "d") && negb (Ascii.eqb fc "b")
       && negb (Ascii.eqb fc "s")
    then clear fl (Z.lor FLAG_SHOW_SIGN FLAG_ADD_SPACE)
    (* no explicit base for decimal or binary *)
    else clear fl FLAG_EXPLICIT_BASE in
  (* no space if sign *)
  let fl := if has fl FLAG_SHOW_SIGN then clear fl FLAG_ADD_SPACE else fl in
  (* fill only with space on left justify *)
  let fl := if has fl FLAG_LEFT_JUSTIFY then clear fl FLAG_FILL_ZERO else fl in
  mkItem (position fmt) fl (width fmt) (precision fmt) fc.

(* ===================================================================== *)
(** ** _Formatter::StringFormatterItem: the directive parser *)

Fixpoint findIntegerEnd (iter : string) : string :=
  match iter with
  | String c r => if is_digit c then findIntegerEnd r else iter
  | EmptyString => iter
  end.

Fixpoint parseInt_from (out : Z) (iter : string) : Z :=
  match iter with
  | String c r =>
      if is_digit c then parseInt_from (u32 (out * 10 + (code c - code "0"))) r
      else out
  | EmptyString => out
  end.

Definition parseInt (iter : string) : Z := parseInt_from 0 iter.

(** [*iter]. *)
Definition deref (iter : string) : ascii :=
  match iter with
  | String c _ => c
  | EmptyString => zero
  end.

(** [iter + 1]. *)
Definition next (iter : string) : string :=
  match iter with
  | String _ r => r
  | EmptyString => EmptyString
  end.

(** Two iterators into the same template are equal when as much is left. *)
Definition iter_eq (a b : string) : bool :=
  Nat.eqb (String.length a) (String.length b).

(** Each handler returns the field it sets and the advanced iterator. *)
Definition handlePosition (iter : string) : Z * string :=
  let e := findIntegerEnd iter in
  if iter_eq iter e || negb (Ascii.eqb (deref e) "$")
  then (POSITION_NONE, iter)
  else (parseInt iter, next e).

(** A [switch] on a character is a chain of tests [c == k]. *)
Notation "c == k" := (Ascii.eqb c k%char) (at level 70, no associativity).

Fixpoint handleFlags_from (fl : Z) (iter : string) : Z * string :=
  match iter with
  | String c r =>
      if c == "-" then handleFlags_from (u8 (Z.lor fl FLAG_LEFT_JUSTIFY)) r
      else if c == "+" then handleFlags_from (u8 (Z.lor fl FLAG_SHOW_SIGN)) r
      else if c == "#" then handleFlags_from (u8 (Z.lor fl FLAG_EXPLICIT_BASE)) r
      else if c == "0" then handleFlags_from (u8 (Z.lor fl FLAG_FILL_ZERO)) r
      else if c == " " then handleFlags_from (u8 (Z.lor fl FLAG_ADD_SPACE)) r
      else (fl, iter)
  | EmptyString => (fl, iter)
  end.

Definition handleFlags (iter : string) : Z * string := handleFlags_from 0 iter.

Definition handleWidth (iter : string) : Z * string :=
  if Ascii.eqb (deref iter) "*" then (WIDTH_ARG, next iter)
  else
    let e := findIntegerEnd iter in
    if iter_eq iter e then (WIDTH_EMPTY, iter)
    else (parseInt iter, e).

Definition handlePrecision (iter : string) : Z * string :=
  if negb (Ascii.eqb (deref iter) ".") then (WIDTH_EMPTY, iter)
  else
    let iter := next iter in
    if Ascii.eqb (deref iter) "*" then (WIDTH_ARG, next iter)
    else
      let e := findIntegerEnd iter in
      if iter_eq e iter then (0, iter)
      else (parseInt iter, e).

Definition is_formatChar (c : ascii) : bool :=
  (c == "s") || (c == "c") || (c == "b") || (c == "d") || (c == "o")
  || (c == "x") || (c == "X") || (c == "p") || (c == "e") || (c == "E")
  || (c == "f") || (c == "F") || (c == "g") || (c == "G") || (c == "a")
  || (c == "A").

Definition handleFormatChar (iter : string) : res (ascii * string) :=
  if is_formatChar (deref iter) then Ok (deref iter, next iter)
  else Stop (Throw InvalidFormatter).

Definition handleFormatter (iter : string) : res (FormatterItem * string) :=
  let '(pos, iter) := handlePosition iter in
  let '(fl, iter) := handleFlags iter in
  let '(w, iter) := handleWidth iter in
  let '(p, iter) := handlePrecision iter in
  match handleFormatChar iter with
  | Ok (fc, iter) => Ok (fixFlags (mkItem pos fl w p fc), iter)
  | Stop r => Stop r
  end.

(* ===================================================================== *)
(** ** Arguments

    The variadic pack [Args... args] is a list of arguments, each in the
    overload category its static type selects ([char_type] is [char]). *)

(** An integral type other than [bool]: signedness and width in bits. *)
Record IntType : Set := mkInt { is_signed : bool; bits : Z }.

Definition int_min (ty : IntType) : Z :=
  if is_signed ty then - 2 ^ (bits ty - 1) else 0.
Definition int_max (ty : IntType) : Z :=
  if is_signed ty then 2 ^ (bits ty - 1) - 1 else 2 ^ bits ty - 1.
Definition in_range (ty : IntType) (v : Z) : Prop :=
  int_min ty <= v <= int_max ty.
Definition in_rangeb (ty : IntType) (v : Z) : bool :=
  (int_min ty <=? v) && (v <=? int_max ty).

(** The types the library is instantiated at have 8 to 64 bits. *)
Definition int_type_ok (ty : IntType) : Prop := 8 <= bits ty <= 64.

Definition make_unsigned (ty : IntType) : IntType := mkInt false (bits ty).
(** Conversion of a value of [ty] to [make_unsigned<ty>::type]. *)
Definition to_unsigned (ty : IntType) (v : Z) : Z := v mod 2 ^ bits ty.

Definition int32_t : IntType := mkInt true 32.
Definition uint32_t : IntType := mkInt false 32.
Definition int64_t : IntType := mkInt true 64.
(** Plain [char] as an integral type (signed, as on the x86 ABIs). *)
Definition char_t : IntType := mkInt true 8.
Definition char_value (c : ascii) : Z :=
  if code c <? 128 then code c else code c - 256.

Inductive Arg : Set :=
| ABool (b : bool)                (* bool *)
| AChar (c : ascii)               (* char_type *)
| AInt (ty : IntType) (v : Z)     (* any other integral type *)
| ACStr (addr : Z) (s : string)   (* const char_type*: address and characters *)
| AStr (s : string)               (* convertible to basic_string, not a pointer *)
| APtr (addr : Z)                 (* any other pointer *)
| AFloat (trunc : Z)              (* floating point; only its integer part
                                     is ever looked at (by %c) *)
| AOpaque.                        (* none of the above *)

(* ===================================================================== *)
(** ** Formatter: padding of the non-numeric renderers *)

Definition printPreFill (fmt : FormatterItem) (size : Z) : M unit :=
  let size := u32 size in
  if width fmt =? WIDTH_EMPTY then ret tt
  else
    let size := u32 (width fmt - size) in
    if negb (has (flags fmt) FLAG_LEFT_JUSTIFY) then sputc_times size " "
    else ret tt.

Definition printPostFill (fmt : FormatterItem) (size : Z) : M unit :=
  let size := u32 size in
  if width fmt =? WIDTH_EMPTY then ret tt
  else
    let size := u32 (width fmt - size) in
    if has (flags fmt) FLAG_LEFT_JUSTIFY then sputc_times size " "
    else ret tt.

(* ===================================================================== *)
(** ** Formatter: the numeric core *)

(** [_Formatter::isNegative]. *)
Definition isNegative (ty : IntType) (value : Z) : bool :=
  if is_signed ty then value <? 0 else false.

(** [value = -value] in type [ty]; no result when [-value] is not a value
    of the type. *)
Definition negate (ty : IntType) (value : Z) : option Z :=
  if in_rangeb ty (- value) then Some (- value) else None.

Definition baseLetter (fmt : FormatterItem) : Z :=
  if Ascii.eqb (formatChar fmt) "X" then code "A" else code "a".

(** The [while (value)] loop of [printIntegral(char_type* str, ...)]. [room]
    is the number of free cells below [ptr] in [buf]; [out] is what has been
    stored so far, from [ptr + 1] up to [str].  No result on a store below
    the buffer or when the negation overflows. *)
Fixpoint printIntegral_loop (room : nat) (base letter : Z) (ty : IntType)
    (value : Z) (out : string) : option string :=
  if value =? 0 then Some out
  else
    match room with
    | O => None
    | S room' =>
        let digit := Z.rem value base in
        let value := Z.quot value base in
        let flipped :=
          if digit <? 0
          then match negate ty value with
               | Some value' => Some (- digit, value')
               | None => None
               end
          else Some (digit, value) in
        match flipped with
        | None => None
        | Some (digit, value) =>
            let digit :=
              if digit >=? 10 then digit + (letter - 10)
              else digit + code "0" in
            printIntegral_loop room' base letter ty value
              (String (char_of digit) out)
        end
    end.

(** [printIntegral<Tbase>(buf + 64, fmt, value)] on [char_type buf[64]]:
    the digits stored at the end of the buffer ([numsize] is their number). *)
Definition printIntegral_buf (Tbase : Z) (fmt : FormatterItem) (ty : IntType)
    (value : Z) : option string :=
  printIntegral_loop 64 Tbase (baseLetter fmt) ty value EmptyString.

(** The minimum number of digits asked for by the precision. *)
Definition precision_floor (fmt : FormatterItem) : M Z :=
  if precision fmt =? WIDTH_ARG then FORMAT_ERROR NotImplemented
  else if precision fmt =? WIDTH_EMPTY then ret 1
  else ret (precision fmt).

(** "calculate size": the digits plus the room taken by the sign or base. *)
Definition sized (fmt : FormatterItem) (ty : IntType) (value size : Z)
    : M Z :=
  if (isNegative ty value && Ascii.eqb (formatChar fmt) "d")
     || has (flags fmt) FLAG_SHOW_SIGN
     || has (flags fmt) FLAG_ADD_SPACE
  then ret (size + 1)
  else if has (flags fmt) FLAG_EXPLICIT_BASE then
    let fc := formatChar fmt in
    if (fc == "x") || (fc == "X") then
      if negb (value =? 0) then ret (size + 2) else ret size
    else if fc == "o" then ret (size + 1)
    else raise AssertFalse
  else ret size.

(** "get width and calculate needed fill size". *)
Definition fill_size (fmt : FormatterItem) (size zerofill : Z) : M Z :=
  if width fmt =? WIDTH_ARG then FORMAT_ERROR NotImplemented
  else
    let fill := if width fmt =? WIDTH_EMPTY then 0 else width fmt in
    match int_sub (to_int fill) (to_int (u32 size)) with
    | None => raise Undefined
    | Some d =>
        match int_sub d (to_int zerofill) with
        | None => raise Undefined
        | Some d =>
            if d >=? 0 then ret (u32 (fill - size - zerofill)) else ret 0
        end
    end.

(** "show sign or base". *)
Definition show_sign_or_base (fmt : FormatterItem) (ty : IntType) (value : Z)
    : M unit :=
  if has (flags fmt) FLAG_EXPLICIT_BASE then
    let fc := formatChar fmt in
    if fc == "x" then
      if negb (value =? 0) then sputc "0" ;; sputc "x" else ret tt
    else if fc == "X" then
      if negb (value =? 0) then sputc "0" ;; sputc "X" else ret tt
    else if fc == "o" then sputc "0"
    else raise AssertFalse
  else if isNegative ty value then sputc "-"
  else if has (flags fmt) FLAG_SHOW_SIGN then sputc "+"
  else if has (flags fmt) FLAG_ADD_SPACE then sputc " "
  else ret tt.

(** [printIntegral<Tbase, T>(fmt, value)] for an integral [T]. *)
Definition printIntegral (Tbase : Z) (fmt : FormatterItem) (ty : IntType)
    (value : Z) : M unit :=
  (* convert the number *)
  match printIntegral_buf Tbase fmt ty value with
  | None => raise Undefined
  | Some digits =>
      let numsize := len digits in
      let size := numsize in
      zerofill <- precision_floor fmt ;;
      let zerofill := if zerofill >? size then u32 (zerofill - size) else 0 in
      (* calculate size *)
      size <- sized fmt ty value size ;;
      (* get width and calculate needed fill size *)
      fill <- fill_size fmt size zerofill ;;
      (* fill before sign (with spaces) *)
      (if negb (has (flags fmt) FLAG_FILL_ZERO)
          && negb (has (flags fmt) FLAG_LEFT_JUSTIFY)
       then sputc_times fill " " else ret tt) ;;
      (* show sign or base *)
      show_sign_or_base fmt ty value ;;
      (* fill after sign (with zeros) *)
      let zerofill :=
        if has (flags fmt) FLAG_FILL_ZERO then u32 (zerofill + fill)
        else zerofill in
      sputc_times zerofill "0" ;;
      (* print number *)
      sputn digits ;;
      if has (flags fmt) FLAG_LEFT_JUSTIFY then sputc_times fill " "
      else ret tt
  end.

(** [printUnsigned<base>]: the value is converted to the unsigned type. *)
Definition printUnsigned (base : Z) (fmt : FormatterItem) (ty : IntType)
    (value : Z) : M unit :=
  printIntegral base fmt (make_unsigned ty) (to_unsigned ty value).

(* ===================================================================== *)
(** ** Formatter: the renderers by argument category

    [sizeof_ptr] is [sizeof(void* )], the one platform constant the code
    reads; [uintptr_t] has that many bytes. *)

Section Formatter.

Variable sizeof_ptr : Z.

Definition uintptr_t : IntType := mkInt false (8 * sizeof_ptr).

(** [printChar]: the overload for [T] convertible to [char_type] writes
    [arg] converted to [char_type]; the other one fails. *)
Definition printChar (fmt : FormatterItem) (arg : Arg) : M unit :=
  let put (c : ascii) : M unit :=
    printPreFill fmt 1 ;; sputc c ;; printPostFill fmt 1 in
  match arg with
  | ABool b => put (char_of (if b then 1 else 0))
  | AChar c => put c
  | AInt _ v => put (char_of v)
  | AFloat t => put (char_of t)
  | ACStr _ _ | AStr _ | APtr _ | AOpaque => FORMAT_ERROR IncompatibleType
  end.

(** [printPointer]: the overload for pointers, and the other one. *)
Definition printPointer (fmt : FormatterItem) (arg : Arg) : M unit :=
  let put (addr : Z) : M unit :=
    let fmt2 :=
      mkItem (position fmt) FLAG_EXPLICIT_BASE (width fmt)
        (u32 (sizeof_ptr * 2)) "x" in
    printIntegral 16 fmt2 uintptr_t addr in
  match arg with
  | ACStr addr _ => put addr
  | APtr addr => put addr
  | ABool _ | AChar _ | AInt _ _ | AStr _ | AFloat _ | AOpaque =>
      FORMAT_ERROR IncompatibleType
  end.

(** [printIntegral<base>(fmt, arg1)] and [printUnsigned<base>(fmt, arg1)] as
    [printArg] calls them: the overloads for [isIntegral] types ([char]
    included, [bool] excluded) and the ones for every other type. *)
Definition printIntegral_arg (base : Z) (fmt : FormatterItem) (arg : Arg)
    : M unit :=
  match arg with
  | AInt ty v => printIntegral base fmt ty v
  | AChar c => printIntegral base fmt char_t (char_value c)
  | _ => FORMAT_ERROR IncompatibleType
  end.

Definition printUnsigned_arg (base : Z) (fmt : FormatterItem) (arg : Arg)
    : M unit :=
  match arg with
  | AInt ty v => printUnsigned base fmt ty v
  | AChar c => printUnsigned base fmt char_t (char_value c)
  | _ => FORMAT_ERROR IncompatibleType
  end.

(** The overload set of [printByType]. *)
Definition printByType (fmt : FormatterItem) (arg : Arg) : M unit :=
  match arg with
  | ABool b =>
      let size := if b then 4 else 5 in
      printPreFill fmt size ;;
      (if b then sputn "true" else sputn "false") ;;
      printPostFill fmt size
  | AChar c => printChar fmt arg
  | ACStr _ s =>
      (* calculate size *)
      let size := len (c_str s) in
      (* print *)
      printPreFill fmt size ;;
      sputn (c_str s) ;;
      printPostFill fmt size
  | AInt ty v => printIntegral 10 fmt ty v
  | APtr _ => printPointer fmt arg
  | AFloat _ => FORMAT_ERROR NotImplemented
  | AStr str =>
      printPreFill fmt (len str) ;;
      sputn str ;;
      printPostFill fmt (len str)
  | AOpaque => FORMAT_ERROR IncompatibleType
  end.

(* ===================================================================== *)
(** ** Formatter: the argument dispatcher *)

(** The [switch (fmt.formatChar)] of [printArg], on the selected argument. *)
Definition printArg_switch (fmt : FormatterItem) (arg1 : Arg) : M unit :=
  let fc := formatChar fmt in
  if fc == "s" then printByType fmt arg1
  else if fc == "c" then printChar fmt arg1
  else if fc == "b" then printUnsigned_arg 2 fmt arg1
  else if fc == "d" then printIntegral_arg 10 fmt arg1
  else if fc == "o" then printUnsigned_arg 8 fmt arg1
  else if (fc == "x") || (fc == "X") then printUnsigned_arg 16 fmt arg1
  else if fc == "p" then printPointer fmt arg1
  else if (fc == "e") || (fc == "E") || (fc == "f") || (fc == "F")
          || (fc == "g") || (fc == "G") || (fc == "a") || (fc == "A")
  then FORMAT_ERROR NotImplemented
  else (* should not be here *) raise AssertFalse.

(** [printArg(item, fmt, arg1, args...)] and, on the empty pack,
    [printArg(item, fmt)]. *)
Fixpoint printArg_item (item : Z) (fmt : FormatterItem) (args : list Arg)
    : M unit :=
  match args with
  | arg1 :: args' =>
      if negb (item =? 0) then printArg_item (u32 (item - 1)) fmt args'
      else printArg_switch fmt arg1
  | [] => FORMAT_ERROR TooFewArguments
  end.

(** [printArg(fmt, args...)]. *)
Definition printArg (fmt : FormatterItem) (args : list Arg) : M unit :=
  printArg_item (position fmt) fmt args.

(* ===================================================================== *)
(** ** Formatter::print: the template scanner *)

(** The position bookkeeping of one directive.  [counter] is the local
    variable [position] of [print] (the field of the same name is
    [fmt.position]).  From [positional], [counter] and the parsed
    [fmt.position]: the value [fmt.position] is given, and the two variables
    afterwards. *)
Definition next_position (positional : bool) (counter fmt_position : Z)
    : Z * (bool * Z) :=
  let '(fmt_position, positional, counter) :=
    if fmt_position =? POSITION_NONE
    then (counter, positional, counter)
    else (fmt_position, true, fmt_position) in
  let counter := if negb positional then u32 (counter + 1) else counter in
  (fmt_position, (positional, counter)).

Definition set_position (fmt : FormatterItem) (p : Z) : FormatterItem :=
  mkItem p (flags fmt) (width fmt) (precision fmt) (formatChar fmt).

(** The [while (true)] loop.  [run] is the literal text between [last] and
    [iter]; every turn of the loop moves [iter] forward, so the length of
    the template bounds the number of turns ([fuel]). *)
Fixpoint print_loop (fuel : nat) (positional : bool) (counter : Z)
    (run iter : string) (args : list Arg) : M unit :=
  match fuel with
  | O => raise OutOfFuel
  | S fuel' =>
      match iter with
      | EmptyString => sputn run
      | String c rest =>
          if c == zero then sputn run
          else if c == "%" then
            sputn run ;;
            if deref rest == "%" then
              sputc "%" ;;
              print_loop fuel' positional counter "" (next rest) args
            else if deref rest == "(" then
              FORMAT_ERROR NotImplemented
            else
              match handleFormatter rest with
              | Stop r => raise r
              | Ok (fmt, iter') =>
                  let '(p, (positional, counter)) :=
                    next_position positional counter (position fmt) in
                  printArg (set_position fmt p) args ;;
                  print_loop fuel' positional counter "" iter' args
              end
          else
            print_loop fuel' positional counter (run ++ String c "") rest args
      end
  end.

Definition print (format : string) (args : list Arg) : M unit :=
  print_loop (S (String.length format)) false 0 "" format args.

(** [writef]: format into an empty sink and return what was written. *)
Definition writef (format : string) (args : list Arg) : streambuf * res unit :=
  print format args "".

End Formatter.

(* ===================================================================== *)
(** ** Notions used in the statements *)

(** What a printing routine writes, started on an empty sink. *)
Definition written {A} (m : M A) : string := fst (m "").

(** Reading a digit run back in a base. *)
Definition digit_val (c : ascii) : Z :=
  if is_digit c then code c - code "0"
  else if (code "a" <=? code c) && (code c <=? code "z")
       then code c - code "a" + 10
  else if (code "A" <=? code c) && (code c <=? code "Z")
       then code c - code "A" + 10
  else 0.

Fixpoint digits_value_from (base acc : Z) (s : string) : Z :=
  match s with
  | EmptyString => acc
  | String c r => digits_value_from base (acc * base + digit_val c) r
  end.

Definition digits_value (base : Z) (s : string) : Z :=
  digits_value_from base 0 s.

(** Every character of the run is a digit of the base, letters in the case
    given by [letter]. *)
Fixpoint digits_of_base (base letter : Z) (s : string) : bool :=
  match s with
  | EmptyString => true
  | String c r =>
      (((code "0" <=? code c) && (code c <? code "0" + Z.min base 10))
       || ((letter <=? code c) && (code c <? letter + (base - 10))))
      && digits_of_base base letter r
  end.

(** The directives of a template, each given by its parsed position
    ([POSITION_NONE] when it has none), run through [next_position] as
    [print] does, from [positional = false] and counter 0. *)
Definition positions_after (ds : list Z) : bool * Z :=
  fold_left (fun st d => snd (next_position (fst st) (snd st) d)) ds (false, 0).

(** The value [fmt.position] the [j]-th directive is dispatched with. *)
Definition effective_index (ds : list Z) (j : nat) : Z :=
  let st := positions_after (firstn j ds) in
  fst (next_position (fst st) (snd st) (nth j ds POSITION_NONE)).

(** The counter once the [j]-th directive has been handled. *)
Definition counter_after (ds : list Z) (j : nat) : Z :=
  snd (positions_after (firstn (S j) ds)).

(** The position of the last directive of [ds] that has one. *)
Definition last_explicit (ds : list Z) : option Z :=
  fold_left (fun acc d => if d =? POSITION_NONE then acc else Some d) ds None.

(** [i] is the first directive with an explicit position. *)
Definition first_explicit (ds : list Z) (i : nat) : Prop :=
  nth i ds POSITION_NONE <> POSITION_NONE /\
  forall k, (k < i)%nat -> nth k ds POSITION_NONE = POSITION_NONE.

(** The bases [printIntegral] is instantiated at (its [static_assert]). *)
Definition supported_base (Tbase : Z) : Prop :=
  Tbase = 2 \/ Tbase = 8 \/ Tbase = 10 \/ Tbase = 16.

(** A width or precision that is absent or an explicit small number. *)
Definition none_or_small (x : Z) : Prop :=
  x = WIDTH_EMPTY \/ 0 <= x < 2 ^ 30.

(** The explicit-base flag only comes with a conversion that has a base
    prefix (what [fixFlags] and the dispatch leave possible). *)
Definition base_flag_fits (fmt : FormatterItem) : Prop :=
  has (flags fmt) FLAG_EXPLICIT_BASE = true ->
  formatChar fmt = "x"%char \/ formatChar fmt = "X"%char
  \/ formatChar fmt = "o"%char.

(** The minimum digit count the precision asks for. *)
Definition min_digits (fmt : FormatterItem) : Z :=
  if precision fmt =? WIDTH_EMPTY then 1 else precision fmt.

(** The room the sign or the base prefix takes. *)
Definition sign_or_base_size (fmt : FormatterItem) (ty : IntType) (value : Z)
    : Z :=
  if (isNegative ty value && (formatChar fmt == "d"))
     || has (flags fmt) FLAG_SHOW_SIGN || has (flags fmt) FLAG_ADD_SPACE
  then 1
  else if has (flags fmt) FLAG_EXPLICIT_BASE then
    if (formatChar fmt == "x") || (formatChar fmt == "X")
    then (if value =? 0 then 0 else 2)
    else 1
  else 0.

(** The width fill of a numeric render whose digit buffer holds [numsize]
    characters. *)
Definition width_fill (fmt : FormatterItem) (ty : IntType) (value numsize : Z)
    : Z :=
  if width fmt =? WIDTH_EMPTY then 0
  else Z.max 0 (width fmt
                - (numsize + sign_or_base_size fmt ty value)
                - Z.max 0 (min_digits fmt - numsize)).

(** The digits an iterator starts with. *)
Fixpoint digit_run (iter : string) : string :=
  match iter with
  | String c r => if is_digit c then String c (digit_run r) else ""
  | EmptyString => ""
  end.

(** The flag characters, and the flag each one sets. *)
Definition is_flag (c : ascii) : bool :=
  (c == "-") || (c == "+") || (c == "#") || (c == "0") || (c == " ").

Definition flag_of (c : ascii) : Z :=
  if c == "-" then FLAG_LEFT_JUSTIFY
  else if c == "+" then FLAG_SHOW_SIGN
  else if c == "#" then FLAG_EXPLICIT_BASE
  else if c == "0" then FLAG_FILL_ZERO
  else if c == " " then FLAG_ADD_SPACE
  else 0.

(** The flag characters an iterator starts with. *)
Fixpoint flag_run (iter : string) : string :=
  match iter with
  | String c r => if is_flag c then String c (flag_run r) else ""
  | EmptyString => ""
  end.

(** [c] occurs in [s]. *)
Fixpoint occurs (c : ascii) (s : string) : bool :=
  match s with
  | String x r => (x == c) || occurs c r
  | EmptyString => false
  end.

(** Literal text of a template: no '%' and no NUL. *)
Fixpoint plain (s : string) : bool :=
  match s with
  | String c r => negb (c == zero) && negb (c == "%") && plain r
  | EmptyString => true
  end.

(** A character the directive parser takes before the conversion
    character: a digit, a flag, '*' or '.'. *)
Definition item_char (c : ascii) : bool :=
  is_digit c || is_flag c || (c == "*") || (c == ".").

(** A printing routine only appends to the sink: what it writes and how it
    ends do not depend on what the sink already holds. *)
Definition appends {A} (m : M A) : Prop :=
  forall s, m s = (s ++ fst (m ""), snd (m "")).

(** It appends, and it does not end for want of fuel. *)
Definition regular {A} (m : M A) : Prop :=
  appends m /\ snd (m "") <> Stop OutOfFuel.

(** Every way a printing routine can stop satisfies [P]. *)
Definition ends_in {A} (P : stop -> Prop) (m : M A) : Prop :=
  forall s r, snd (m s) = Stop r -> P r.





(** The ends [print] can come to, besides returning. *)
Definition print_failure (r : stop) : Prop :=
  r = Throw InvalidFormatter \/ r = Throw TooFewArguments \/
  r = Throw IncompatibleType \/ r = Throw NotImplemented \/ r = Undefined.

(** What a non-numeric render writes for an argument, before padding:
    under %s the word of a boolean, the character, the characters of a
    text; under %c the argument converted to a character. *)
Definition rendered_text (fc : ascii) (arg : Arg) : option string :=
  if fc == "s" then
    match arg with
    | ABool b => Some (if b then "true" else "false")
    | AChar c => Some (String c "")
    | ACStr _ s => Some (c_str s)
    | AStr s => Some s
    | _ => None
    end
  else if fc == "c" then
    match arg with
    | ABool b => Some (String (char_of (if b then 1 else 0)) "")
    | AChar c => Some (String c "")
    | AInt _ v => Some (String (char_of v) "")
    | AFloat t => Some (String (char_of t) "")
    | _ => None
    end
  else None.


(** The decimal digits the library's own digit loop leaves in the buffer
    for [n] (none for 0), and [n] as "%d" writes it. *)
Definition decimal (n : Z) : string :=
  match printIntegral_buf 10 (mkItem 0 0 WIDTH_EMPTY WIDTH_EMPTY "d")
          uint32_t n with
  | Some ds => ds
  | None => ""
  end.

Definition show_number (n : Z) : string :=
  if n =? 0 then "0" else decimal n.

(** A directive written out from its parts: position, flag characters,
    width, precision and conversion character (the grammar
    [Position Flags Width Precision FormatChar]). *)
Definition show_item (pos : option Z) (fs : string) (w p : option Z)
    (fc : ascii) : string :=
  (match pos with Some n => show_number n ++ "$" | None => "" end)
  ++ fs
  ++ (match w with Some n => decimal n | None => "" end)
  ++ (match p with Some n => "." ++ show_number n | None => "" end)
  ++ String fc "".

Fixpoint all_flags (fs : string) : bool :=
  match fs with
  | String c r => is_flag c && all_flags r
  | EmptyString => true
  end.

Fixpoint flags_of (fs : string) : Z :=
  match fs with
  | String c r => Z.lor (flag_of c) (flags_of r)
  | EmptyString => 0
  end.

(** The descriptor the parts stand for, before [fixFlags]. *)
Definition item_of (pos : option Z) (fs : string) (w p : option Z)
    (fc : ascii) : FormatterItem :=
  mkItem (match pos with Some n => n | None => POSITION_NONE end)
    (flags_of fs)
    (match w with Some n => n | None => WIDTH_EMPTY end)
    (match p with Some n => n | None => WIDTH_EMPTY end)
    fc.

(** An optional [unsigned int] that is at least [lo]. *)
Definition opt_u32 (lo : Z) (o : option Z) : Prop :=
  match o with Some n => lo <= n < 2 ^ 32 | None => True end.

(** A template cut into pieces: literal text, then the text of one
    directive (what stands behind its '%') and the descriptor the parser
    makes of it. *)
Record piece : Set := mkPiece {
  piece_text : string;
  piece_directive : string;
  piece_item : FormatterItem
}.

Definition parses_as (p : piece) : Prop :=
  plain (piece_text p) = true /\
  forall rest : string,
    handleFormatter (piece_directive p ++ rest) = Ok (piece_item p, rest).

Fixpoint template (ps : list piece) (tail : string) : string :=
  match ps with
  | [] => tail
  | p :: ps' =>
      piece_text p ++ String "%" (piece_directive p ++ template ps' tail)
  end.

(** The conversion of the argument of zero-based index [index]. *)
Definition dispatch (sizeof_ptr : Z) (fmt : FormatterItem) (index : Z)
    (args : list Arg) : M unit :=
  match nth_error args (Z.to_nat index) with
  | Some arg => printArg_switch sizeof_ptr fmt arg
  | None => FORMAT_ERROR TooFewArguments
  end.

(** The pieces from the [j]-th on, [ds] being the parsed positions of all
    the directives of the template. *)
Fixpoint format_pieces (sizeof_ptr : Z) (ds : list Z) (j : nat)
    (ps : list piece) (args : list Arg) : M unit :=
  match ps with
  | [] => ret tt
  | p :: ps' =>
      sputn (piece_text p) ;;
      dispatch sizeof_ptr (piece_item p) (effective_index ds j) args ;;
      format_pieces sizeof_ptr ds (S j) ps' args
  end.


(* ===================================================================== *)
(** * Properties *)

(** ** Strings *)

Lemma append_nil_r (s : string) : s ++ "" = s.
Proof. induction s as [|c s IH]; simpl; [reflexivity | now rewrite IH]. Qed.

Lemma append_assoc (a b c : string) : (a ++ b) ++ c = a ++ (b ++ c).
Proof. induction a as [|x a IH]; simpl; [reflexivity | now rewrite IH]. Qed.

Lemma length_append (a b : string) :
  String.length (a ++ b) = (String.length a + String.length b)%nat.
Proof. induction a as [|x a IH]; simpl; [reflexivity | now rewrite IH]. Qed.

Lemma len_append (a b : string) : len (a ++ b) = len a + len b.
Proof. unfold len. rewrite length_append. lia. Qed.

Lemma len_nonneg (s : string) : 0 <= len s.
Proof. unfold len. lia. Qed.

Lemma length_nchars_nat (n : nat) (c : ascii) :
  String.length (nchars_nat n c) = n.
Proof. induction n as [|n IH]; simpl; [reflexivity | now rewrite IH]. Qed.

Lemma len_nchars (n : Z) (c : ascii) : len (nchars n c) = Z.max 0 n.
Proof. unfold len, nchars. rewrite length_nchars_nat. lia. Qed.

Lemma nchars_nonpos (n : Z) (c : ascii) : n <= 0 -> nchars n c = "".
Proof.
  intros H. unfold nchars. replace (Z.to_nat n) with O by lia. reflexivity.
Qed.

Lemma nchars_nat_add (n m : nat) (c : ascii) :
  nchars_nat (n + m) c = nchars_nat n c ++ nchars_nat m c.
Proof. induction n as [|n IH]; simpl; [reflexivity | now rewrite IH]. Qed.

Lemma nchars_add (n m : Z) (c : ascii) :
  0 <= n -> 0 <= m -> nchars (n + m) c = nchars n c ++ nchars m c.
Proof.
  intros Hn Hm. unfold nchars. rewrite Z2Nat.inj_add by assumption.
  apply nchars_nat_add.
Qed.

Lemma nchars_one (c : ascii) : nchars 1 c = String c "".
Proof. reflexivity. Qed.

Lemma len_empty (s : string) : len s = 0 <-> s = "".
Proof.
  unfold len. destruct s; simpl; split; intros H;
    try reflexivity; try discriminate; lia.
Qed.

(** ** Machine integers *)

Lemma u32_small (x : Z) : 0 <= x < 2 ^ 32 -> u32 x = x.
Proof. intros H. unfold u32. now apply Z.mod_small. Qed.

Lemma u32_range (x : Z) : 0 <= u32 x < 2 ^ 32.
Proof. unfold u32. apply Z.mod_pos_bound. lia. Qed.

Lemma to_int_small (x : Z) : 0 <= x < 2 ^ 31 -> to_int x = x.
Proof.
  intros H. unfold to_int. destruct (x <? 2 ^ 31) eqn:E; [reflexivity|].
  apply Z.ltb_ge in E. lia.
Qed.

Lemma WIDTH_EMPTY_val : WIDTH_EMPTY = 4294967295.
Proof. reflexivity. Qed.

Lemma WIDTH_ARG_val : WIDTH_ARG = 4294967294.
Proof. reflexivity. Qed.

(** ** Flags as bits *)

Lemma land_pow2 (fl k : Z) :
  0 <= k -> Z.land fl (2 ^ k) = if Z.testbit fl k then 2 ^ k else 0.
Proof.
  intros Hk. apply Z.bits_inj'. intros n Hn.
  rewrite Z.land_spec, Z.pow2_bits_eqb by assumption.
  destruct (Z.eqb_spec k n) as [->|Hne].
  - rewrite andb_true_r. destruct (Z.testbit fl n) eqn:E.
    + now rewrite Z.pow2_bits_true.
    + now rewrite Z.bits_0.
  - rewrite andb_false_r. destruct (Z.testbit fl k).
    + symmetry. apply Z.pow2_bits_false. congruence.
    + now rewrite Z.bits_0.
Qed.

Lemma has_pow2 (fl k : Z) : 0 <= k -> has fl (2 ^ k) = Z.testbit fl k.
Proof.
  intros Hk. unfold has. rewrite land_pow2 by assumption.
  destruct (Z.testbit fl k); [|reflexivity].
  assert (0 < 2 ^ k) by (apply Z.pow_pos_nonneg; lia).
  destruct (Z.eqb_spec (2 ^ k) 0); [lia | reflexivity].
Qed.

Lemma testbit_clear (fl mask k : Z) :
  0 <= k < 8 ->
  Z.testbit (clear fl mask) k = Z.testbit fl k && negb (Z.testbit mask k).
Proof.
  intros Hk. unfold clear, u8, u32.
  rewrite Z.mod_pow2_bits_low by lia.
  rewrite Z.land_spec, Z.mod_pow2_bits_low by lia.
  now rewrite Z.lnot_spec by lia.
Qed.

Lemma has_clear (fl mask k : Z) :
  0 <= k < 8 ->
  has (clear fl mask) (2 ^ k) = has fl (2 ^ k) && negb (Z.testbit mask k).
Proof.
  intros Hk. rewrite !has_pow2 by lia. now apply testbit_clear.
Qed.

Lemma flag_bits :
  FLAG_LEFT_JUSTIFY = 2 ^ 0 /\ FLAG_SHOW_SIGN = 2 ^ 1 /\
  FLAG_EXPLICIT_BASE = 2 ^ 2 /\ FLAG_FILL_ZERO = 2 ^ 3 /\
  FLAG_ADD_SPACE = 2 ^ 4.
Proof. repeat split. Qed.

(** What [fixFlags] leaves of each flag, bit by bit. *)
Lemma fixFlags_flags (fmt : FormatterItem) :
  let fc := formatChar fmt in
  let fl := flags fmt in
  let keeps_sign := (fc == "d") || (fc == "b") || (fc == "s") in
  let fl' := flags (fixFlags fmt) in
  has fl' FLAG_LEFT_JUSTIFY = has fl FLAG_LEFT_JUSTIFY /\
  has fl' FLAG_SHOW_SIGN = has fl FLAG_SHOW_SIGN && keeps_sign /\
  has fl' FLAG_EXPLICIT_BASE = has fl FLAG_EXPLICIT_BASE && negb keeps_sign /\
  has fl' FLAG_FILL_ZERO =
    has fl FLAG_FILL_ZERO && negb (has fl FLAG_LEFT_JUSTIFY) /\
  has fl' FLAG_ADD_SPACE =
    has fl FLAG_ADD_SPACE && keeps_sign && negb (has fl FLAG_SHOW_SIGN).
Proof.
  destruct flag_bits as (E0 & E1 & E2 & E3 & E4).
  cbv zeta. unfold fixFlags. cbn [flags formatChar].
  rewrite E0, E1, E2, E3, E4.
  destruct (formatChar fmt == "d"), (formatChar fmt == "b"),
    (formatChar fmt == "s"); cbn [negb andb orb];
    repeat match goal with
    | |- context [if has ?f ?m then _ else _] =>
        let E := fresh "E" in destruct (has f m) eqn:E
    end;
    rewrite ?has_clear in * by lia;
    change (Z.lor (2 ^ 1) (2 ^ 4)) with 18 in *;
    change (Z.testbit 18 0) with false in *;
    change (Z.testbit 18 1) with true in *;
    change (Z.testbit 18 2) with false in *;
    change (Z.testbit 18 3) with false in *;
    change (Z.testbit 18 4) with true in *;
    change (Z.testbit (2 ^ 2) 0) with false in *;
    change (Z.testbit (2 ^ 2) 1) with false in *;
    change (Z.testbit (2 ^ 2) 2) with true in *;
    change (Z.testbit (2 ^ 2) 3) with false in *;
    change (Z.testbit (2 ^ 2) 4) with false in *;
    change (Z.testbit (2 ^ 4) 0) with false in *;
    change (Z.testbit (2 ^ 4) 1) with false in *;
    change (Z.testbit (2 ^ 4) 2) with false in *;
    change (Z.testbit (2 ^ 4) 3) with false in *;
    change (Z.testbit (2 ^ 3) 0) with false in *;
    change (Z.testbit (2 ^ 3) 1) with false in *;
    change (Z.testbit (2 ^ 3) 2) with false in *;
    change (Z.testbit (2 ^ 3) 3) with true in *;
    change (Z.testbit (2 ^ 3) 4) with false in *;
    cbn [negb andb] in *; rewrite ?andb_true_r, ?andb_false_r in *;
    repeat split;
    destruct (has (flags fmt) (2 ^ 0)), (has (flags fmt) (2 ^ 1)),
      (has (flags fmt) (2 ^ 2)), (has (flags fmt) (2 ^ 3)),
      (has (flags fmt) (2 ^ 4)); cbn [negb andb] in *; congruence.
Qed.

(* ===================================================================== *)
(** ** The flag normalizer *)

Lemma fixFlags_formatChar (fmt : FormatterItem) :
  formatChar (fixFlags fmt) = formatChar fmt.
Proof. reflexivity. Qed.

Lemma handleFormatter_fixed (iter : string) (fmt : FormatterItem)
    (rest : string) :
  handleFormatter iter = Ok (fmt, rest) ->
  exists fmt0, fmt = fixFlags fmt0 /\ is_formatChar (formatChar fmt0) = true.
Proof.
  unfold handleFormatter, handleFormatChar.
  destruct (handlePosition iter) as [pos i1].
  destruct (handleFlags i1) as [fl i2].
  destruct (handleWidth i2) as [w i3].
  destruct (handlePrecision i3) as [p i4].
  destruct (is_formatChar (deref i4)) eqn:E; [|discriminate].
  intros H. injection H as <- <-.
  now exists (mkItem pos fl w p (deref i4)).
Qed.

(** C8.  After every successful parse of a directive the flags are
    normalized: show-sign and add-space are clear unless the conversion is
    d, b or s; explicit-base is clear when the conversion is d or b;
    add-space is clear whenever show-sign is set; zero-fill is clear
    whenever left-justify is set. *)
Theorem handleFormatter_normalizes_flags (iter : string)
    (fmt : FormatterItem) (rest : string) :
  handleFormatter iter = Ok (fmt, rest) ->
  let fc := formatChar fmt in
  let fl := flags fmt in
  (fc <> "d"%char -> fc <> "b"%char -> fc <> "s"%char ->
     has fl FLAG_SHOW_SIGN = false /\ has fl FLAG_ADD_SPACE = false) /\
  (fc = "d"%char \/ fc = "b"%char -> has fl FLAG_EXPLICIT_BASE = false) /\
  (has fl FLAG_SHOW_SIGN = true -> has fl FLAG_ADD_SPACE = false) /\
  (has fl FLAG_LEFT_JUSTIFY = true -> has fl FLAG_FILL_ZERO = false).
Proof.
  intros H. apply handleFormatter_fixed in H as (fmt0 & -> & _).
  cbv zeta. rewrite fixFlags_formatChar.
  destruct (fixFlags_flags fmt0) as (HL & HS & HB & HZ & HA).
  cbv zeta in HL, HS, HB, HZ, HA.
  rewrite HL, HS, HB, HZ, HA. repeat split.
  - apply Ascii.eqb_neq in H, H0, H1. rewrite H, H0, H1.
    now rewrite andb_false_r.
  - apply Ascii.eqb_neq in H, H0, H1. rewrite H, H0, H1. cbn [orb].
    now rewrite andb_false_r.
  - intros [E | E]; rewrite E; cbn; now rewrite andb_false_r.
  - intros E. apply andb_prop in E as [-> _]. cbn.
    now rewrite andb_false_r.
  - intros ->. cbn. now rewrite andb_false_r.
Qed.

Lemma handleFormatter_normalizes_flags_witness :
  handleFormatter "+ #-08.3x rest"
    = Ok (mkItem POSITION_NONE 5 8 3 "x", " rest") /\
  has 5 FLAG_SHOW_SIGN = false /\ has 5 FLAG_ADD_SPACE = false /\
  has 5 FLAG_FILL_ZERO = false.
Proof.
  assert (E : handleFormatter "+ #-08.3x rest"
              = Ok (mkItem POSITION_NONE 5 8 3 "x", " rest"))
    by reflexivity.
  split; [exact E|].
  destruct (handleFormatter_normalizes_flags _ _ _ E) as (A & _ & _ & D).
  cbn [formatChar flags] in A, D.
  destruct A as [A1 A2]; try discriminate.
  split; [exact A1 | split; [exact A2 | apply D; reflexivity]].
Defined.

(* ===================================================================== *)
(** ** The argument dispatcher *)

Lemma printArg_item_exhausted (sizeof_ptr : Z) (fmt : FormatterItem)
    (args : list Arg) :
  forall (item : Z) (sink : streambuf),
    Z.of_nat (List.length args) <= item < 2 ^ 32 ->
    printArg_item sizeof_ptr item fmt args sink
    = (sink, Stop (Throw TooFewArguments)).
Proof.
  induction args as [|a args IH]; intros item sink H; cbn [printArg_item].
  - reflexivity.
  - cbn [List.length] in H. destruct (Z.eqb_spec item 0) as [->|Hne]; [lia|].
    cbn [negb]. rewrite u32_small by lia. apply IH. lia.
Qed.

Lemma printArg_item_nth (sizeof_ptr : Z) (fmt : FormatterItem) :
  forall (args : list Arg) (n : nat) (arg : Arg),
    nth_error args n = Some arg ->
    Z.of_nat n < 2 ^ 32 ->
    printArg_item sizeof_ptr (Z.of_nat n) fmt args
    = printArg_switch sizeof_ptr fmt arg.
Proof.
  induction args as [|a args IH]; intros n arg Hn Hlt.
  - destruct n; discriminate.
  - destruct n as [|n]; cbn [printArg_item].
    + cbn in Hn. injection Hn as ->. reflexivity.
    + cbn [nth_error] in Hn.
      destruct (Z.eqb_spec (Z.of_nat (S n)) 0) as [E|_]; [lia|]. cbn [negb].
      replace (u32 (Z.of_nat (S n) - 1)) with (Z.of_nat n)
        by (rewrite u32_small; lia).
      apply IH; [assumption | lia].
Qed.

(** C9.  A directive whose effective index is not below the number of
    arguments makes the dispatcher walk the whole argument list and signal
    TooFewArguments; so does "%d" with no argument at all. *)
Theorem printArg_too_few_arguments (sizeof_ptr : Z) (fmt : FormatterItem)
    (args : list Arg) (sink : streambuf) :
  Z.of_nat (List.length args) <= position fmt < 2 ^ 32 ->
  printArg sizeof_ptr fmt args sink = (sink, Stop (Throw TooFewArguments)) /\
  writef sizeof_ptr "%d" [] = ("", Stop (Throw TooFewArguments)).
Proof.
  intros H. split; [|reflexivity].
  unfold printArg. now apply printArg_item_exhausted.
Qed.

Lemma printArg_too_few_arguments_witness :
  (Z.of_nat (List.length [AInt int32_t 7; ABool true])
     <= position (mkItem 2 0 WIDTH_EMPTY WIDTH_EMPTY "d") < 2 ^ 32) /\
  printArg 8 (mkItem 2 0 WIDTH_EMPTY WIDTH_EMPTY "d")
    [AInt int32_t 7; ABool true] "seen "
  = ("seen ", Stop (Throw TooFewArguments)).
Proof.
  assert (H : Z.of_nat (List.length [AInt int32_t 7; ABool true])
              <= position (mkItem 2 0 WIDTH_EMPTY WIDTH_EMPTY "d") < 2 ^ 32)
    by (cbn; lia).
  split; [exact H|].
  exact (proj1 (printArg_too_few_arguments 8 _ _ "seen " H)).
Defined.

(* ===================================================================== *)
(** ** Explicit positions *)

(** C1, as stated, fails: positions are zero-based, so "%2$s" asks for a
    third argument and the call with two arguments signals TooFewArguments
    before anything is written. *)
Lemma positions_reorder_counterexample :
  writef 8 "%2$s %1$s" [ACStr 4096 "world"; ACStr 8192 "hello"]
    = ("", Stop (Throw TooFewArguments)) /\
  writef 8 "%2$s %1$s" [ACStr 4096 "world"; ACStr 8192 "hello"]
    <> ("hello world", Ok tt).
Proof. split; [reflexivity | discriminate]. Qed.

(** C1, amended.  An explicit position N$ selects the argument of
    zero-based index N: the dispatcher hands the directive to the N-th
    argument counted from 0.  So it is "%1$s %0$s" that formats "world" and
    "hello" as "hello world", and "%2$s %1$s" on these two arguments
    signals TooFewArguments. *)
Theorem explicit_position_is_zero_based (sizeof_ptr : Z)
    (fmt : FormatterItem) (args : list Arg) (n : nat) (arg : Arg)
    (sink : streambuf) :
  nth_error args n = Some arg ->
  position fmt = Z.of_nat n ->
  Z.of_nat n < 2 ^ 32 ->
  printArg sizeof_ptr fmt args sink = printArg_switch sizeof_ptr fmt arg sink /\
  writef sizeof_ptr "%1$s %0$s" [ACStr 4096 "world"; ACStr 8192 "hello"]
    = ("hello world", Ok tt) /\
  writef sizeof_ptr "%2$s %1$s" [ACStr 4096 "world"; ACStr 8192 "hello"]
    = ("", Stop (Throw TooFewArguments)).
Proof.
  intros Hn Hp Hlt. split; [|split; reflexivity].
  unfold printArg. rewrite Hp.
  now rewrite (printArg_item_nth sizeof_ptr fmt args n arg Hn Hlt).
Qed.

Lemma explicit_position_is_zero_based_witness :
  nth_error [ACStr 4096 "world"; ACStr 8192 "hello"] 1
    = Some (ACStr 8192 "hello") /\
  printArg 8 (mkItem 1 0 WIDTH_EMPTY WIDTH_EMPTY "s")
    [ACStr 4096 "world"; ACStr 8192 "hello"] ""
  = ("hello", Ok tt).
Proof.
  split; [reflexivity|].
  refine (eq_trans
    (proj1 (explicit_position_is_zero_based 8
              (mkItem 1 0 WIDTH_EMPTY WIDTH_EMPTY "s")
              [ACStr 4096 "world"; ACStr 8192 "hello"] 1%nat
              (ACStr 8192 "hello") "" eq_refl eq_refl _)) _);
    [reflexivity | reflexivity].
Defined.

(* ===================================================================== *)
(** ** The running position counter *)

Lemma positions_after_snoc (ds : list Z) (d : Z) :
  positions_after (ds ++ [d])%list
  = snd (next_position (fst (positions_after ds))
           (snd (positions_after ds)) d).
Proof. unfold positions_after. now rewrite fold_left_app. Qed.

Lemma last_explicit_snoc (ds : list Z) (d : Z) :
  last_explicit (ds ++ [d])%list
  = if d =? POSITION_NONE then last_explicit ds else Some d.
Proof. unfold last_explicit. now rewrite fold_left_app. Qed.

Lemma u32_succ (x : Z) : u32 (u32 x + 1) = u32 (x + 1).
Proof. unfold u32. now rewrite Zplus_mod_idemp_l. Qed.

(** The two variables of [print] after a run of directives. *)
Lemma positions_after_spec (ds : list Z) :
  positions_after ds
  = match last_explicit ds with
    | Some e => (true, e)
    | None => (false, u32 (Z.of_nat (List.length ds)))
    end.
Proof.
  induction ds as [|d ds IH] using rev_ind; [reflexivity|].
  rewrite positions_after_snoc, last_explicit_snoc, IH.
  rewrite length_app. cbn [List.length]. unfold next_position.
  destruct (d =? POSITION_NONE); [|reflexivity].
  destruct (last_explicit ds); cbn; [reflexivity|].
  rewrite u32_succ. do 2 f_equal. lia.
Qed.

(** C2, as stated, fails.  With directives [%d %2$d %0$d %d] the first
    explicit position is at directive 1; the counter is 1 before it and 2
    after it, yet the last directive, which has no position, is dispatched
    with index 0: a later explicit position has overwritten the counter. *)
Lemma counter_frozen_counterexample :
  ~ (forall (ds : list Z) (i j : nat),
       first_explicit ds i ->
       (i < j < List.length ds)%nat ->
       nth j ds POSITION_NONE = POSITION_NONE ->
       effective_index ds j = counter_after ds i \/
       effective_index ds j = snd (positions_after (firstn i ds)))
  /\ writef 8 "%d%2$d%0$d%d" [AInt int32_t 10; AInt int32_t 20; AInt int32_t 30]
     = ("10301010", Ok tt).
Proof.
  split; [|reflexivity].
  intros H.
  assert (F : first_explicit [POSITION_NONE; 2; 0; POSITION_NONE] 1).
  { split; [discriminate|]. intros [|k] Hk; [reflexivity | lia]. }
  destruct (H [POSITION_NONE; 2; 0; POSITION_NONE] 1%nat 3%nat F
              ltac:(cbn; lia) eq_refl) as [E | E];
    discriminate E.
Qed.

(** C2, amended.  The counter is advanced by one after a directive exactly
    while no directive so far has an explicit position (it then counts the
    directives); a directive with an explicit position N$ sets the counter
    to N, and from the first such directive on the counter is never
    advanced.  A directive without a position is dispatched with the
    counter: the number of directives before it while none was explicit,
    afterwards the position of the most recent explicit directive. *)
Theorem position_counter (ds : list Z) (j : nat) (d : Z) :
  nth_error ds j = Some d ->
  (d = POSITION_NONE ->
     effective_index ds j
     = match last_explicit (firstn j ds) with
       | Some e => e
       | None => u32 (Z.of_nat j)
       end) /\
  (d <> POSITION_NONE -> effective_index ds j = d) /\
  counter_after ds j
  = match last_explicit (firstn (S j) ds) with
    | Some e => e
    | None => u32 (Z.of_nat (S j))
    end.
Proof.
  intros Hd.
  assert (Hj : (j < List.length ds)%nat)
    by (apply nth_error_Some; congruence).
  assert (Hnth : nth j ds POSITION_NONE = d) by now apply nth_error_nth.
  unfold effective_index, counter_after.
  rewrite Hnth, !positions_after_spec.
  rewrite !length_firstn.
  replace (Nat.min j (List.length ds)) with j by lia.
  replace (Nat.min (S j) (List.length ds)) with (S j) by lia.
  unfold next_position. repeat split.
  - intros ->. cbn. now destruct (last_explicit (firstn j ds)).
  - intros Hne. apply Z.eqb_neq in Hne. rewrite Hne.
    now destruct (last_explicit (firstn j ds)).
  - now destruct (last_explicit (firstn (S j) ds)).
Qed.

Lemma position_counter_witness :
  nth_error [POSITION_NONE; 2; 0; POSITION_NONE] 3 = Some POSITION_NONE /\
  effective_index [POSITION_NONE; 2; 0; POSITION_NONE] 3 = 0 /\
  counter_after [POSITION_NONE; 2; 0; POSITION_NONE] 3 = 0.
Proof.
  split; [reflexivity|].
  destruct (position_counter [POSITION_NONE; 2; 0; POSITION_NONE] 3
              POSITION_NONE eq_refl) as (A & _ & C).
  split; [exact (A eq_refl) | exact C].
Defined.

(* ===================================================================== *)
(** ** Digit extraction *)

Ltac zbool :=
  repeat match goal with
  | |- context [?a <=? ?b] => destruct (Z.leb_spec a b)
  | |- context [?a <? ?b] => destruct (Z.ltb_spec a b)
  | |- context [?a >=? ?b] => rewrite (Z.geb_leb a b)
  | |- context [?a >? ?b] => rewrite (Z.gtb_ltb a b)
  | |- context [?a =? ?b] => destruct (Z.eqb_spec a b)
  end.

Lemma code_char_of (x : Z) : 0 <= x < 256 -> code (char_of x) = x.
Proof.
  intros H. unfold code, char_of, u8.
  rewrite Z.mod_small by (change (2 ^ 8) with 256; lia).
  rewrite N_ascii_embedding by lia. lia.
Qed.

Lemma code_range (c : ascii) : 0 <= code c < 256.
Proof.
  unfold code. pose proof (N_ascii_bounded c). lia.
Qed.

(** The character stored for a digit [d], read back. *)
Lemma digit_char (base letter d : Z) :
  2 <= base <= 16 -> letter = code "A" \/ letter = code "a" ->
  0 <= d < base ->
  let c := char_of (if d >=? 10 then d + (letter - 10) else d + code "0") in
  digit_val c = d /\ digits_of_base base letter (String c "") = true.
Proof.
  intros Hb Hl Hd. cbv zeta.
  change (code "A") with 65 in Hl. change (code "a") with 97 in Hl.
  change (code "0") with 48.
  rewrite Z.geb_leb.
  destruct (Z.leb_spec 10 d) as [Hge | Hlt].
  - assert (Hc : code (char_of (d + (letter - 10))) = d + (letter - 10))
      by (apply code_char_of; lia).
    unfold digit_val, is_digit, digits_of_base. rewrite Hc.
    change (code "0") with 48. change (code "9") with 57.
    change (code "a") with 97. change (code "z") with 122.
    change (code "A") with 65. change (code "Z") with 90.
    split.
    + destruct Hl as [-> | ->]; zbool; cbn [andb orb]; lia.
    + destruct Hl as [-> | ->]; zbool; cbn [andb orb]; try reflexivity; lia.
  - assert (Hc : code (char_of (d + 48)) = d + 48)
      by (apply code_char_of; lia).
    unfold digit_val, is_digit, digits_of_base. rewrite Hc.
    change (code "0") with 48. change (code "9") with 57.
    split.
    + zbool; cbn [andb orb]; lia.
    + zbool; cbn [andb orb]; try reflexivity; lia.
Qed.

Lemma digits_value_from_snoc (base : Z) (ds : string) (c : ascii) :
  forall acc,
    digits_value_from base acc (ds ++ String c "")
    = digits_value_from base acc ds * base + digit_val c.
Proof.
  induction ds as [|x ds IH]; intros acc; cbn; [reflexivity | apply IH].
Qed.

Lemma digits_of_base_app (base letter : Z) (a b : string) :
  digits_of_base base letter (a ++ b)
  = digits_of_base base letter a && digits_of_base base letter b.
Proof.
  induction a as [|x a IH]; cbn; [reflexivity|].
  rewrite IH. now rewrite andb_assoc.
Qed.

Lemma in_rangeb_spec (ty : IntType) (v : Z) :
  in_rangeb ty v = true <-> in_range ty v.
Proof.
  unfold in_rangeb, in_range. rewrite andb_true_iff, !Z.leb_le. tauto.
Qed.

Lemma int_bounds (ty : IntType) :
  2 <= bits ty -> int_min ty <= 0 <= int_max ty /\ - int_max ty <= int_max ty
  /\ int_min ty <= 2 * int_max ty + 2 /\ - 2 * int_max ty - 2 <= int_min ty.
Proof.
  intros H. unfold int_min, int_max.
  assert (0 < 2 ^ (bits ty - 1)) by (apply Z.pow_pos_nonneg; lia).
  assert (2 ^ bits ty = 2 * 2 ^ (bits ty - 1)).
  { replace (bits ty) with (Z.succ (bits ty - 1)) at 1 by lia.
    apply Z.pow_succ_r. lia. }
  destruct (is_signed ty); lia.
Qed.

(** One turn of the loop on a value of the type: the digit and the value
    it leaves. *)
Lemma loop_step (base : Z) (ty : IntType) (value : Z) :
  2 <= base <= 16 -> 2 <= bits ty -> in_range ty value -> value <> 0 ->
  exists d value',
    (if Z.rem value base <? 0
     then match negate ty (Z.quot value base) with
          | Some v' => Some (- Z.rem value base, v')
          | None => None
          end
     else Some (Z.rem value base, Z.quot value base)) = Some (d, value')
    /\ 0 <= d < base
    /\ in_range ty value'
    /\ Z.abs value = Z.abs value' * base + d
    /\ (value < 0 -> is_signed ty = true).
Proof.
  intros Hb Hbits Hr Hv.
  destruct (int_bounds ty Hbits) as (B1 & B2 & B3 & B4).
  assert (Hsig : value < 0 -> is_signed ty = true).
  { intros Hneg. unfold in_range, int_min in Hr.
    destruct (is_signed ty); [reflexivity | lia]. }
  unfold in_range in Hr.
  assert (Hqr : value = base * Z.quot value base + Z.rem value base
                /\ Z.abs (Z.rem value base) < base
                /\ (0 <= value -> 0 <= Z.rem value base
                                  /\ 0 <= Z.quot value base)
                /\ (value <= 0 -> Z.rem value base <= 0
                                  /\ Z.quot value base <= 0))
    by (Z.to_euclidean_division_equations; nia).
  destruct Hqr as (Hqr & Hab & Hp & Hn).
  destruct (Z.ltb_spec (Z.rem value base) 0) as [Hneg | Hpos].
  - assert (Hv0 : value < 0) by lia.
    destruct (Hn ltac:(lia)) as [_ Hq0].
    assert (Hin : in_range ty (- Z.quot value base))
      by (unfold in_range; split; [lia | nia]).
    unfold negate. apply in_rangeb_spec in Hin as Hinb. rewrite Hinb.
    exists (- Z.rem value base), (- Z.quot value base).
    repeat split; try lia; try apply Hin; try assumption; nia.
  - exists (Z.rem value base), (Z.quot value base).
    destruct (Z.lt_ge_cases value 0) as [Hv0 | Hv0].
    + destruct (Hn ltac:(lia)) as [Hr0 Hq0].
      repeat split; try lia; try nia; try assumption.
    + destruct (Hp Hv0) as [Hr0 Hq0].
      repeat split; try lia; try nia; try assumption.
Qed.

Lemma deref_app (a b : string) : a <> "" -> deref (a ++ b) = deref a.
Proof. destruct a; [congruence | reflexivity]. Qed.

(** The loop on a value of the type, with room for its digits: it stores
    the digits of the magnitude, most significant first, in front of what
    is already in the buffer. *)
Lemma printIntegral_loop_spec (base letter : Z) (ty : IntType) :
  2 <= base <= 16 -> letter = code "A" \/ letter = code "a" ->
  2 <= bits ty ->
  forall (room : nat) (value : Z) (out : string),
    in_range ty value -> Z.abs value < 2 ^ Z.of_nat room ->
    exists ds,
      printIntegral_loop room base letter ty value out = Some (ds ++ out)
      /\ digits_value base ds = Z.abs value
      /\ (ds = "" <-> value = 0)
      /\ digits_of_base base letter ds = true
      /\ (value <> 0 -> digit_val (deref ds) <> 0)
      /\ len ds <= Z.of_nat room
      /\ (forall k, 0 <= k -> Z.abs value < base ^ k -> len ds <= k).
Proof.
  intros Hb Hl Hbits.
  induction room as [|room IH]; intros value out Hr Habs.
  - assert (value = 0) as -> by (cbn in Habs; lia).
    exists "". cbn. repeat split; try reflexivity; try lia; congruence.
  - destruct (Z.eqb_spec value 0) as [->|Hv].
    + exists "". cbn. repeat split; try reflexivity; try lia; congruence.
    + cbn [printIntegral_loop].
      apply Z.eqb_neq in Hv as Hvb. rewrite Hvb.
      destruct (loop_step base ty value Hb Hbits Hr Hv)
        as (d & value' & Hstep & Hd & Hr' & Heq & _).
      rewrite Hstep.
      destruct (digit_char base letter d Hb Hl Hd) as [Hdv Hdb].
      cbv zeta in Hdv, Hdb.
      set (c := char_of (if d >=? 10 then d + (letter - 10)
                         else d + code "0")) in *.
      assert (Habs' : Z.abs value' < 2 ^ Z.of_nat room).
      { rewrite Nat2Z.inj_succ, Z.pow_succ_r in Habs by lia. nia. }
      destruct (IH value' (String c out) Hr' Habs')
        as (ds & Hrun & Hval & Hnil & Hdig & Hlead & Hlen & Hpow).
      exists (ds ++ String c ""). rewrite append_assoc. cbn [append].
      split; [exact Hrun|].
      split.
      { unfold digits_value in *. rewrite digits_value_from_snoc, Hval, Hdv.
        lia. }
      split.
      { split; [|congruence]. destruct ds; discriminate. }
      split.
      { rewrite digits_of_base_app, Hdig, Hdb. reflexivity. }
      split.
      { intros _. destruct (Z.eqb_spec value' 0) as [E|E].
        - apply Hnil in E as E'. subst ds. cbn [append deref]. rewrite Hdv.
          rewrite E in Heq. lia.
        - rewrite deref_app by (intros E'; apply Hnil in E'; contradiction).
          now apply Hlead. }
      assert (Hsnoc : len (ds ++ String c "") = len ds + 1)
        by (rewrite len_append; unfold len at 2; cbn [String.length]; lia).
      rewrite Hsnoc. split; [lia|].
      intros k Hk Hlt.
      assert (Hk1 : 1 <= k).
      { destruct (Z.eq_dec k 0) as [-> | ]; [|lia].
        change (base ^ 0) with 1 in Hlt. lia. }
      replace k with (Z.succ (k - 1)) in Hlt by lia.
      rewrite Z.pow_succ_r in Hlt by lia.
      assert (0 < base ^ (k - 1)) by (apply Z.pow_pos_nonneg; lia).
      specialize (Hpow (k - 1) ltac:(lia) ltac:(nia)). lia.
Qed.

Lemma baseLetter_cases (fmt : FormatterItem) :
  baseLetter fmt = code "A" \/ baseLetter fmt = code "a".
Proof. unfold baseLetter. destruct (formatChar fmt == "X"); auto. Qed.

Lemma in_range_abs (ty : IntType) (value : Z) :
  8 <= bits ty <= 64 -> in_range ty value -> Z.abs value < 2 ^ 64.
Proof.
  intros Hb Hr. unfold in_range, int_min, int_max in Hr.
  assert (2 ^ bits ty <= 2 ^ 64) by (apply Z.pow_le_mono_r; lia).
  assert (0 < 2 ^ (bits ty - 1)) by (apply Z.pow_pos_nonneg; lia).
  assert (2 ^ bits ty = 2 * 2 ^ (bits ty - 1)).
  { replace (bits ty) with (Z.succ (bits ty - 1)) at 1 by lia.
    apply Z.pow_succ_r. lia. }
  destruct (is_signed ty); lia.
Qed.

(** The digit buffer of a value of a supported type: the conversion never
    leaves the buffer and never overflows, and the digits read back as the
    magnitude of the value. *)
Lemma printIntegral_buf_spec (Tbase : Z) (fmt : FormatterItem)
    (ty : IntType) (value : Z) :
  2 <= Tbase <= 16 -> int_type_ok ty -> in_range ty value ->
  exists ds,
    printIntegral_buf Tbase fmt ty value = Some ds
    /\ digits_value Tbase ds = Z.abs value
    /\ (ds = "" <-> value = 0)
    /\ digits_of_base Tbase (baseLetter fmt) ds = true
    /\ (value <> 0 -> digit_val (deref ds) <> 0)
    /\ len ds <= 64
    /\ (forall k, 0 <= k -> Z.abs value < Tbase ^ k -> len ds <= k).
Proof.
  intros Hb Hty Hr. unfold int_type_ok in Hty.
  destruct (printIntegral_loop_spec Tbase (baseLetter fmt) ty Hb
              (baseLetter_cases fmt) ltac:(lia) 64 value "" Hr
              (in_range_abs ty value Hty Hr))
    as (ds & Hrun & H).
  exists ds. rewrite append_nil_r in Hrun. split; [exact Hrun | exact H].
Qed.

(* ===================================================================== *)
(** ** The composition of a numeric render *)

Lemma none_or_small_range (x : Z) :
  none_or_small x -> x <> WIDTH_ARG /\ (x <> WIDTH_EMPTY -> 0 <= x < 2 ^ 30).
Proof.
  rewrite WIDTH_ARG_val, WIDTH_EMPTY_val. unfold none_or_small.
  rewrite WIDTH_EMPTY_val. intros [-> | H]; split; lia.
Qed.

Lemma nchars_max (n : Z) (c : ascii) : nchars (Z.max 0 n) c = nchars n c.
Proof.
  destruct (Z.le_gt_cases n 0).
  - rewrite !nchars_nonpos by lia. reflexivity.
  - now rewrite Z.max_r by lia.
Qed.

Lemma precision_floor_ok (fmt : FormatterItem) (sink : streambuf) :
  none_or_small (precision fmt) ->
  precision_floor fmt sink = (sink, Ok (min_digits fmt)).
Proof.
  intros H. apply none_or_small_range in H as [Harg _].
  unfold precision_floor, min_digits.
  apply Z.eqb_neq in Harg. rewrite Harg.
  now destruct (precision fmt =? WIDTH_EMPTY).
Qed.

Lemma min_digits_range (fmt : FormatterItem) :
  none_or_small (precision fmt) -> 0 <= min_digits fmt < 2 ^ 30.
Proof.
  intros H. apply none_or_small_range in H as [_ H]. unfold min_digits.
  destruct (Z.eqb_spec (precision fmt) WIDTH_EMPTY); [lia | auto].
Qed.

Lemma sized_ok (fmt : FormatterItem) (ty : IntType) (value size : Z)
    (sink : streambuf) :
  base_flag_fits fmt ->
  sized fmt ty value size sink
  = (sink, Ok (size + sign_or_base_size fmt ty value)).
Proof.
  intros Hfit. unfold sized, sign_or_base_size.
  destruct ((isNegative ty value && (formatChar fmt == "d"))
            || has (flags fmt) FLAG_SHOW_SIGN
            || has (flags fmt) FLAG_ADD_SPACE); [reflexivity|].
  destruct (has (flags fmt) FLAG_EXPLICIT_BASE) eqn:E.
  - destruct (Hfit E) as [-> | [-> | ->]]; cbn;
      destruct (value =? 0); cbn; unfold ret; repeat f_equal; lia.
  - unfold ret. repeat f_equal. lia.
Qed.

Lemma sign_or_base_size_range (fmt : FormatterItem) (ty : IntType)
    (value : Z) :
  0 <= sign_or_base_size fmt ty value <= 2.
Proof.
  unfold sign_or_base_size.
  repeat match goal with
         | |- context [if ?b then _ else _] => destruct b
         end; lia.
Qed.

Lemma fill_size_ok (fmt : FormatterItem) (ty : IntType) (value : Z)
    (numsize : Z) (sink : streambuf) :
  none_or_small (width fmt) -> none_or_small (precision fmt) ->
  0 <= numsize <= 64 ->
  fill_size fmt (numsize + sign_or_base_size fmt ty value)
    (Z.max 0 (min_digits fmt - numsize)) sink
  = (sink, Ok (width_fill fmt ty value numsize)).
Proof.
  intros Hw Hp Hn.
  apply none_or_small_range in Hw as [Harg Hw].
  pose proof (min_digits_range fmt Hp) as Hm.
  pose proof (sign_or_base_size_range fmt ty value) as Hs.
  unfold fill_size, width_fill.
  apply Z.eqb_neq in Harg. rewrite Harg.
  set (size := numsize + sign_or_base_size fmt ty value).
  set (zf := Z.max 0 (min_digits fmt - numsize)).
  assert (Hsize : to_int (u32 size) = size).
  { rewrite u32_small by (subst size; lia).
    apply to_int_small. subst size; lia. }
  assert (Hzf : to_int zf = zf) by (apply to_int_small; subst zf; lia).
  rewrite Hsize, Hzf.
  destruct (Z.eqb_spec (width fmt) WIDTH_EMPTY) as [E | E].
  - change (to_int 0) with 0. unfold int_sub, INT_MIN, INT_MAX. cbv zeta.
    assert (R1 : (- 2 ^ 31 <=? 0 - size) && (0 - size <=? 2 ^ 31 - 1) = true)
      by (subst size; apply andb_true_iff; rewrite !Z.leb_le; lia).
    rewrite R1.
    assert (R2 : (- 2 ^ 31 <=? 0 - size - zf)
                 && (0 - size - zf <=? 2 ^ 31 - 1) = true)
      by (subst size zf; apply andb_true_iff; rewrite !Z.leb_le; lia).
    rewrite R2. rewrite Z.geb_leb.
    destruct (Z.leb_spec 0 (0 - size - zf)); [|reflexivity].
    replace (0 - size - zf) with 0 by lia. reflexivity.
  - specialize (Hw E). rewrite (to_int_small (width fmt)) by lia.
    unfold int_sub, INT_MIN, INT_MAX. cbv zeta.
    assert (R1 : (- 2 ^ 31 <=? width fmt - size)
                 && (width fmt - size <=? 2 ^ 31 - 1) = true)
      by (subst size; apply andb_true_iff; rewrite !Z.leb_le; lia).
    rewrite R1.
    assert (R2 : (- 2 ^ 31 <=? width fmt - size - zf)
                 && (width fmt - size - zf <=? 2 ^ 31 - 1) = true)
      by (subst size zf; apply andb_true_iff; rewrite !Z.leb_le; lia).
    rewrite R2. rewrite Z.geb_leb.
    destruct (Z.leb_spec 0 (width fmt - size - zf)).
    + rewrite u32_small by lia. unfold ret. subst size zf.
      do 2 f_equal. lia.
    + unfold ret. subst size zf. do 2 f_equal. lia.
Qed.

Lemma width_fill_range (fmt : FormatterItem) (ty : IntType)
    (value numsize : Z) :
  none_or_small (width fmt) -> none_or_small (precision fmt) ->
  0 <= numsize ->
  0 <= width_fill fmt ty value numsize
  /\ (width_fill fmt ty value numsize
      + Z.max 0 (min_digits fmt - numsize) < 2 ^ 32).
Proof.
  intros Hw Hp Hn. apply none_or_small_range in Hw as [_ Hw].
  pose proof (min_digits_range fmt Hp) as Hm.
  pose proof (sign_or_base_size_range fmt ty value) as Hs.
  unfold width_fill.
  destruct (Z.eqb_spec (width fmt) WIDTH_EMPTY) as [E | E]; [lia|].
  specialize (Hw E). lia.
Qed.

Lemma show_sign_or_base_ok (fmt : FormatterItem) (ty : IntType) (value : Z)
    (sink : streambuf) :
  base_flag_fits fmt ->
  show_sign_or_base fmt ty value sink
  = (sink ++ written (show_sign_or_base fmt ty value), Ok tt).
Proof.
  intros Hfit. unfold written, show_sign_or_base.
  destruct (has (flags fmt) FLAG_EXPLICIT_BASE) eqn:E.
  - destruct (Hfit E) as [-> | [-> | ->]]; cbn;
      destruct (value =? 0); cbn; unfold ret, bind, sputc; cbn;
      rewrite ?append_assoc, ?append_nil_r; reflexivity.
  - destruct (isNegative ty value), (has (flags fmt) FLAG_SHOW_SIGN),
      (has (flags fmt) FLAG_ADD_SPACE); unfold ret, sputc; cbn;
      rewrite ?append_nil_r; reflexivity.
Qed.

(** A numeric render is, in this order: the fill before the sign, the sign
    or base prefix, the zeros of the zero-fill, the digit run (the digits
    of the buffer behind the zeros that bring them to the minimum count),
    and the fill of a left-justified field. *)
Lemma printIntegral_shape (Tbase : Z) (fmt : FormatterItem) (ty : IntType)
    (value : Z) (ds : string) (sink : streambuf) :
  printIntegral_buf Tbase fmt ty value = Some ds -> len ds <= 64 ->
  none_or_small (width fmt) -> none_or_small (precision fmt) ->
  base_flag_fits fmt ->
  let fill := width_fill fmt ty value (len ds) in
  let fl := flags fmt in
  printIntegral Tbase fmt ty value sink
  = (sink
     ++ nchars (if negb (has fl FLAG_FILL_ZERO)
                   && negb (has fl FLAG_LEFT_JUSTIFY) then fill else 0) " "
     ++ written (show_sign_or_base fmt ty value)
     ++ nchars (if has fl FLAG_FILL_ZERO then fill else 0) "0"
     ++ (nchars (min_digits fmt - len ds) "0" ++ ds)
     ++ nchars (if has fl FLAG_LEFT_JUSTIFY then fill else 0) " ",
     Ok tt).
Proof.
  intros Hbuf Hlen Hw Hp Hfit. cbv zeta.
  pose proof (len_nonneg ds) as Hlen0.
  pose proof (min_digits_range fmt Hp) as Hm.
  destruct (width_fill_range fmt ty value (len ds) Hw Hp Hlen0) as [Hf0 Hf1].
  unfold printIntegral. rewrite Hbuf. unfold bind.
  rewrite precision_floor_ok by assumption.
  assert (Hzf : (if min_digits fmt >? len ds
                 then u32 (min_digits fmt - len ds) else 0)
                = Z.max 0 (min_digits fmt - len ds)).
  { rewrite Z.gtb_ltb. destruct (Z.ltb_spec (len ds) (min_digits fmt)).
    - rewrite u32_small by lia. lia.
    - lia. }
  rewrite Hzf, sized_ok by assumption.
  rewrite (fill_size_ok fmt ty value (len ds)) by (assumption || lia).
  set (fill := width_fill fmt ty value (len ds)) in *.
  set (zf := Z.max 0 (min_digits fmt - len ds)) in *.
  assert (Hz : nchars (u32 (zf + fill)) "0"
               = nchars fill "0" ++ nchars zf "0").
  { rewrite u32_small by lia. rewrite Z.add_comm.
    apply nchars_add; subst zf; lia. }
  assert (Hrun : nchars (min_digits fmt - len ds) "0" = nchars zf "0")
    by (subst zf; now rewrite nchars_max).
  rewrite Hrun.
  destruct (has (flags fmt) FLAG_FILL_ZERO),
    (has (flags fmt) FLAG_LEFT_JUSTIFY); cbn [negb andb];
    unfold sputc_times, sputn, ret;
    rewrite show_sign_or_base_ok by assumption;
    rewrite ?Hz; change (nchars 0 " ") with ""; change (nchars 0 "0") with "";
    cbn [append]; rewrite ?append_assoc, ?append_nil_r; reflexivity.
Qed.

(* ===================================================================== *)
(** ** The digit run and the precision *)

Lemma supported_base_range (Tbase : Z) :
  supported_base Tbase -> 2 <= Tbase <= 16.
Proof. unfold supported_base. lia. Qed.

(** C4.  In an integral render the digit run is the digit buffer behind
    the zeros that bring it to the minimum digit count.  Without a
    precision the minimum is 1, so the value 0 (whose buffer is empty)
    has the digit run "0"; with an explicit precision the minimum is the
    precision, the run being padded on the left with '0' up to it; and
    with precision 0 the value 0 has an empty digit run. *)
Theorem integral_digit_run (Tbase : Z) (fmt : FormatterItem) (ty : IntType)
    (value : Z) (sink : streambuf) :
  supported_base Tbase -> int_type_ok ty -> in_range ty value ->
  none_or_small (width fmt) -> none_or_small (precision fmt) ->
  base_flag_fits fmt ->
  (exists ds,
    printIntegral_buf Tbase fmt ty value = Some ds /\
    (ds = "" <-> value = 0) /\
    let run := nchars (min_digits fmt - len ds) "0" ++ ds in
    let fill := width_fill fmt ty value (len ds) in
    let fl := flags fmt in
    printIntegral Tbase fmt ty value sink
    = (sink
       ++ nchars (if negb (has fl FLAG_FILL_ZERO)
                     && negb (has fl FLAG_LEFT_JUSTIFY) then fill else 0) " "
       ++ written (show_sign_or_base fmt ty value)
       ++ nchars (if has fl FLAG_FILL_ZERO then fill else 0) "0"
       ++ run
       ++ nchars (if has fl FLAG_LEFT_JUSTIFY then fill else 0) " ",
       Ok tt) /\
    len run = Z.max (min_digits fmt) (len ds) /\
    (precision fmt = WIDTH_EMPTY ->
       min_digits fmt = 1 /\ (value = 0 -> run = "0")) /\
    (precision fmt <> WIDTH_EMPTY -> min_digits fmt = precision fmt) /\
    (precision fmt = 0 -> value = 0 -> run = "")) /\
  writef 8 "%d" [AInt int32_t 0] = ("0", Ok tt) /\
  writef 8 "%.0d" [AInt int32_t 0] = ("", Ok tt) /\
  writef 8 "%.5d" [AInt int32_t 42] = ("00042", Ok tt).
Proof.
  intros Hb Hty Hr Hw Hp Hfit.
  split; [|repeat split].
  destruct (printIntegral_buf_spec Tbase fmt ty value
              (supported_base_range Tbase Hb) Hty Hr)
    as (ds & Hbuf & _ & Hnil & _ & _ & Hlen & _).
  exists ds. split; [exact Hbuf|]. split; [exact Hnil|]. cbv zeta.
  split; [now apply printIntegral_shape|].
  split.
  { rewrite len_append, len_nchars. pose proof (len_nonneg ds). lia. }
  unfold min_digits. split; [|split].
  - intros E. rewrite E, Z.eqb_refl. split; [reflexivity|].
    intros Hv. apply Hnil in Hv. subst ds. reflexivity.
  - intros E. apply Z.eqb_neq in E. now rewrite E.
  - intros E Hv. apply Hnil in Hv. subst ds. rewrite E. reflexivity.
Qed.

Lemma integral_digit_run_witness :
  supported_base 10 /\ int_type_ok int32_t /\ in_range int32_t 0 /\
  (exists ds,
     printIntegral_buf 10 (mkItem 0 0 WIDTH_EMPTY 0 "d") int32_t 0 = Some ds
     /\ (precision (mkItem 0 0 WIDTH_EMPTY 0 "d") = 0 -> 0 = 0 ->
         nchars (min_digits (mkItem 0 0 WIDTH_EMPTY 0 "d") - len ds) "0" ++ ds
         = "")).
Proof.
  assert (Hb : supported_base 10) by (right; right; left; reflexivity).
  assert (Hty : int_type_ok int32_t) by (unfold int_type_ok; cbn; lia).
  assert (Hr : in_range int32_t 0) by (unfold in_range; cbn; lia).
  assert (Hw : none_or_small (width (mkItem 0 0 WIDTH_EMPTY 0 "d")))
    by (left; reflexivity).
  assert (Hp : none_or_small (precision (mkItem 0 0 WIDTH_EMPTY 0 "d")))
    by (right; cbn; lia).
  assert (Hfit : base_flag_fits (mkItem 0 0 WIDTH_EMPTY 0 "d"))
    by (intros H; discriminate H).
  split; [exact Hb|]. split; [exact Hty|]. split; [exact Hr|].
  destruct (integral_digit_run 10 (mkItem 0 0 WIDTH_EMPTY 0 "d") int32_t 0 ""
              Hb Hty Hr Hw Hp Hfit)
    as ((ds & Hbuf & _ & _ & _ & _ & _ & Hempty) & _).
  exists ds. split; [exact Hbuf | exact Hempty].
Defined.

(* ===================================================================== *)
(** ** Sign and base prefix *)

Lemma to_unsigned_spec (ty : IntType) (value : Z) :
  int_type_ok ty -> in_range ty value ->
  int_type_ok (make_unsigned ty)
  /\ in_range (make_unsigned ty) (to_unsigned ty value)
  /\ (to_unsigned ty value = 0 <-> value = 0)
  /\ isNegative (make_unsigned ty) (to_unsigned ty value) = false.
Proof.
  unfold int_type_ok, in_range, int_min, int_max, to_unsigned, make_unsigned.
  cbn [bits is_signed]. intros Hb Hr.
  assert (Hpos : 0 < 2 ^ (bits ty - 1)) by (apply Z.pow_pos_nonneg; lia).
  assert (Hdbl : 2 ^ bits ty = 2 * 2 ^ (bits ty - 1)).
  { replace (bits ty) with (Z.succ (bits ty - 1)) at 1 by lia.
    apply Z.pow_succ_r. lia. }
  pose proof (Z.mod_pos_bound value (2 ^ bits ty) ltac:(lia)) as Hm.
  split; [exact Hb|]. split; [lia|]. split; [|reflexivity].
  split.
  - intros E. destruct (Z.lt_ge_cases value 0) as [Hneg | Hge].
    + assert (E' : (value + 2 ^ bits ty) mod 2 ^ bits ty = 0).
      { rewrite <- E. rewrite <- (Z.mul_1_l (2 ^ bits ty)) at 1.
        apply Z.mod_add. lia. }
      rewrite Z.mod_small in E' by (destruct (is_signed ty); lia).
      destruct (is_signed ty); lia.
    + rewrite Z.mod_small in E by (destruct (is_signed ty); lia). exact E.
  - intros ->. apply Z.mod_0_l. lia.
Qed.

(** The glyphs written for the base prefix. *)
Lemma written_base_prefix (fmt : FormatterItem) (ty : IntType) (value : Z) :
  has (flags fmt) FLAG_EXPLICIT_BASE = true ->
  formatChar fmt = "x"%char \/ formatChar fmt = "X"%char
  \/ formatChar fmt = "o"%char ->
  written (show_sign_or_base fmt ty value)
  = if formatChar fmt == "o" then "0"
    else if value =? 0 then ""
    else if formatChar fmt == "x" then "0x" else "0X".
Proof.
  intros Hflag Hfc. unfold written, show_sign_or_base. rewrite Hflag.
  destruct Hfc as [-> | [-> | ->]]; cbn; destruct (value =? 0); reflexivity.
Qed.

(** The glyph written for the sign when the explicit-base flag is clear. *)
Lemma written_sign (fmt : FormatterItem) (ty : IntType) (value : Z) :
  has (flags fmt) FLAG_EXPLICIT_BASE = false ->
  written (show_sign_or_base fmt ty value)
  = if isNegative ty value then "-"
    else if has (flags fmt) FLAG_SHOW_SIGN then "+"
    else if has (flags fmt) FLAG_ADD_SPACE then " "
    else "".
Proof.
  intros Hflag. unfold written, show_sign_or_base. rewrite Hflag.
  destruct (isNegative ty value), (has (flags fmt) FLAG_SHOW_SIGN),
    (has (flags fmt) FLAG_ADD_SPACE); reflexivity.
Qed.

(** C5.  With the explicit-base flag set, the conversions x and X write
    the prefix 0x and 0X exactly when the value is not zero, and the
    conversion o always writes one leading '0'; the prefix stands between
    the fill and the zeros and digits.  In particular "%#x" of 255 is
    "0xff", "%#o" of 8 is "010", and "%+d" of 42 is "+42". *)
Theorem explicit_base_prefix (sizeof_ptr : Z) (fmt : FormatterItem)
    (ty : IntType) (value : Z) (sink : streambuf) :
  int_type_ok ty -> in_range ty value ->
  none_or_small (width fmt) -> none_or_small (precision fmt) ->
  has (flags fmt) FLAG_EXPLICIT_BASE = true ->
  formatChar fmt = "x"%char \/ formatChar fmt = "X"%char
  \/ formatChar fmt = "o"%char ->
  let base := if formatChar fmt == "o" then 8 else 16 in
  let uty := make_unsigned ty in
  let u := to_unsigned ty value in
  let prefix :=
    if formatChar fmt == "o" then "0"
    else if value =? 0 then ""
    else if formatChar fmt == "x" then "0x" else "0X" in
  (exists ds,
     printIntegral_buf base fmt uty u = Some ds /\
     let fill := width_fill fmt uty u (len ds) in
     let fl := flags fmt in
     printArg_switch sizeof_ptr fmt (AInt ty value) sink
     = (sink
        ++ nchars (if negb (has fl FLAG_FILL_ZERO)
                      && negb (has fl FLAG_LEFT_JUSTIFY) then fill else 0) " "
        ++ prefix
        ++ nchars (if has fl FLAG_FILL_ZERO then fill else 0) "0"
        ++ (nchars (min_digits fmt - len ds) "0" ++ ds)
        ++ nchars (if has fl FLAG_LEFT_JUSTIFY then fill else 0) " ",
        Ok tt)) /\
  writef sizeof_ptr "%#x" [AInt int32_t 255] = ("0xff", Ok tt) /\
  writef sizeof_ptr "%#o" [AInt int32_t 8] = ("010", Ok tt) /\
  writef sizeof_ptr "%+d" [AInt int32_t 42] = ("+42", Ok tt).
Proof.
  intros Hty Hr Hw Hp Hflag Hfc. cbv zeta.
  split; [|repeat split].
  destruct (to_unsigned_spec ty value Hty Hr) as (Huty & Hur & Hu0 & _).
  assert (Hfit : base_flag_fits fmt) by (intros _; exact Hfc).
  assert (Hbase : 2 <= (if formatChar fmt == "o" then 8 else 16) <= 16)
    by (destruct (formatChar fmt == "o"); lia).
  destruct (printIntegral_buf_spec _ fmt _ _ Hbase Huty Hur)
    as (ds & Hbuf & _ & _ & _ & _ & Hlen & _).
  exists ds. split; [exact Hbuf|].
  assert (Hsw : printArg_switch sizeof_ptr fmt (AInt ty value) sink
                = printIntegral (if formatChar fmt == "o" then 8 else 16) fmt
                    (make_unsigned ty) (to_unsigned ty value) sink).
  { unfold printArg_switch. cbv zeta.
    destruct Hfc as [E | [E | E]]; rewrite E; reflexivity. }
  rewrite Hsw.
  rewrite (printIntegral_shape _ fmt _ _ ds sink Hbuf Hlen Hw Hp Hfit).
  rewrite (written_base_prefix fmt _ _ Hflag Hfc).
  replace (to_unsigned ty value =? 0) with (value =? 0); [reflexivity|].
  destruct (Z.eqb_spec value 0) as [E | E];
    destruct (Z.eqb_spec (to_unsigned ty value) 0) as [E' | E'];
    try reflexivity; [apply Hu0 in E | apply Hu0 in E']; contradiction.
Qed.

Lemma explicit_base_prefix_witness :
  in_range uint32_t 255 /\
  has 4 FLAG_EXPLICIT_BASE = true /\
  (exists ds,
     printIntegral_buf 16 (mkItem 0 4 6 WIDTH_EMPTY "X") uint32_t 255 = Some ds
     /\ printArg_switch 8 (mkItem 0 4 6 WIDTH_EMPTY "X") (AInt uint32_t 255) ""
        = (nchars (Z.max 0 (6 - (len ds + 2) - Z.max 0 (1 - len ds))) " "
           ++ "0X" ++ "" ++ (nchars (1 - len ds) "0" ++ ds) ++ "", Ok tt)).
Proof.
  assert (Hty : int_type_ok uint32_t) by (unfold int_type_ok; cbn; lia).
  assert (Hr : in_range uint32_t 255) by (unfold in_range; cbn; lia).
  assert (Hw : none_or_small (width (mkItem 0 4 6 WIDTH_EMPTY "X")))
    by (right; cbn; lia).
  assert (Hp : none_or_small (precision (mkItem 0 4 6 WIDTH_EMPTY "X")))
    by (left; reflexivity).
  split; [exact Hr|]. split; [reflexivity|].
  exact (proj1 (explicit_base_prefix 8 (mkItem 0 4 6 WIDTH_EMPTY "X")
                  uint32_t 255 "" Hty Hr Hw Hp eq_refl
                  (or_intror (or_introl eq_refl)))).
Defined.

(* ===================================================================== *)
(** ** Signed values *)

Lemma len_pos (s : string) : s <> "" -> 1 <= len s.
Proof. destruct s; [congruence|]. unfold len. cbn [String.length]. lia. Qed.

(** C6.  Every value of a signed type, the minimum one included, is
    rendered by %d without overflow in the conversion (each turn divides
    first and negates the remainder and the quotient): the output is '-'
    for a negative value followed by the decimal digits of the magnitude,
    without leading zeros ("0" for zero).  So the minimum 32-bit and 64-bit
    integers are rendered as "-2147483648" and "-9223372036854775808". *)
Theorem signed_decimal_render (sizeof_ptr : Z) (ty : IntType) (value : Z) :
  is_signed ty = true -> int_type_ok ty -> in_range ty value ->
  (exists ds,
     printIntegral_buf 10 (mkItem 0 0 WIDTH_EMPTY WIDTH_EMPTY "d") ty value
       = Some ds /\
     digits_value 10 ds = Z.abs value /\
     digits_of_base 10 (code "a") ds = true /\
     (value <> 0 -> digit_val (deref ds) <> 0) /\
     writef sizeof_ptr "%d" [AInt ty value]
     = ((if value <? 0 then "-" else "") ++ (if value =? 0 then "0" else ds),
        Ok tt)) /\
  writef sizeof_ptr "%d" [AInt int32_t (- 2 ^ 31)] = ("-2147483648", Ok tt) /\
  writef sizeof_ptr "%d" [AInt int64_t (- 2 ^ 63)]
    = ("-9223372036854775808", Ok tt).
Proof.
  intros Hs Hty Hr. split; [|split; reflexivity].
  set (fmt := mkItem 0 0 WIDTH_EMPTY WIDTH_EMPTY "d").
  destruct (printIntegral_buf_spec 10 fmt ty value ltac:(lia) Hty Hr)
    as (ds & Hbuf & Hval & Hnil & Hdig & Hlead & Hlen & _).
  exists ds. repeat (split; [assumption|]).
  assert (Hw : none_or_small (width fmt)) by (left; reflexivity).
  assert (Hp : none_or_small (precision fmt)) by (left; reflexivity).
  assert (Hfit : base_flag_fits fmt) by (intros H; discriminate H).
  assert (Hrun : writef sizeof_ptr "%d" [AInt ty value]
                 = (printIntegral 10 fmt ty value ;; sputn "") "")
    by reflexivity.
  rewrite Hrun. unfold bind.
  rewrite (printIntegral_shape 10 fmt ty value ds "" Hbuf Hlen Hw Hp Hfit).
  rewrite (written_sign fmt ty value eq_refl).
  unfold width_fill, isNegative, min_digits, sputn. rewrite Hs.
  cbn [fmt width precision flags]. rewrite Z.eqb_refl.
  change (has 0 FLAG_FILL_ZERO) with false.
  change (has 0 FLAG_LEFT_JUSTIFY) with false.
  change (has 0 FLAG_SHOW_SIGN) with false.
  change (has 0 FLAG_ADD_SPACE) with false.
  cbn [negb andb]. change (nchars 0 " ") with "". change (nchars 0 "0") with "".
  cbn [append]. rewrite !append_nil_r. do 2 f_equal.
  destruct (Z.eqb_spec value 0) as [E | E].
  - apply Hnil in E. subst ds. reflexivity.
  - rewrite nchars_nonpos; [reflexivity|].
    assert (ds <> "") by (intros E'; apply Hnil in E'; contradiction).
    pose proof (len_pos ds H). lia.
Qed.

Lemma signed_decimal_render_witness :
  is_signed int64_t = true /\ in_range int64_t (- 2 ^ 63) /\
  (exists ds,
     digits_value 10 ds = Z.abs (- 2 ^ 63) /\
     writef 8 "%d" [AInt int64_t (- 2 ^ 63)] = ("-" ++ ds, Ok tt)).
Proof.
  assert (Hty : int_type_ok int64_t) by (unfold int_type_ok; cbn; lia).
  assert (Hr : in_range int64_t (- 2 ^ 63)) by (unfold in_range; cbn; lia).
  split; [reflexivity|]. split; [exact Hr|].
  destruct (proj1 (signed_decimal_render 8 int64_t (- 2 ^ 63) eq_refl Hty Hr))
    as (ds & _ & Hval & _ & _ & Hout).
  exists ds. split; [exact Hval | exact Hout].
Defined.

(* ===================================================================== *)
(** ** Pointers *)

Lemma digits_value_zeros (base : Z) (n : nat) (s : string) :
  digits_value_from base 0 (nchars_nat n "0" ++ s)
  = digits_value_from base 0 s.
Proof. induction n as [|n IH]; cbn; [reflexivity | exact IH]. Qed.

Lemma digits_of_base_zeros (base letter : Z) (n : nat) :
  2 <= base -> digits_of_base base letter (nchars_nat n "0") = true.
Proof.
  intros Hb. induction n as [|n IH]; cbn [nchars_nat digits_of_base];
    [reflexivity|].
  rewrite IH, andb_true_r. change (code "0") with 48.
  apply orb_true_iff. left. apply andb_true_iff.
  rewrite Z.leb_le, Z.ltb_lt. lia.
Qed.

(** C7, as stated, fails: the null pointer is rendered without the 0x
    prefix. *)
Lemma pointer_prefix_counterexample :
  writef 8 "%p" [APtr 0] = ("0000000000000000", Ok tt) /\
  writef 8 "%p" [APtr 0] <> ("0x0000000000000000", Ok tt).
Proof. split; [reflexivity | discriminate]. Qed.

(** C7, amended.  For every pointer argument %p renders the address as an
    unsigned integer of pointer width, in hexadecimal with lowercase
    digits, zero-padded to exactly 2 * pointer-size digits; the prefix 0x
    precedes the digits when the address is not null, and a null pointer
    is rendered as the zeros alone.  Only the width of the directive is
    kept (its flags are replaced by explicit-base), so the field is
    right-justified with spaces. *)
Theorem pointer_render (sizeof_ptr : Z) (fmt : FormatterItem) (addr : Z)
    (sink : streambuf) :
  1 <= sizeof_ptr <= 8 -> 0 <= addr < 2 ^ (8 * sizeof_ptr) ->
  none_or_small (width fmt) ->
  (exists hex,
     let pad :=
       if width fmt =? WIDTH_EMPTY then 0
       else width fmt - 2 * sizeof_ptr - (if addr =? 0 then 0 else 2) in
     printPointer sizeof_ptr fmt (APtr addr) sink
     = (sink ++ nchars pad " " ++ (if addr =? 0 then "" else "0x") ++ hex,
        Ok tt) /\
     len hex = 2 * sizeof_ptr /\
     digits_value 16 hex = addr /\
     digits_of_base 16 (code "a") hex = true) /\
  writef 8 "%p" [APtr 140737488355327] = ("0x00007fffffffffff", Ok tt) /\
  writef 8 "%p" [APtr 0] = ("0000000000000000", Ok tt).
Proof.
  intros Hsz Haddr Hw. split; [|split; reflexivity].
  set (fmt2 := mkItem (position fmt) FLAG_EXPLICIT_BASE (width fmt)
                 (u32 (sizeof_ptr * 2)) "x").
  assert (Hprec : precision fmt2 = 2 * sizeof_ptr).
  { cbn [fmt2 precision]. rewrite u32_small; lia. }
  assert (Hty : int_type_ok (uintptr_t sizeof_ptr))
    by (unfold int_type_ok, uintptr_t; cbn [bits]; lia).
  assert (Hr : in_range (uintptr_t sizeof_ptr) addr)
    by (unfold in_range, int_min, int_max, uintptr_t; cbn [bits is_signed];
        lia).
  destruct (printIntegral_buf_spec 16 fmt2 _ addr ltac:(lia) Hty Hr)
    as (ds & Hbuf & Hval & Hnil & Hdig & _ & Hlen & Hpow).
  assert (Hk : len ds <= 2 * sizeof_ptr).
  { apply Hpow; [lia|]. rewrite Z.abs_eq by lia.
    change 16 with (2 ^ 4). rewrite <- Z.pow_mul_r by lia.
    replace (4 * (2 * sizeof_ptr)) with (8 * sizeof_ptr) by lia. lia. }
  pose proof (len_nonneg ds) as Hlen0.
  exists (nchars (2 * sizeof_ptr - len ds) "0" ++ ds). cbv zeta.
  assert (Hw2 : none_or_small (width fmt2)) by exact Hw.
  assert (Hp2 : none_or_small (precision fmt2))
    by (right; rewrite Hprec; lia).
  assert (Hfit : base_flag_fits fmt2) by (intros _; left; reflexivity).
  split; [|split; [|split]].
  - change (printPointer sizeof_ptr fmt (APtr addr) sink)
      with (printIntegral 16 fmt2 (uintptr_t sizeof_ptr) addr sink).
    rewrite (printIntegral_shape 16 fmt2 _ addr ds sink Hbuf Hlen Hw2 Hp2 Hfit).
    rewrite (written_base_prefix fmt2 _ addr eq_refl (or_introl eq_refl)).
    assert (Hmin : min_digits fmt2 = 2 * sizeof_ptr).
    { unfold min_digits. rewrite Hprec.
      destruct (Z.eqb_spec (2 * sizeof_ptr) WIDTH_EMPTY) as [E|E];
        [rewrite WIDTH_EMPTY_val in E; lia | reflexivity]. }
    assert (Hfill : nchars (width_fill fmt2 (uintptr_t sizeof_ptr) addr
                              (len ds)) " "
                    = nchars (if width fmt =? WIDTH_EMPTY then 0
                              else width fmt - 2 * sizeof_ptr
                                   - (if addr =? 0 then 0 else 2)) " ").
    { unfold width_fill, sign_or_base_size. rewrite Hmin.
      cbn [fmt2 width flags formatChar].
      change (isNegative (uintptr_t sizeof_ptr) addr) with false.
      change (has FLAG_EXPLICIT_BASE FLAG_SHOW_SIGN) with false.
      change (has FLAG_EXPLICIT_BASE FLAG_ADD_SPACE) with false.
      change (has FLAG_EXPLICIT_BASE FLAG_EXPLICIT_BASE) with true.
      cbn [andb orb Ascii.eqb Bool.eqb].
      destruct (width fmt =? WIDTH_EMPTY); [reflexivity|].
      rewrite nchars_max. f_equal. destruct (addr =? 0); lia. }
    rewrite Hmin. cbn [fmt2 flags formatChar].
    change (has FLAG_EXPLICIT_BASE FLAG_FILL_ZERO) with false.
    change (has FLAG_EXPLICIT_BASE FLAG_LEFT_JUSTIFY) with false.
    cbn [negb andb Ascii.eqb Bool.eqb]. rewrite Hfill.
    change (nchars 0 " ") with "". change (nchars 0 "0") with "".
    cbn [append]. now rewrite !append_nil_r.
  - rewrite len_append, len_nchars. lia.
  - unfold digits_value, nchars. rewrite digits_value_zeros.
    unfold digits_value in Hval. rewrite Hval. lia.
  - unfold nchars. rewrite digits_of_base_app, digits_of_base_zeros by lia.
    exact Hdig.
Qed.

Lemma pointer_render_witness :
  (1 <= 8 <= 8) /\ (0 <= 4096 < 2 ^ (8 * 8)) /\
  (exists hex,
     printPointer 8 (mkItem 0 0 20 WIDTH_EMPTY "p") (APtr 4096) "at "
     = ("at " ++ nchars (20 - 2 * 8 - 2) " " ++ "0x" ++ hex, Ok tt)
     /\ len hex = 2 * 8 /\ digits_value 16 hex = 4096).
Proof.
  assert (Hsz : 1 <= 8 <= 8) by lia.
  assert (Haddr : 0 <= 4096 < 2 ^ (8 * 8)) by lia.
  assert (Hw : none_or_small (width (mkItem 0 0 20 WIDTH_EMPTY "p")))
    by (right; cbn; lia).
  split; [exact Hsz|]. split; [exact Haddr|].
  destruct (proj1 (pointer_render 8 (mkItem 0 0 20 WIDTH_EMPTY "p") 4096 "at "
                     Hsz Haddr Hw))
    as (hex & Hout & Hlen & Hval & _).
  exists hex. split; [exact Hout | split; [exact Hlen | exact Hval]].
Defined.

(* ===================================================================== *)
(** ** Padding of the non-numeric renderers *)

(** What the two padding routines write, for every width and size. *)
Lemma printPreFill_spec (fmt : FormatterItem) (size : Z) (sink : streambuf) :
  printPreFill fmt size sink
  = (sink ++ (if (width fmt =? WIDTH_EMPTY)
                 || has (flags fmt) FLAG_LEFT_JUSTIFY then ""
              else nchars (u32 (width fmt - u32 size)) " "), Ok tt).
Proof.
  unfold printPreFill.
  destruct (width fmt =? WIDTH_EMPTY), (has (flags fmt) FLAG_LEFT_JUSTIFY);
    cbn [negb orb]; unfold ret, sputc_times, sputn;
    rewrite ?append_nil_r; reflexivity.
Qed.

Lemma printPostFill_spec (fmt : FormatterItem) (size : Z) (sink : streambuf) :
  printPostFill fmt size sink
  = (sink ++ (if negb (width fmt =? WIDTH_EMPTY)
                 && has (flags fmt) FLAG_LEFT_JUSTIFY
              then nchars (u32 (width fmt - u32 size)) " "
              else ""), Ok tt).
Proof.
  unfold printPostFill.
  destruct (width fmt =? WIDTH_EMPTY), (has (flags fmt) FLAG_LEFT_JUSTIFY);
    cbn [negb andb]; unfold ret, sputc_times, sputn;
    rewrite ?append_nil_r; reflexivity.
Qed.

(** A text argument behind "%s": fill before, the characters, fill after. *)
Lemma printByType_cstr (sizeof_ptr : Z) (fmt : FormatterItem) (a : Z)
    (s : string) (sink : streambuf) :
  printByType sizeof_ptr fmt (ACStr a s) sink
  = (sink
     ++ (if (width fmt =? WIDTH_EMPTY) || has (flags fmt) FLAG_LEFT_JUSTIFY
         then "" else nchars (u32 (width fmt - u32 (len (c_str s)))) " ")
     ++ c_str s
     ++ (if negb (width fmt =? WIDTH_EMPTY) && has (flags fmt) FLAG_LEFT_JUSTIFY
         then nchars (u32 (width fmt - u32 (len (c_str s)))) " " else ""),
     Ok tt).
Proof.
  unfold printByType, bind. rewrite printPreFill_spec. unfold sputn.
  rewrite printPostFill_spec. now rewrite !append_assoc.
Qed.

Lemma writef_width2_right (sizeof_ptr a : Z) (s : string) :
  writef sizeof_ptr "%2s" [ACStr a s]
  = (nchars (u32 (2 - u32 (len (c_str s)))) " " ++ c_str s, Ok tt).
Proof.
  assert (E : writef sizeof_ptr "%2s" [ACStr a s]
              = (printByType sizeof_ptr (mkItem 0 0 2 WIDTH_EMPTY "s")
                   (ACStr a s) ;; sputn "") "") by reflexivity.
  rewrite E. unfold bind. rewrite printByType_cstr. unfold sputn.
  cbn [width flags]. change (2 =? WIDTH_EMPTY) with false.
  change (has 0 FLAG_LEFT_JUSTIFY) with false.
  cbn [negb orb andb append]. rewrite !append_nil_r. reflexivity.
Qed.

Lemma writef_width2_left (sizeof_ptr a : Z) (s : string) :
  writef sizeof_ptr "%-2s" [ACStr a s]
  = (c_str s ++ nchars (u32 (2 - u32 (len (c_str s)))) " ", Ok tt).
Proof.
  assert (E : writef sizeof_ptr "%-2s" [ACStr a s]
              = (printByType sizeof_ptr (mkItem 0 1 2 WIDTH_EMPTY "s")
                   (ACStr a s) ;; sputn "") "") by reflexivity.
  rewrite E. unfold bind. rewrite printByType_cstr. unfold sputn.
  cbn [width flags]. change (2 =? WIDTH_EMPTY) with false.
  change (has 1 FLAG_LEFT_JUSTIFY) with true.
  cbn [negb orb andb append]. rewrite !append_nil_r. reflexivity.
Qed.

(** C3 fails on the code.  The fill of a text, boolean or character render
    is [width - size] computed on [unsigned int] and is not clamped: when
    the rendered value is wider than the width the subtraction wraps, and
    "%2s" of "hello" writes 4294967293 spaces before the text ("%-2s" as
    many after it) instead of none.  When the value fits, the fill is
    [width - size] spaces, before or after as the claim says. *)
Theorem text_padding_not_clamped (sizeof_ptr a : Z) :
  writef sizeof_ptr "%2s" [ACStr a "hello"]
    = (nchars 4294967293 " " ++ "hello", Ok tt) /\
  writef sizeof_ptr "%-2s" [ACStr a "hello"]
    = ("hello" ++ nchars 4294967293 " ", Ok tt) /\
  len (nchars 4294967293 " " ++ "hello") = 4294967298 /\
  writef sizeof_ptr "%7s|%-7s|" [ACStr a "hello"; ACStr a "hello"]
    = ("  hello|hello  |", Ok tt).
Proof.
  split; [|split; [|split]].
  - rewrite writef_width2_right.
    replace (c_str "hello") with "hello" by reflexivity.
    replace (u32 (2 - u32 (len "hello"))) with 4294967293 by reflexivity.
    reflexivity.
  - rewrite writef_width2_left.
    replace (c_str "hello") with "hello" by reflexivity.
    replace (u32 (2 - u32 (len "hello"))) with 4294967293 by reflexivity.
    reflexivity.
  - rewrite len_append, len_nchars. reflexivity.
  - reflexivity.
Qed.

(* ===================================================================== *)
(** ** %s on an integral argument *)

(** C10 fails on the code.  %s on an integral argument does call the
    base-10 integral renderer, but with [formatChar] 's': the room for the
    sign of a negative value is counted only when [formatChar] is 'd',
    while the sign is written for both.  So with a width the two outputs
    differ for a negative value: "%5s" of -42 is six characters wide.
    Without a width, or for a value that is not negative, they agree. *)
Theorem percent_s_integral_fill (sizeof_ptr : Z) :
  writef sizeof_ptr "%5s" [AInt int32_t (-42)] = ("   -42", Ok tt) /\
  writef sizeof_ptr "%5d" [AInt int32_t (-42)] = ("  -42", Ok tt) /\
  writef sizeof_ptr "%s" [AInt int32_t (-42)]
    = writef sizeof_ptr "%d" [AInt int32_t (-42)] /\
  writef sizeof_ptr "%+5s" [AInt int32_t 42]
    = writef sizeof_ptr "%+5d" [AInt int32_t 42].
Proof. repeat split. Qed.

(* ===================================================================== *)
(** ** The directive parser: what it consumes *)

Lemma findIntegerEnd_split (iter : string) :
  iter = digit_run iter ++ findIntegerEnd iter
  /\ is_digit (deref (findIntegerEnd iter)) = false.
Proof.
  induction iter as [|c r [IH1 IH2]]; [split; reflexivity|].
  cbn [digit_run findIntegerEnd]. destruct (is_digit c) eqn:E.
  - cbn [append]. split; [now rewrite <- IH1 | exact IH2].
  - split; [reflexivity | exact E].
Qed.

Lemma iter_eq_true_split (p rest : string) :
  iter_eq (p ++ rest) rest = true -> p = "".
Proof.
  unfold iter_eq. rewrite Nat.eqb_eq, length_append.
  destruct p; [reflexivity | cbn; lia].
Qed.

Lemma deref_next (iter : string) (c : ascii) :
  deref iter = c -> c <> zero -> iter = String c (next iter).
Proof. destruct iter; cbn; intros; subst; congruence. Qed.

Lemma handlePosition_split (iter : string) :
  exists p, iter = p ++ snd (handlePosition iter).
Proof.
  unfold handlePosition.
  destruct (findIntegerEnd_split iter) as [Hsplit _].
  destruct (iter_eq iter (findIntegerEnd iter)
            || negb (Ascii.eqb (deref (findIntegerEnd iter)) "$")) eqn:E.
  - now exists "".
  - apply orb_false_elim in E as [_ E]. apply negb_false_iff in E.
    apply Ascii.eqb_eq in E. apply deref_next in E; [|discriminate].
    exists (digit_run iter ++ "$"). cbn [snd].
    rewrite Hsplit at 1. rewrite E at 1. now rewrite append_assoc.
Qed.

Lemma handleFlags_from_split (iter : string) :
  forall fl, iter = flag_run iter ++ snd (handleFlags_from fl iter)
             /\ is_flag (deref (snd (handleFlags_from fl iter))) = false.
Proof.
  induction iter as [|c r IH]; intros fl; [split; reflexivity|].
  cbn [flag_run handleFlags_from]. unfold is_flag at 1.
  destruct (c == "-") eqn:E1; cbn [orb].
  { destruct (IH (u8 (Z.lor fl FLAG_LEFT_JUSTIFY))) as [H1 H2].
    cbn [append]. split; [now rewrite <- H1 | exact H2]. }
  destruct (c == "+") eqn:E2; cbn [orb].
  { destruct (IH (u8 (Z.lor fl FLAG_SHOW_SIGN))) as [H1 H2].
    cbn [append]. split; [now rewrite <- H1 | exact H2]. }
  destruct (c == "#") eqn:E3; cbn [orb].
  { destruct (IH (u8 (Z.lor fl FLAG_EXPLICIT_BASE))) as [H1 H2].
    cbn [append]. split; [now rewrite <- H1 | exact H2]. }
  destruct (c == "0") eqn:E4; cbn [orb].
  { destruct (IH (u8 (Z.lor fl FLAG_FILL_ZERO))) as [H1 H2].
    cbn [append]. split; [now rewrite <- H1 | exact H2]. }
  destruct (c == " ") eqn:E5; cbn [orb].
  { destruct (IH (u8 (Z.lor fl FLAG_ADD_SPACE))) as [H1 H2].
    cbn [append]. split; [now rewrite <- H1 | exact H2]. }
  cbn [snd deref append]. split; [reflexivity|].
  unfold is_flag. now rewrite E1, E2, E3, E4, E5.
Qed.

Lemma handleWidth_split (iter : string) :
  exists p, iter = p ++ snd (handleWidth iter).
Proof.
  unfold handleWidth. destruct (Ascii.eqb (deref iter) "*") eqn:E.
  - apply Ascii.eqb_eq in E. apply deref_next in E; [|discriminate].
    exists "*". cbn [snd]. now rewrite E at 1.
  - destruct (findIntegerEnd_split iter) as [Hsplit _].
    destruct (iter_eq iter (findIntegerEnd iter)).
    + now exists "".
    + exists (digit_run iter). exact Hsplit.
Qed.

Lemma handlePrecision_split (iter : string) :
  exists p, iter = p ++ snd (handlePrecision iter).
Proof.
  unfold handlePrecision. destruct (Ascii.eqb (deref iter) ".") eqn:E;
    cbn [negb]; [|now exists ""].
  apply Ascii.eqb_eq in E. apply deref_next in E; [|discriminate].
  destruct (Ascii.eqb (deref (next iter)) "*") eqn:E'.
  - apply Ascii.eqb_eq in E'. apply deref_next in E'; [|discriminate].
    exists ".*". cbn [snd]. rewrite E at 1. rewrite E' at 1. reflexivity.
  - destruct (findIntegerEnd_split (next iter)) as [Hsplit _].
    destruct (iter_eq (findIntegerEnd (next iter)) (next iter)).
    + exists ".". cbn [snd]. now rewrite E at 1.
    + exists ("." ++ digit_run (next iter)). cbn [snd append].
      rewrite E at 1. now rewrite <- Hsplit.
Qed.

Lemma is_formatChar_not_zero (c : ascii) : is_formatChar c = true -> c <> zero.
Proof. intros H ->. discriminate H. Qed.

(** A parsed directive is a prefix of the template that ends with its
    conversion character; the scanner goes on right behind it. *)
Theorem handleFormatter_consumes (iter : string) (fmt : FormatterItem)
    (rest : string) :
  handleFormatter iter = Ok (fmt, rest) ->
  is_formatChar (formatChar fmt) = true /\
  exists items, iter = items ++ String (formatChar fmt) rest.
Proof.
  unfold handleFormatter, handleFormatChar.
  destruct (handlePosition_split iter) as [p1 H1].
  destruct (handlePosition iter) as [pos i1]. cbn [snd] in H1.
  destruct (handleFlags_from_split i1 0) as [H2 _]. fold (handleFlags i1) in H2.
  destruct (handleFlags i1) as [fl i2]. cbn [snd] in H2.
  destruct (handleWidth_split i2) as [p3 H3].
  destruct (handleWidth i2) as [w i3]. cbn [snd] in H3.
  destruct (handlePrecision_split i3) as [p4 H4].
  destruct (handlePrecision i3) as [p i4]. cbn [snd] in H4.
  destruct (is_formatChar (deref i4)) eqn:E; [|discriminate].
  intros H. injection H as <- <-. rewrite fixFlags_formatChar.
  cbn [formatChar]. split; [exact E|].
  exists (p1 ++ flag_run i1 ++ p3 ++ p4).
  rewrite !append_assoc.
  rewrite <- (deref_next i4 (deref i4) eq_refl (is_formatChar_not_zero _ E)).
  now rewrite <- H4, <- H3, <- H2.
Qed.

Lemma handleFormatter_consumes_witness :
  handleFormatter "1$-08.3x|rest" = Ok (mkItem 1 1 8 3 "x", "|rest") /\
  exists items, "1$-08.3x|rest" = items ++ String "x" "|rest".
Proof.
  assert (E : handleFormatter "1$-08.3x|rest"
              = Ok (mkItem 1 1 8 3 "x", "|rest")) by reflexivity.
  split; [exact E|].
  exact (proj2 (handleFormatter_consumes _ _ _ E)).
Defined.

(* ===================================================================== *)
(** ** The directive parser: flags *)

Lemma handleFlags_from_step (fl : Z) (c : ascii) (r : string) :
  handleFlags_from fl (String c r)
  = if is_flag c then handleFlags_from (u8 (Z.lor fl (flag_of c))) r
    else (fl, String c r).
Proof.
  cbn [handleFlags_from]. unfold is_flag, flag_of.
  destruct (c == "-"); [reflexivity|].
  destruct (c == "+"); [reflexivity|].
  destruct (c == "#"); [reflexivity|].
  destruct (c == "0"); [reflexivity|].
  destruct (c == " "); reflexivity.
Qed.

Lemma is_flag_cases (c : ascii) :
  is_flag c = true ->
  c = "-"%char \/ c = "+"%char \/ c = "#"%char \/ c = "0"%char
  \/ c = " "%char.
Proof.
  unfold is_flag. rewrite !orb_true_iff, !Ascii.eqb_eq. tauto.
Qed.

Lemma flag_of_pow2 (c : ascii) :
  is_flag c = true -> exists k, 0 <= k < 5 /\ flag_of c = 2 ^ k.
Proof.
  intros H. apply is_flag_cases in H.
  destruct H as [-> | [-> | [-> | [-> | ->]]]];
    [exists 0 | exists 1 | exists 2 | exists 3 | exists 4];
    (split; [lia | reflexivity]).
Qed.

Lemma lor_flag_range (fl m k : Z) :
  0 <= fl < 32 -> 0 <= k < 5 -> m = 2 ^ k -> 0 <= Z.lor fl m < 32.
Proof.
  intros Hfl Hk ->.
  assert (Hm : 0 < 2 ^ k) by (apply Z.pow_pos_nonneg; lia).
  assert (Hnn : 0 <= Z.lor fl (2 ^ k)) by (apply Z.lor_nonneg; lia).
  split; [exact Hnn|].
  destruct (Z.eq_dec (Z.lor fl (2 ^ k)) 0) as [E | E]; [lia|].
  change 32 with (2 ^ 5). apply Z.log2_lt_pow2; [lia|].
  rewrite Z.log2_lor by lia. rewrite Z.log2_pow2 by lia.
  destruct (Z.eq_dec fl 0) as [-> | Hne].
  - change (Z.log2 0) with 0. lia.
  - assert (Z.log2 fl < 5) by (apply Z.log2_lt_pow2; lia). lia.
Qed.

Lemma flag_bit_of_char (x c : ascii) (k : Z) :
  is_flag x = true -> is_flag c = true -> flag_of c = 2 ^ k -> 0 <= k < 5 ->
  Z.testbit (flag_of x) k = (x == c).
Proof.
  intros Hx Hc Hk Hr.
  assert (Hcases : k = 0 \/ k = 1 \/ k = 2 \/ k = 3 \/ k = 4) by lia.
  apply is_flag_cases in Hx, Hc.
  destruct Hx as [-> | [-> | [-> | [-> | ->]]]];
    destruct Hc as [-> | [-> | [-> | [-> | ->]]]];
    destruct Hcases as [-> | [-> | [-> | [-> | ->]]]];
    try reflexivity; discriminate Hk.
Qed.

Lemma handleFlags_from_spec (iter : string) :
  forall fl, 0 <= fl < 32 ->
    0 <= fst (handleFlags_from fl iter) < 32 /\
    forall c, is_flag c = true ->
      has (fst (handleFlags_from fl iter)) (flag_of c)
      = has fl (flag_of c) || occurs c (flag_run iter).
Proof.
  induction iter as [|x r IH]; intros fl Hfl.
  - cbn. split; [exact Hfl|]. intros c _. now rewrite orb_false_r.
  - rewrite handleFlags_from_step. cbn [flag_run occurs].
    destruct (is_flag x) eqn:Hx.
    + destruct (flag_of_pow2 x Hx) as (kx & Hkx & Ex).
      pose proof (lor_flag_range fl (flag_of x) kx Hfl Hkx Ex) as Hrange.
      assert (Hu8 : u8 (Z.lor fl (flag_of x)) = Z.lor fl (flag_of x))
        by (unfold u8; apply Z.mod_small; change (2 ^ 8) with 256; lia).
      rewrite Hu8. destruct (IH _ Hrange) as [IH1 IH2].
      split; [exact IH1|]. intros c Hc. rewrite (IH2 c Hc).
      destruct (flag_of_pow2 c Hc) as (k & Hk & Ec).
      cbn [occurs]. rewrite Ec, !has_pow2 by lia.
      rewrite Z.lor_spec, (flag_bit_of_char x c k Hx Hc Ec Hk).
      now rewrite orb_assoc.
    + cbn [fst]. split; [exact Hfl|]. intros c _. cbn [occurs].
      now rewrite orb_false_r.
Qed.

(** [handleFlags] takes the longest run of flag characters, and a flag is
    set exactly when its character occurs in that run: the order of the
    characters and their repetition make no difference. *)
Theorem handleFlags_spec (iter : string) :
  iter = flag_run iter ++ snd (handleFlags iter) /\
  is_flag (deref (snd (handleFlags iter))) = false /\
  0 <= fst (handleFlags iter) < 32 /\
  forall c, is_flag c = true ->
    has (fst (handleFlags iter)) (flag_of c) = occurs c (flag_run iter).
Proof.
  unfold handleFlags.
  destruct (handleFlags_from_split iter 0) as [H1 H2].
  destruct (handleFlags_from_spec iter 0 ltac:(lia)) as [H3 H4].
  split; [exact H1|]. split; [exact H2|]. split; [exact H3|].
  intros c Hc. rewrite (H4 c Hc).
  destruct (flag_of_pow2 c Hc) as (k & Hk & ->).
  rewrite has_pow2 by lia. now rewrite Z.bits_0.
Qed.

(* ===================================================================== *)
(** ** The directive parser: integers *)

Lemma digits_value_from_linear (base : Z) (s : string) :
  forall acc,
    digits_value_from base acc s
    = acc * base ^ len s + digits_value_from base 0 s.
Proof.
  induction s as [|c r IH]; intros acc.
  - cbn. lia.
  - cbn [digits_value_from]. rewrite (IH (acc * base + digit_val c)).
    rewrite (IH (0 * base + digit_val c)).
    replace (len (String c r)) with (Z.succ (len r))
      by (unfold len; cbn [String.length]; lia).
    rewrite Z.pow_succ_r by apply len_nonneg. ring.
Qed.

Lemma u32_digits_value_from (s : string) (x : Z) :
  u32 (digits_value_from 10 (u32 x) s) = u32 (digits_value_from 10 x s).
Proof.
  rewrite (digits_value_from_linear 10 s (u32 x)).
  rewrite (digits_value_from_linear 10 s x). unfold u32.
  rewrite Z.add_mod by lia. rewrite Z.mul_mod by lia.
  rewrite Z.mod_mod by lia.
  rewrite <- Z.mul_mod by lia. now rewrite <- Z.add_mod by lia.
Qed.

Lemma parseInt_from_spec (iter : string) :
  forall out, 0 <= out < 2 ^ 32 ->
    parseInt_from out iter = u32 (digits_value_from 10 out (digit_run iter)).
Proof.
  induction iter as [|c r IH]; intros out Hout.
  - cbn. now rewrite u32_small.
  - cbn [parseInt_from digit_run]. destruct (is_digit c) eqn:E.
    + rewrite IH by apply u32_range. cbn [digits_value_from].
      unfold digit_val. rewrite E. apply u32_digits_value_from.
    + cbn. now rewrite u32_small.
Qed.

(** [parseInt] reads the decimal digits an iterator starts with, modulo
    2^32, and [findIntegerEnd] is the iterator right behind those digits. *)
Theorem parseInt_spec (iter : string) :
  parseInt iter = u32 (digits_value 10 (digit_run iter)) /\
  iter = digit_run iter ++ findIntegerEnd iter /\
  is_digit (deref (findIntegerEnd iter)) = false.
Proof.
  split; [|apply findIntegerEnd_split].
  unfold parseInt, digits_value. apply parseInt_from_spec. lia.
Qed.

Lemma digit_run_app (ds rest : string) (letter : Z) :
  digits_of_base 10 letter ds = true -> is_digit (deref rest) = false ->
  digit_run (ds ++ rest) = ds.
Proof.
  intros Hds Hrest. induction ds as [|c r IH].
  - destruct rest as [|x rest]; [reflexivity|]. cbn in *. now rewrite Hrest.
  - cbn [digits_of_base] in Hds. apply andb_prop in Hds as [Hc Hr].
    cbn [append digit_run].
    assert (Hd : is_digit c = true).
    { unfold is_digit. change (code "0") with 48 in *.
      change (code "9") with 57. change (Z.min 10 10) with 10 in Hc.
      apply orb_prop in Hc as [Hc | Hc];
        apply andb_prop in Hc as [H1 H2];
        apply Z.leb_le in H1; apply Z.ltb_lt in H2;
        apply andb_true_iff; rewrite !Z.leb_le; lia. }
    rewrite Hd, IH by assumption. reflexivity.
Qed.

(** The decimal digits the library renders for a width, precision or
    position are read back by its parser as the same number. *)
Theorem parseInt_of_rendered (fmt : FormatterItem) (n : Z) (rest : string) :
  0 <= n < 2 ^ 32 -> is_digit (deref rest) = false ->
  exists ds,
    printIntegral_buf 10 fmt uint32_t n = Some ds /\
    parseInt (ds ++ rest) = n /\
    findIntegerEnd (ds ++ rest) = rest.
Proof.
  intros Hn Hrest.
  assert (Hty : int_type_ok uint32_t) by (unfold int_type_ok; cbn; lia).
  assert (Hr : in_range uint32_t n) by (unfold in_range; cbn; lia).
  destruct (printIntegral_buf_spec 10 fmt uint32_t n ltac:(lia) Hty Hr)
    as (ds & Hbuf & Hval & _ & Hdig & _).
  exists ds. split; [exact Hbuf|].
  pose proof (digit_run_app ds rest _ Hdig Hrest) as Hrun.
  destruct (parseInt_spec (ds ++ rest)) as (Hp & Hs & _).
  rewrite Hrun in Hp, Hs. split.
  - rewrite Hp, Hval, Z.abs_eq by lia. apply u32_small. exact Hn.
  - clear -Hs. revert Hs. generalize (findIntegerEnd (ds ++ rest)).
    induction ds as [|c r IH]; intros e He; cbn [append] in He.
    + now symmetry.
    + injection He as He. now apply IH.
Qed.

Lemma parseInt_of_rendered_witness :
  (0 <= 120 < 2 ^ 32) /\ is_digit (deref "$d") = false /\
  exists ds,
    printIntegral_buf 10 (mkItem 0 0 0 0 "d") uint32_t 120 = Some ds /\
    parseInt (ds ++ "$d") = 120 /\ findIntegerEnd (ds ++ "$d") = "$d".
Proof.
  assert (Hn : 0 <= 120 < 2 ^ 32) by lia.
  split; [exact Hn|]. split; [reflexivity|].
  exact (parseInt_of_rendered (mkItem 0 0 0 0 "d") 120 "$d" Hn eq_refl).
Defined.

(* ===================================================================== *)
(** ** The sink is only appended to *)

Lemma regular_ret {A} (a : A) : regular (ret a).
Proof.
  split; [|discriminate]. intros s. unfold ret. cbn.
  now rewrite append_nil_r.
Qed.

Lemma regular_raise {A} (r : stop) : r <> OutOfFuel -> regular (@raise A r).
Proof.
  intros H. split; [|cbn; congruence]. intros s. unfold raise. cbn.
  now rewrite append_nil_r.
Qed.

Lemma regular_FORMAT_ERROR {A} (e : FormatError.type) :
  regular (@FORMAT_ERROR A e).
Proof. apply regular_raise. discriminate. Qed.

Lemma regular_sputn (str : string) : regular (sputn str).
Proof. split; [|discriminate]. intros s. reflexivity. Qed.

Lemma regular_sputc (c : ascii) : regular (sputc c).
Proof. split; [|discriminate]. intros s. reflexivity. Qed.

Lemma regular_sputc_times (n : Z) (c : ascii) : regular (sputc_times n c).
Proof. apply regular_sputn. Qed.

Lemma appends_bind {A B} (m : M A) (f : A -> M B) :
  appends m -> (forall a, appends (f a)) -> appends (bind m f).
Proof.
  intros Hm Hf s. unfold bind. rewrite (Hm s).
  destruct (m "") as [w [a | r]] eqn:E; cbn [fst snd].
  - rewrite (Hf a (s ++ w)), (Hf a w). cbn [fst snd].
    now rewrite !append_assoc.
  - reflexivity.
Qed.

Lemma regular_bind {A B} (m : M A) (f : A -> M B) :
  regular m -> (forall a, regular (f a)) -> regular (bind m f).
Proof.
  intros [Hm Hm'] Hf. split.
  - apply appends_bind; [exact Hm | intros a; apply Hf].
  - unfold bind. destruct (m "") as [w [a | r]] eqn:E; cbn [snd] in *.
    + destruct (Hf a) as [Ha Ha']. rewrite (Ha w). exact Ha'.
    + intros H. apply Hm'. injection H as ->. reflexivity.
Qed.

Create HintDb regular.

#[local] Hint Resolve regular_ret regular_FORMAT_ERROR regular_sputn
  regular_sputc regular_sputc_times : regular.

Ltac regular_step :=
  match goal with
  | |- regular (bind _ _) => apply regular_bind; [|intros]
  | |- regular (raise _) => apply regular_raise; discriminate
  | |- regular (if ?b then _ else _) => destruct b
  | |- regular (match ?x with _ => _ end) => destruct x
  | |- regular _ => solve [auto with regular]
  end.

Ltac regular_tac := cbv zeta; repeat regular_step.

Lemma regular_printPreFill (fmt : FormatterItem) (size : Z) :
  regular (printPreFill fmt size).
Proof. unfold printPreFill. regular_tac. Qed.

Lemma regular_printPostFill (fmt : FormatterItem) (size : Z) :
  regular (printPostFill fmt size).
Proof. unfold printPostFill. regular_tac. Qed.

#[local] Hint Resolve regular_printPreFill regular_printPostFill : regular.

Lemma regular_printIntegral (Tbase : Z) (fmt : FormatterItem) (ty : IntType)
    (value : Z) :
  regular (printIntegral Tbase fmt ty value).
Proof.
  unfold printIntegral, precision_floor, sized, fill_size, show_sign_or_base.
  regular_tac.
Qed.

#[local] Hint Resolve regular_printIntegral : regular.

Lemma regular_printChar (fmt : FormatterItem) (arg : Arg) :
  regular (printChar fmt arg).
Proof. unfold printChar. regular_tac. Qed.

Lemma regular_printPointer (sizeof_ptr : Z) (fmt : FormatterItem) (arg : Arg) :
  regular (printPointer sizeof_ptr fmt arg).
Proof. unfold printPointer. regular_tac. Qed.

#[local] Hint Resolve regular_printChar regular_printPointer : regular.

Lemma regular_printByType (sizeof_ptr : Z) (fmt : FormatterItem) (arg : Arg) :
  regular (printByType sizeof_ptr fmt arg).
Proof. unfold printByType. regular_tac. Qed.

Lemma regular_printArg_switch (sizeof_ptr : Z) (fmt : FormatterItem)
    (arg : Arg) :
  regular (printArg_switch sizeof_ptr fmt arg).
Proof.
  unfold printArg_switch, printUnsigned_arg, printIntegral_arg, printUnsigned.
  regular_tac; apply regular_printByType.
Qed.

Lemma regular_printArg (sizeof_ptr : Z) (fmt : FormatterItem)
    (args : list Arg) :
  regular (printArg sizeof_ptr fmt args).
Proof.
  unfold printArg. generalize (position fmt).
  induction args as [|a args IH]; intros item; cbn [printArg_item].
  - auto with regular.
  - destruct (negb (item =? 0)); [apply IH | apply regular_printArg_switch].
Qed.

Lemma print_loop_appends (sizeof_ptr : Z) (args : list Arg) (fuel : nat) :
  forall positional counter run iter,
    appends (print_loop sizeof_ptr fuel positional counter run iter args).
Proof.
  induction fuel as [|fuel IH]; intros positional counter run iter;
    cbn [print_loop].
  - intros s. unfold raise. cbn. now rewrite append_nil_r.
  - destruct iter as [|c rest]; [apply regular_sputn|].
    destruct (c == zero); [apply regular_sputn|].
    destruct (c == "%"); [|apply IH].
    apply appends_bind; [apply regular_sputn | intros _].
    destruct (deref rest == "%").
    { apply appends_bind; [apply regular_sputc | intros _; apply IH]. }
    destruct (deref rest == "("); [apply regular_FORMAT_ERROR|].
    destruct (handleFormatter rest) as [[fmt iter'] | r].
    + destruct (next_position positional counter (position fmt))
        as [p [positional' counter']].
      apply appends_bind; [apply regular_printArg | intros _; apply IH].
    + intros s. unfold raise. cbn. now rewrite append_nil_r.
Qed.

(** Formatting only appends to the sink: whatever the sink holds, [print]
    leaves it in front of what [writef] produces on an empty sink, and ends
    the same way (also when it fails part-way). *)
Theorem print_appends (sizeof_ptr : Z) (format : string) (args : list Arg)
    (sink : streambuf) :
  print sizeof_ptr format args sink
  = (sink ++ fst (writef sizeof_ptr format args),
     snd (writef sizeof_ptr format args)).
Proof. unfold writef, print. apply print_loop_appends. Qed.

(* ===================================================================== *)
(** ** The scanner terminates *)

Lemma handleFormatter_shorter (iter : string) (fmt : FormatterItem)
    (rest : string) :
  handleFormatter iter = Ok (fmt, rest) ->
  (String.length rest < String.length iter)%nat.
Proof.
  intros H. apply handleFormatter_consumes in H as (_ & items & ->).
  rewrite length_append. cbn [String.length]. lia.
Qed.

Lemma length_next (iter : string) :
  (String.length (next iter) <= String.length iter)%nat.
Proof. destruct iter; cbn; lia. Qed.

Lemma print_loop_fuel_free (sizeof_ptr : Z) (args : list Arg) (fuel : nat) :
  forall positional counter run iter sink,
    (String.length iter < fuel)%nat ->
    snd (print_loop sizeof_ptr fuel positional counter run iter args sink)
    <> Stop OutOfFuel.
Proof.
  induction fuel as [|fuel IH]; intros positional counter run iter sink Hlen;
    [lia|].
  cbn [print_loop].
  destruct iter as [|c rest]; [discriminate|]. cbn [String.length] in Hlen.
  destruct (c == zero); [discriminate|].
  destruct (c == "%"); [|apply IH; lia].
  unfold bind at 1. cbn [sputn].
  destruct (deref rest == "%").
  { unfold bind. cbn [sputc]. apply IH. pose proof (length_next rest). lia. }
  destruct (deref rest == "("); [discriminate|].
  destruct (handleFormatter rest) as [[fmt iter'] | r] eqn:E.
  - apply handleFormatter_shorter in E.
    destruct (next_position positional counter (position fmt))
      as [p [positional' counter']].
    unfold bind.
    destruct (regular_printArg sizeof_ptr (set_position fmt p) args)
      as [Happ Hfuel].
    rewrite (Happ (sink ++ run)).
    destruct (snd (printArg sizeof_ptr (set_position fmt p) args ""))
      as [[] | r] eqn:Er.
    + apply IH. lia.
    + cbn [snd]. exact Hfuel.
  - unfold handleFormatter, handleFormatChar in E.
    destruct (handlePosition rest) as [? i1].
    destruct (handleFlags i1) as [? i2].
    destruct (handleWidth i2) as [? i3].
    destruct (handlePrecision i3) as [? i4].
    destruct (is_formatChar (deref i4)); [discriminate|].
    injection E as <-. discriminate.
Qed.

(** The scanner always comes to an end: every turn of its loop moves the
    iterator forward, so the length of the template bounds the turns. *)
Theorem print_terminates (sizeof_ptr : Z) (format : string)
    (args : list Arg) (sink : streambuf) :
  snd (print sizeof_ptr format args sink) <> Stop OutOfFuel.
Proof. unfold print. apply print_loop_fuel_free. lia. Qed.

(* ===================================================================== *)
(** ** Literal text and the escaped percent *)

Lemma bind_sputn {B} (str : string) (k : unit -> M B) (s : streambuf) :
  bind (sputn str) k s = k tt (s ++ str).
Proof. reflexivity. Qed.

Lemma bind_sputc {B} (c : ascii) (k : unit -> M B) (s : streambuf) :
  bind (sputc c) k s = k tt (s ++ String c "").
Proof. reflexivity. Qed.

Lemma print_loop_fuel_irrelevant (sizeof_ptr : Z) (args : list Arg)
    (fuel1 : nat) :
  forall fuel2 positional counter run iter sink,
    (String.length iter < fuel1)%nat -> (String.length iter < fuel2)%nat ->
    print_loop sizeof_ptr fuel1 positional counter run iter args sink
    = print_loop sizeof_ptr fuel2 positional counter run iter args sink.
Proof.
  induction fuel1 as [|fuel1 IH];
    intros fuel2 positional counter run iter sink H1 H2; [lia|].
  destruct fuel2 as [|fuel2]; [lia|].
  cbn [print_loop].
  destruct iter as [|c rest]; [reflexivity|]. cbn [String.length] in H1, H2.
  destruct (c == zero); [reflexivity|].
  destruct (c == "%"); [|apply IH; lia].
  rewrite !bind_sputn.
  destruct (deref rest == "%").
  { rewrite !bind_sputc. pose proof (length_next rest). apply IH; lia. }
  destruct (deref rest == "("); [reflexivity|].
  destruct (handleFormatter rest) as [[fmt iter'] | r] eqn:E; [|reflexivity].
  apply handleFormatter_shorter in E.
  destruct (next_position positional counter (position fmt))
    as [p [positional' counter']].
  unfold bind.
  destruct (printArg sizeof_ptr (set_position fmt p) args (sink ++ run))
    as [s' [[] | r]]; [|reflexivity].
  apply IH; lia.
Qed.

(** The pending literal run may as well have been written already. *)
Lemma print_loop_flush (sizeof_ptr : Z) (args : list Arg) (fuel : nat) :
  forall positional counter run1 run2 iter sink1 sink2,
    (String.length iter < fuel)%nat ->
    sink1 ++ run1 = sink2 ++ run2 ->
    print_loop sizeof_ptr fuel positional counter run1 iter args sink1
    = print_loop sizeof_ptr fuel positional counter run2 iter args sink2.
Proof.
  induction fuel as [|fuel IH];
    intros positional counter run1 run2 iter sink1 sink2 Hlen Heq; [lia|].
  cbn [print_loop].
  destruct iter as [|c rest]; [unfold sputn; now rewrite Heq|].
  cbn [String.length] in Hlen.
  destruct (c == zero); [unfold sputn; now rewrite Heq|].
  destruct (c == "%").
  - rewrite !bind_sputn. now rewrite Heq.
  - apply IH; [lia|]. now rewrite <- !append_assoc, Heq.
Qed.

Lemma print_loop_literal (sizeof_ptr : Z) (args : list Arg) (fuel : nat)
    (positional : bool) (counter : Z) (run : string) (c : ascii)
    (rest : string) :
  (c == zero) = false -> (c == "%") = false ->
  print_loop sizeof_ptr (S fuel) positional counter run (String c rest) args
  = print_loop sizeof_ptr fuel positional counter (run ++ String c "") rest
      args.
Proof. intros Hz Hp. cbn [print_loop]. now rewrite Hz, Hp. Qed.

Lemma print_loop_plain (sizeof_ptr : Z) (args : list Arg) (lit : string) :
  plain lit = true ->
  forall positional counter run rest sink,
    print_loop sizeof_ptr (S (String.length (lit ++ rest))) positional counter
      run (lit ++ rest) args sink
    = print_loop sizeof_ptr (S (String.length rest)) positional counter
        (run ++ lit) rest args sink.
Proof.
  induction lit as [|c lit IH]; intros Hplain positional counter run rest sink.
  - cbn [append]. now rewrite append_nil_r.
  - cbn [plain] in Hplain.
    apply andb_prop in Hplain as [Hc Hlit]. apply andb_prop in Hc as [Hz Hp].
    apply negb_true_iff in Hz, Hp.
    cbn [append String.length]. rewrite (print_loop_literal _ _ _ _ _ _ _ _ Hz Hp).
    rewrite (IH Hlit). now rewrite append_assoc.
Qed.

Lemma print_plain_prefix (sizeof_ptr : Z) (lit rest : string)
    (args : list Arg) (sink : streambuf) :
  plain lit = true ->
  print sizeof_ptr (lit ++ rest) args sink
  = print sizeof_ptr rest args (sink ++ lit).
Proof.
  intros Hplain. unfold print.
  rewrite (print_loop_plain sizeof_ptr args lit Hplain).
  apply print_loop_flush; [lia|]. cbn [append]. now rewrite append_nil_r.
Qed.

(** Literal text in front of a template is copied to the sink as it is:
    formatting [lit ++ rest] is formatting [rest] on the sink with [lit]
    added.  With an empty [rest], a template without '%' is its own
    output, whatever the arguments. *)
Theorem print_literal_prefix (sizeof_ptr : Z) (lit rest : string)
    (args : list Arg) (sink : streambuf) :
  plain lit = true ->
  print sizeof_ptr (lit ++ rest) args sink
  = print sizeof_ptr rest args (sink ++ lit)
  /\ print sizeof_ptr lit args sink = (sink ++ lit, Ok tt).
Proof.
  intros Hplain. split; [now apply print_plain_prefix|].
  rewrite <- (append_nil_r lit) at 1.
  rewrite (print_plain_prefix sizeof_ptr lit "" args sink Hplain).
  unfold print. cbn [String.length print_loop]. unfold sputn.
  now rewrite append_nil_r.
Qed.

Lemma print_literal_prefix_witness :
  plain "value: " = true /\
  print 8 ("value: " ++ "%d") [AInt int32_t 7] "> "
  = print 8 "%d" [AInt int32_t 7] ("> " ++ "value: ").
Proof.
  split; [reflexivity|].
  exact (proj1 (print_literal_prefix 8 "value: " "%d" [AInt int32_t 7] "> "
                  eq_refl)).
Defined.

Lemma print_loop_percent (sizeof_ptr : Z) (args : list Arg) (fuel : nat)
    (positional : bool) (counter : Z) (run rest : string) (sink : streambuf) :
  print_loop sizeof_ptr (S fuel) positional counter run ("%%" ++ rest) args
    sink
  = print_loop sizeof_ptr fuel positional counter "" rest args
      ((sink ++ run) ++ "%").
Proof. reflexivity. Qed.

(** "%%" writes one '%' and takes no argument: formatting ["%%" ++ rest]
    is formatting [rest] on the sink with '%' added. *)
Theorem print_percent_percent (sizeof_ptr : Z) (rest : string)
    (args : list Arg) (sink : streambuf) :
  print sizeof_ptr ("%%" ++ rest) args sink
  = print sizeof_ptr rest args (sink ++ "%").
Proof.
  unfold print. rewrite print_loop_percent, append_nil_r.
  apply print_loop_fuel_irrelevant; cbn [append String.length]; lia.
Qed.

(* ===================================================================== *)
(** ** Failures of the scanner and of the parser *)

Lemma findIntegerEnd_nondigit (iter : string) :
  is_digit (deref iter) = false -> findIntegerEnd iter = iter.
Proof. destruct iter as [|c r]; cbn; [reflexivity | now intros ->]. Qed.

Lemma iter_eq_refl (iter : string) : iter_eq iter iter = true.
Proof. unfold iter_eq. apply Nat.eqb_refl. Qed.

Lemma handleFlags_nonflag (iter : string) :
  is_flag (deref iter) = false -> handleFlags iter = (0, iter).
Proof.
  unfold handleFlags. destruct iter as [|c r]; [reflexivity|].
  cbn [deref]. intros H. now rewrite handleFlags_from_step, H.
Qed.

(** A directive that holds nothing before its conversion character. *)
Lemma handleFormatter_bare (iter : string) :
  item_char (deref iter) = false ->
  handleFormatter iter
  = if is_formatChar (deref iter)
    then Ok (fixFlags (mkItem POSITION_NONE 0 WIDTH_EMPTY WIDTH_EMPTY
                         (deref iter)), next iter)
    else Stop (Throw InvalidFormatter).
Proof.
  unfold item_char. intros H.
  apply orb_false_elim in H as [H Hdot].
  apply orb_false_elim in H as [H Hstar].
  apply orb_false_elim in H as [Hdig Hflag].
  unfold handleFormatter, handlePosition.
  rewrite (findIntegerEnd_nondigit iter Hdig), iter_eq_refl. cbn [orb].
  rewrite (handleFlags_nonflag iter Hflag).
  unfold handleWidth. rewrite Hstar.
  rewrite (findIntegerEnd_nondigit iter Hdig), iter_eq_refl.
  unfold handlePrecision. rewrite Hdot. cbn [negb].
  unfold handleFormatChar. now destruct (is_formatChar (deref iter)).
Qed.

Lemma print_loop_directive (sizeof_ptr : Z) (args : list Arg) (fuel : nat)
    (positional : bool) (counter : Z) (run iter : string) (sink : streambuf) :
  (deref iter == "%") = false -> (deref iter == "(") = false ->
  print_loop sizeof_ptr (S fuel) positional counter run (String "%" iter) args
    sink
  = match handleFormatter iter with
    | Stop r => (sink ++ run, Stop r)
    | Ok (fmt, iter') =>
        let '(p, (positional', counter')) :=
          next_position positional counter (position fmt) in
        (printArg sizeof_ptr (set_position fmt p) args ;;
         print_loop sizeof_ptr fuel positional' counter' "" iter' args)
          (sink ++ run)
    end.
Proof.
  intros Hp Hg. cbn [print_loop].
  change ("%" == zero)%char with false. change ("%" == "%")%char with true.
  cbn iota. rewrite bind_sputn, Hp, Hg.
  destruct (handleFormatter iter) as [[fmt iter'] | r]; [|reflexivity].
  now destruct (next_position positional counter (position fmt))
    as [p [positional' counter']].
Qed.

(** A '%' that is not followed by a directive: when the character behind
    it (the end of the template included) is neither '%' nor '(', nor a
    digit, a flag, '*' or '.', nor a conversion character, the literal text
    before is written and InvalidFormatter is signalled. *)
Theorem print_invalid_formatter (sizeof_ptr : Z) (lit iter : string)
    (args : list Arg) (sink : streambuf) :
  plain lit = true ->
  item_char (deref iter) = false ->
  is_formatChar (deref iter) = false ->
  (deref iter == "%") = false -> (deref iter == "(") = false ->
  print sizeof_ptr (lit ++ String "%" iter) args sink
  = (sink ++ lit, Stop (Throw InvalidFormatter)).
Proof.
  intros Hplain Hitem Hfc Hp Hg.
  rewrite (print_plain_prefix sizeof_ptr lit _ args sink Hplain).
  unfold print. cbn [String.length].
  rewrite (print_loop_directive _ _ _ _ _ _ _ _ Hp Hg).
  rewrite (handleFormatter_bare iter Hitem), Hfc.
  now rewrite append_nil_r.
Qed.

Lemma print_invalid_formatter_witness :
  plain "rate: 100" = true /\
  print 8 ("rate: 100" ++ String "%" "") [AInt int32_t 1] ""
  = ("" ++ "rate: 100", Stop (Throw InvalidFormatter)) /\
  print 8 ("" ++ String "%" "q") [AInt int32_t 1] ""
  = ("" ++ "", Stop (Throw InvalidFormatter)).
Proof.
  split; [reflexivity|]. split.
  - exact (print_invalid_formatter 8 "rate: 100" "" [AInt int32_t 1] ""
             eq_refl eq_refl eq_refl eq_refl eq_refl).
  - exact (print_invalid_formatter 8 "" "q" [AInt int32_t 1] ""
             eq_refl eq_refl eq_refl eq_refl eq_refl).
Defined.

(** The group opener "%(" is refused: the literal text before it is
    written and NotImplemented is signalled, whatever follows. *)
Theorem print_group_not_implemented (sizeof_ptr : Z) (lit rest : string)
    (args : list Arg) (sink : streambuf) :
  plain lit = true ->
  print sizeof_ptr (lit ++ "%(" ++ rest) args sink
  = (sink ++ lit, Stop (Throw NotImplemented)).
Proof.
  intros Hplain.
  rewrite (print_plain_prefix sizeof_ptr lit _ args sink Hplain).
  unfold print. cbn [append String.length] . cbn [print_loop].
  change ("%" == zero)%char with false. change ("%" == "%")%char with true.
  cbn iota. rewrite bind_sputn. cbn [deref].
  change ("(" == "%")%char with false. change ("(" == "(")%char with true.
  cbn iota. unfold FORMAT_ERROR, raise. now rewrite append_nil_r.
Qed.

Lemma print_group_not_implemented_witness :
  plain "list: " = true /\
  print 8 ("list: " ++ "%(" ++ "%d, %)") [AInt int32_t 1] ""
  = ("" ++ "list: ", Stop (Throw NotImplemented)).
Proof.
  split; [reflexivity|].
  exact (print_group_not_implemented 8 "list: " "%d, %)" [AInt int32_t 1] ""
           eq_refl).
Defined.

(* ===================================================================== *)
(** ** Width and precision given by an argument *)

(** The numeric renderer refuses a '*' width or precision: once the digits
    are in the buffer it signals NotImplemented, and nothing is written. *)
Theorem printIntegral_star (Tbase : Z) (fmt : FormatterItem) (ty : IntType)
    (value : Z) (sink : streambuf) :
  supported_base Tbase -> int_type_ok ty -> in_range ty value ->
  base_flag_fits fmt ->
  precision fmt = WIDTH_ARG \/ width fmt = WIDTH_ARG ->
  printIntegral Tbase fmt ty value sink = (sink, Stop (Throw NotImplemented)).
Proof.
  intros Hb Hty Hr Hfit Hstar.
  destruct (printIntegral_buf_spec Tbase fmt ty value
              (supported_base_range Tbase Hb) Hty Hr) as (ds & Hbuf & _).
  unfold printIntegral. rewrite Hbuf. unfold bind, precision_floor.
  destruct (Z.eqb_spec (precision fmt) WIDTH_ARG) as [E | E];
    [reflexivity|].
  destruct Hstar as [Hp | Hw]; [contradiction|].
  assert (Hfloor : forall s,
             (if precision fmt =? WIDTH_EMPTY then ret 1
              else ret (precision fmt)) s
             = (s, Ok (if precision fmt =? WIDTH_EMPTY then 1
                       else precision fmt)))
    by (intros s; now destruct (precision fmt =? WIDTH_EMPTY)).
  rewrite Hfloor, sized_ok by assumption.
  unfold fill_size. rewrite Hw. reflexivity.
Qed.

Lemma printIntegral_star_witness :
  supported_base 10 /\ in_range int32_t 5 /\
  printIntegral 10 (mkItem 0 0 WIDTH_ARG 3 "d") int32_t 5 "n = "
  = ("n = ", Stop (Throw NotImplemented)).
Proof.
  assert (Hb : supported_base 10) by (right; right; left; reflexivity).
  assert (Hty : int_type_ok int32_t) by (unfold int_type_ok; cbn; lia).
  assert (Hr : in_range int32_t 5) by (unfold in_range; cbn; lia).
  split; [exact Hb|]. split; [exact Hr|].
  apply printIntegral_star; try assumption.
  - intros H. discriminate H.
  - right. reflexivity.
Defined.

(** The text renderer does not refuse a '*' width: [printPreFill] takes the
    marker for a width of 4294967294, so "%*s" pads the text on the left to
    that many characters; "%*d" and "%.*d" fail as said above. *)
Theorem star_width_on_text (sizeof_ptr a : Z) (s : string) :
  writef sizeof_ptr "%*s" [ACStr a s]
  = (nchars (u32 (4294967294 - u32 (len (c_str s)))) " " ++ c_str s, Ok tt) /\
  writef sizeof_ptr "%*d" [AInt int32_t 5]
  = ("", Stop (Throw NotImplemented)) /\
  writef sizeof_ptr "%.*d" [AInt int32_t 5]
  = ("", Stop (Throw NotImplemented)).
Proof.
  split; [|split; reflexivity].
  assert (E : writef sizeof_ptr "%*s" [ACStr a s]
              = (printByType sizeof_ptr (mkItem 0 0 WIDTH_ARG WIDTH_EMPTY "s")
                   (ACStr a s) ;; sputn "") "") by reflexivity.
  rewrite E. unfold bind. rewrite printByType_cstr. unfold sputn.
  cbn [width flags]. change (WIDTH_ARG =? WIDTH_EMPTY) with false.
  change (has 0 FLAG_LEFT_JUSTIFY) with false. change WIDTH_ARG with 4294967294.
  cbn [negb orb andb append]. rewrite !append_nil_r. reflexivity.
Qed.

(* ===================================================================== *)
(** ** The digit buffer *)

(** For every supported base and integral type, the conversion of a value
    stays inside the 64-character buffer and never overflows; the digit
    run uses at most as many characters as the type has bits, has no
    leading zero, and read back in the base it is the magnitude of the
    value (the value itself when it is not negative). *)
Theorem digit_buffer_round_trip (Tbase : Z) (fmt : FormatterItem)
    (ty : IntType) (value : Z) :
  supported_base Tbase -> int_type_ok ty -> in_range ty value ->
  exists ds,
    printIntegral_buf Tbase fmt ty value = Some ds /\
    digits_value Tbase ds = Z.abs value /\
    digits_of_base Tbase (baseLetter fmt) ds = true /\
    (value <> 0 -> digit_val (deref ds) <> 0) /\
    len ds <= bits ty <= 64.
Proof.
  intros Hb Hty Hr. pose proof (supported_base_range Tbase Hb) as Hb'.
  destruct (printIntegral_buf_spec Tbase fmt ty value Hb' Hty Hr)
    as (ds & Hbuf & Hval & _ & Hdig & Hlead & _ & Hpow).
  exists ds. repeat (split; [assumption|]).
  unfold int_type_ok in Hty. split; [|lia].
  apply Hpow; [lia|].
  assert (H2 : Z.abs value < 2 ^ bits ty).
  { unfold in_range, int_min, int_max in Hr.
    assert (0 < 2 ^ (bits ty - 1)) by (apply Z.pow_pos_nonneg; lia).
    assert (2 ^ bits ty = 2 * 2 ^ (bits ty - 1)).
    { replace (bits ty) with (Z.succ (bits ty - 1)) at 1 by lia.
      apply Z.pow_succ_r. lia. }
    destruct (is_signed ty); lia. }
  assert (2 ^ bits ty <= Tbase ^ bits ty)
    by (apply Z.pow_le_mono_l; lia).
  lia.
Qed.

Lemma digit_buffer_round_trip_witness :
  supported_base 2 /\ in_range (mkInt false 64) (2 ^ 64 - 1) /\
  exists ds,
    printIntegral_buf 2 (mkItem 0 0 0 0 "b") (mkInt false 64) (2 ^ 64 - 1)
      = Some ds /\
    digits_value 2 ds = Z.abs (2 ^ 64 - 1) /\ len ds <= 64.
Proof.
  assert (Hb : supported_base 2) by (left; reflexivity).
  assert (Hty : int_type_ok (mkInt false 64))
    by (unfold int_type_ok; cbn; lia).
  assert (Hr : in_range (mkInt false 64) (2 ^ 64 - 1))
    by (unfold in_range; cbn; lia).
  split; [exact Hb|]. split; [exact Hr|].
  destruct (digit_buffer_round_trip 2 (mkItem 0 0 0 0 "b") (mkInt false 64)
              (2 ^ 64 - 1) Hb Hty Hr)
    as (ds & Hbuf & Hval & _ & _ & Hlen & _).
  exists ds. split; [exact Hbuf | split; [exact Hval | exact Hlen]].
Defined.

(** The conversions b, o, x and X render any integral value as the digits
    of its conversion to the unsigned type of the same width (two's
    complement for a negative value): the output read back in base 2, 8 or
    16 is the value modulo 2^bits; x uses lowercase and X uppercase digit
    letters; the output is "0" for zero and has no leading zero
    otherwise. *)
Theorem unsigned_conversions (sizeof_ptr : Z) (fc : ascii) (ty : IntType)
    (value : Z) (sink : streambuf) :
  int_type_ok ty -> in_range ty value ->
  fc = "b"%char \/ fc = "o"%char \/ fc = "x"%char \/ fc = "X"%char ->
  let base := if fc == "b" then 2 else if fc == "o" then 8 else 16 in
  let letter := if fc == "X" then code "A" else code "a" in
  exists out,
    printArg_switch sizeof_ptr (mkItem 0 0 WIDTH_EMPTY WIDTH_EMPTY fc)
      (AInt ty value) sink = (sink ++ out, Ok tt) /\
    digits_value base out = value mod 2 ^ bits ty /\
    digits_of_base base letter out = true /\
    out <> "" /\
    (value <> 0 -> digit_val (deref out) <> 0).
Proof.
  intros Hty Hr Hfc. cbv zeta.
  set (fmt := mkItem 0 0 WIDTH_EMPTY WIDTH_EMPTY fc).
  set (base := if fc == "b" then 2 else if fc == "o" then 8 else 16).
  destruct (to_unsigned_spec ty value Hty Hr) as (Huty & Hur & Hu0 & Hneg).
  assert (Hbase : 2 <= base <= 16)
    by (subst base; destruct (fc == "b"), (fc == "o"); lia).
  destruct (printIntegral_buf_spec base fmt _ _ Hbase Huty Hur)
    as (ds & Hbuf & Hval & Hnil & Hdig & Hlead & Hlen & _).
  assert (Hsw : printArg_switch sizeof_ptr fmt (AInt ty value) sink
                = printIntegral base fmt (make_unsigned ty)
                    (to_unsigned ty value) sink).
  { unfold printArg_switch, base, fmt. cbv zeta. cbn [formatChar].
    destruct Hfc as [-> | [-> | [-> | ->]]]; reflexivity. }
  assert (Hw : none_or_small (width fmt)) by (left; reflexivity).
  assert (Hp : none_or_small (precision fmt)) by (left; reflexivity).
  assert (Hfit : base_flag_fits fmt) by (intros H; discriminate H).
  rewrite Hsw.
  rewrite (printIntegral_shape base fmt _ _ ds sink Hbuf Hlen Hw Hp Hfit).
  rewrite (written_sign fmt _ _ eq_refl), Hneg.
  unfold width_fill, min_digits. cbn [fmt width precision flags].
  rewrite Z.eqb_refl.
  change (has 0 FLAG_FILL_ZERO) with false.
  change (has 0 FLAG_LEFT_JUSTIFY) with false.
  change (has 0 FLAG_SHOW_SIGN) with false.
  change (has 0 FLAG_ADD_SPACE) with false.
  cbn [negb andb]. change (nchars 0 " ") with "". change (nchars 0 "0") with "".
  cbn [append]. rewrite !append_nil_r.
  assert (Habs : Z.abs (to_unsigned ty value) = value mod 2 ^ bits ty).
  { unfold to_unsigned. apply Z.abs_eq. apply Z.mod_pos_bound.
    apply Z.pow_pos_nonneg; unfold int_type_ok in Hty; lia. }
  assert (Hletter : baseLetter fmt
                    = if fc == "X" then code "A" else code "a")
    by reflexivity.
  rewrite Hletter in Hdig.
  destruct (Z.eq_dec value 0) as [E | E].
  - assert (ds = "") as -> by (apply Hnil, Hu0, E).
    exists "0". change (nchars (1 - len "") "0" ++ "") with "0".
    split; [reflexivity|]. split.
    { subst value. rewrite Z.mod_0_l; [reflexivity|].
      apply Z.pow_nonzero; unfold int_type_ok in Hty; lia. }
    split.
    { cbn [digits_of_base]. change (code "0") with 48.
      rewrite andb_true_r. apply orb_true_iff. left.
      apply andb_true_iff. rewrite Z.leb_le, Z.ltb_lt. lia. }
    split; [discriminate | contradiction].
  - assert (Hne : ds <> "") by (intros E'; apply E, Hu0, Hnil, E').
    exists ds. rewrite nchars_nonpos by (pose proof (len_pos ds Hne); lia).
    cbn [append]. split; [reflexivity|]. split; [now rewrite Hval|].
    split; [exact Hdig|]. split; [exact Hne|].
    intros _. apply Hlead. intros E'. apply E, Hu0, E'.
Qed.

Lemma unsigned_conversions_witness :
  in_range int32_t (-1) /\
  exists out,
    printArg_switch 8 (mkItem 0 0 WIDTH_EMPTY WIDTH_EMPTY "x")
      (AInt int32_t (-1)) "" = ("" ++ out, Ok tt) /\
    digits_value 16 out = (-1) mod 2 ^ bits int32_t.
Proof.
  assert (Hty : int_type_ok int32_t) by (unfold int_type_ok; cbn; lia).
  assert (Hr : in_range int32_t (-1)) by (unfold in_range; cbn; lia).
  split; [exact Hr|].
  destruct (unsigned_conversions 8 "x" int32_t (-1) "" Hty Hr
              (or_intror (or_intror (or_introl eq_refl))))
    as (out & Hout & Hval & _).
  exists out. split; [exact Hout | exact Hval].
Defined.

(* ===================================================================== *)
(** ** How the routines can stop *)

Lemma ends_in_ret {A} (P : stop -> Prop) (a : A) : ends_in P (ret a).
Proof. intros s r H. discriminate H. Qed.

Lemma ends_in_raise {A} (P : stop -> Prop) (r : stop) :
  P r -> ends_in P (@raise A r).
Proof. intros H s r' E. cbn in E. now injection E as <-. Qed.

Lemma ends_in_sputn (P : stop -> Prop) (str : string) : ends_in P (sputn str).
Proof. intros s r H. discriminate H. Qed.

Lemma ends_in_sputc (P : stop -> Prop) (c : ascii) : ends_in P (sputc c).
Proof. intros s r H. discriminate H. Qed.

Lemma ends_in_sputc_times (P : stop -> Prop) (n : Z) (c : ascii) :
  ends_in P (sputc_times n c).
Proof. intros s r H. discriminate H. Qed.

Lemma ends_in_bind {A B} (P : stop -> Prop) (m : M A) (f : A -> M B) :
  ends_in P m -> (forall a, ends_in P (f a)) -> ends_in P (bind m f).
Proof.
  intros Hm Hf s r. unfold bind.
  destruct (m s) as [s' [a | r']] eqn:E.
  - apply Hf.
  - cbn. intros H. injection H as <-. apply (Hm s). now rewrite E.
Qed.

Create HintDb ends.

#[local] Hint Resolve ends_in_ret ends_in_sputn ends_in_sputc
  ends_in_sputc_times : ends.

Ltac ends_step :=
  match goal with
  | |- ends_in _ (bind _ _) => apply ends_in_bind; [|intros]
  | |- ends_in _ (raise _) => apply ends_in_raise; assumption
  | |- ends_in _ (if ?b then _ else _) => destruct b
  | |- ends_in _ (match ?x with _ => _ end) => destruct x
  | |- ends_in _ _ => solve [auto with ends]
  end.

Ltac ends_tac := cbv zeta; unfold FORMAT_ERROR; repeat ends_step.

Lemma ends_in_printPreFill (P : stop -> Prop) (fmt : FormatterItem)
    (size : Z) :
  ends_in P (printPreFill fmt size).
Proof. unfold printPreFill. ends_tac. Qed.

Lemma ends_in_printPostFill (P : stop -> Prop) (fmt : FormatterItem)
    (size : Z) :
  ends_in P (printPostFill fmt size).
Proof. unfold printPostFill. ends_tac. Qed.

#[local] Hint Resolve ends_in_printPreFill ends_in_printPostFill : ends.

Lemma ends_in_sized (P : stop -> Prop) (fmt : FormatterItem) (ty : IntType)
    (value size : Z) :
  P AssertFalse \/ base_flag_fits fmt -> ends_in P (sized fmt ty value size).
Proof.
  intros [HA | Hfit].
  - unfold sized. ends_tac.
  - intros s r. rewrite sized_ok by assumption. discriminate.
Qed.

Lemma ends_in_show_sign_or_base (P : stop -> Prop) (fmt : FormatterItem)
    (ty : IntType) (value : Z) :
  P AssertFalse \/ base_flag_fits fmt ->
  ends_in P (show_sign_or_base fmt ty value).
Proof.
  intros [HA | Hfit].
  - unfold show_sign_or_base. ends_tac.
  - intros s r. rewrite show_sign_or_base_ok by assumption. discriminate.
Qed.

(** The numeric renderer stops only on a '*' width or precision, on an
    overflow, or on its assertion, the latter never when the explicit-base
    flag fits the conversion. *)
Lemma ends_in_printIntegral (P : stop -> Prop) (Tbase : Z)
    (fmt : FormatterItem) (ty : IntType) (value : Z) :
  P (Throw NotImplemented) -> P Undefined ->
  P AssertFalse \/ base_flag_fits fmt ->
  ends_in P (printIntegral Tbase fmt ty value).
Proof.
  intros HN HU HA.
  pose proof (ends_in_sized P fmt ty value) as Hsized.
  pose proof (ends_in_show_sign_or_base P fmt ty value HA) as Hshow.
  unfold printIntegral, precision_floor, fill_size.
  destruct (printIntegral_buf Tbase fmt ty value) as [ds|];
    [|now apply ends_in_raise].
  cbv zeta. unfold FORMAT_ERROR.
  apply ends_in_bind; [repeat ends_step | intros zerofill].
  apply ends_in_bind; [now apply Hsized | intros size].
  apply ends_in_bind; [repeat ends_step | intros fill].
  apply ends_in_bind; [repeat ends_step | intros _].
  apply ends_in_bind; [exact Hshow | intros _].
  repeat ends_step.
Qed.

Lemma base_flag_fits_pointer (sizeof_ptr : Z) (fmt : FormatterItem) :
  base_flag_fits (mkItem (position fmt) FLAG_EXPLICIT_BASE (width fmt)
                    (u32 (sizeof_ptr * 2)) "x").
Proof. intros _. left. reflexivity. Qed.

Lemma ends_in_printPointer (P : stop -> Prop) (sizeof_ptr : Z)
    (fmt : FormatterItem) (arg : Arg) :
  P (Throw NotImplemented) -> P Undefined -> P (Throw IncompatibleType) ->
  ends_in P (printPointer sizeof_ptr fmt arg).
Proof.
  intros HN HU HI. unfold printPointer. cbv zeta.
  destruct arg; unfold FORMAT_ERROR; try (now apply ends_in_raise);
    apply ends_in_printIntegral; try assumption;
    right; apply base_flag_fits_pointer.
Qed.

Lemma ends_in_printChar (P : stop -> Prop) (fmt : FormatterItem) (arg : Arg) :
  P (Throw IncompatibleType) -> ends_in P (printChar fmt arg).
Proof. intros HI. unfold printChar. ends_tac. Qed.

(* ===================================================================== *)
(** ** Conversions and argument categories *)





(* ===================================================================== *)
(** ** The ends of a formatting call *)

Lemma handleFormatter_stop (iter : string) (r : stop) :
  handleFormatter iter = Stop r -> r = Throw InvalidFormatter.
Proof.
  unfold handleFormatter, handleFormatChar.
  destruct (handlePosition iter) as [? i1].
  destruct (handleFlags i1) as [? i2].
  destruct (handleWidth i2) as [? i3].
  destruct (handlePrecision i3) as [? i4].
  destruct (is_formatChar (deref i4)); [discriminate|].
  intros H. now injection H as <-.
Qed.

(** What the parser guarantees of a directive, as far as the renderers'
    assertions go. *)
Lemma handleFormatter_sound (iter : string) (fmt : FormatterItem)
    (rest : string) :
  handleFormatter iter = Ok (fmt, rest) ->
  is_formatChar (formatChar fmt) = true /\
  (has (flags fmt) FLAG_EXPLICIT_BASE = true ->
   (formatChar fmt == "d") = false /\ (formatChar fmt == "b") = false
   /\ (formatChar fmt == "s") = false).
Proof.
  intros H. apply handleFormatter_fixed in H as (fmt0 & -> & Hfc).
  rewrite fixFlags_formatChar. split; [exact Hfc|].
  destruct (fixFlags_flags fmt0) as (_ & _ & HB & _). cbv zeta in HB.
  rewrite HB. intros E. apply andb_prop in E as [_ E].
  apply negb_true_iff in E.
  apply orb_false_elim in E as [E Es]. apply orb_false_elim in E as [Ed Eb].
  now rewrite Ed, Eb, Es.
Qed.

Lemma print_failure_cases :
  print_failure (Throw InvalidFormatter) /\
  print_failure (Throw TooFewArguments) /\
  print_failure (Throw IncompatibleType) /\
  print_failure (Throw NotImplemented) /\ print_failure Undefined.
Proof. unfold print_failure. intuition. Qed.

Lemma ends_in_printArg_switch (sizeof_ptr : Z) (fmt : FormatterItem)
    (arg : Arg) :
  is_formatChar (formatChar fmt) = true ->
  (has (flags fmt) FLAG_EXPLICIT_BASE = true ->
   (formatChar fmt == "d") = false /\ (formatChar fmt == "b") = false
   /\ (formatChar fmt == "s") = false) ->
  ends_in print_failure (printArg_switch sizeof_ptr fmt arg).
Proof.
  intros Hfc Hnorm.
  destruct print_failure_cases as (_ & _ & HI & HN & HU).
  assert (Hint : forall base ty v,
             ((formatChar fmt == "d") = true \/ (formatChar fmt == "b") = true
              \/ (formatChar fmt == "s") = true
              \/ formatChar fmt = "x"%char \/ formatChar fmt = "X"%char
              \/ formatChar fmt = "o"%char) ->
             ends_in print_failure (printIntegral base fmt ty v)).
  { intros base ty v Hcase. apply ends_in_printIntegral; try assumption.
    right. intros Hflag. destruct (Hnorm Hflag) as (Ed & Eb & Es).
    destruct Hcase as [E | [E | [E | E]]]; [congruence .. | tauto]. }
  assert (Hnum : forall base,
             ((formatChar fmt == "d") = true \/ (formatChar fmt == "b") = true
              \/ (formatChar fmt == "s") = true
              \/ formatChar fmt = "x"%char \/ formatChar fmt = "X"%char
              \/ formatChar fmt = "o"%char) ->
             ends_in print_failure (printIntegral_arg base fmt arg)
             /\ ends_in print_failure (printUnsigned_arg base fmt arg)).
  { intros base Hcase.
    destruct arg; unfold printIntegral_arg, printUnsigned_arg, printUnsigned,
      FORMAT_ERROR; split;
      solve [apply ends_in_raise; assumption | apply Hint; exact Hcase]. }
  unfold printArg_switch. cbv zeta. unfold is_formatChar in Hfc.
  destruct (formatChar fmt == "s") eqn:Es.
  { destruct arg; unfold printByType.
    - ends_tac.
    - now apply ends_in_printChar.
    - apply Hint. tauto.
    - ends_tac.
    - ends_tac.
    - now apply ends_in_printPointer.
    - unfold FORMAT_ERROR. now apply ends_in_raise.
    - unfold FORMAT_ERROR. now apply ends_in_raise. }
  destruct (formatChar fmt == "c") eqn:Ec.
  { now apply ends_in_printChar. }
  destruct (formatChar fmt == "b") eqn:Eb.
  { apply Hnum. tauto. }
  destruct (formatChar fmt == "d") eqn:Ed.
  { apply Hnum. tauto. }
  destruct (formatChar fmt == "o") eqn:Eo.
  { apply Ascii.eqb_eq in Eo. apply Hnum. tauto. }
  destruct (formatChar fmt == "x") eqn:Ex.
  { apply Ascii.eqb_eq in Ex. cbn [orb]. apply Hnum. tauto. }
  destruct (formatChar fmt == "X") eqn:EX.
  { apply Ascii.eqb_eq in EX. cbn [orb]. apply Hnum. tauto. }
  cbn [orb] in *.
  destruct (formatChar fmt == "p") eqn:Ep.
  { now apply ends_in_printPointer. }
  cbn [orb] in Hfc. rewrite Hfc. unfold FORMAT_ERROR.
  now apply ends_in_raise.
Qed.

Lemma ends_in_printArg (sizeof_ptr : Z) (fmt : FormatterItem)
    (args : list Arg) :
  is_formatChar (formatChar fmt) = true ->
  (has (flags fmt) FLAG_EXPLICIT_BASE = true ->
   (formatChar fmt == "d") = false /\ (formatChar fmt == "b") = false
   /\ (formatChar fmt == "s") = false) ->
  ends_in print_failure (printArg sizeof_ptr fmt args).
Proof.
  intros Hfc Hnorm. unfold printArg. generalize (position fmt).
  induction args as [|a args IH]; intros item; cbn [printArg_item].
  - unfold FORMAT_ERROR. apply ends_in_raise. unfold print_failure. tauto.
  - destruct (negb (item =? 0)); [apply IH|].
    now apply ends_in_printArg_switch.
Qed.

Lemma ends_in_print_loop (sizeof_ptr : Z) (args : list Arg) (fuel : nat) :
  forall positional counter run iter,
    ends_in (fun r => print_failure r \/ r = OutOfFuel)
      (print_loop sizeof_ptr fuel positional counter run iter args).
Proof.
  induction fuel as [|fuel IH]; intros positional counter run iter;
    cbn [print_loop].
  - apply ends_in_raise. now right.
  - destruct iter as [|c rest]; [apply ends_in_sputn|].
    destruct (c == zero); [apply ends_in_sputn|].
    destruct (c == "%"); [|apply IH].
    apply ends_in_bind; [apply ends_in_sputn | intros _].
    destruct (deref rest == "%").
    { apply ends_in_bind; [apply ends_in_sputc | intros _; apply IH]. }
    destruct (deref rest == "(").
    { apply ends_in_raise. left. unfold print_failure. tauto. }
    destruct (handleFormatter rest) as [[fmt iter'] | r] eqn:E.
    + destruct (next_position positional counter (position fmt))
        as [p [positional' counter']].
      destruct (handleFormatter_sound rest fmt iter' E) as [Hfc Hnorm].
      apply ends_in_bind; [|intros _; apply IH].
      intros s r Hr. left.
      exact (ends_in_printArg sizeof_ptr (set_position fmt p) args Hfc Hnorm
               s r Hr).
    + apply handleFormatter_stop in E as ->.
      apply ends_in_raise. left. unfold print_failure. tauto.
Qed.

(** A formatting call returns, or it stops with InvalidFormatter,
    TooFewArguments, IncompatibleType or NotImplemented (or on an overflow
    of the fill computation).  It never signals TooManyArguments (unused
    arguments are not looked at), and it never reaches one of the
    "should not be here" assertions: the parser only lets through the
    sixteen conversion characters, and the flag normalizer clears the
    explicit-base flag wherever the numeric renderer has no prefix for
    it. *)
Theorem print_outcomes (sizeof_ptr : Z) (format : string) (args : list Arg)
    (sink : streambuf) (r : stop) :
  snd (print sizeof_ptr format args sink) = Stop r ->
  print_failure r /\ r <> Throw TooManyArguments /\ r <> AssertFalse.
Proof.
  intros H.
  assert (Hf : print_failure r).
  { destruct (ends_in_print_loop sizeof_ptr args _ _ _ _ _ sink r H)
      as [Hf | ->]; [exact Hf|].
    exfalso. revert H. unfold print. apply print_loop_fuel_free. lia. }
  split; [exact Hf|].
  unfold print_failure in Hf.
  split; intros ->; intuition discriminate.
Qed.

Lemma print_outcomes_witness :
  snd (print 8 "%d and %q" [AInt int32_t 1; AInt int32_t 2] "")
    = Stop (Throw InvalidFormatter) /\
  print_failure (Throw InvalidFormatter).
Proof.
  split; [reflexivity|].
  exact (proj1 (print_outcomes 8 "%d and %q" [AInt int32_t 1; AInt int32_t 2]
                  "" (Throw InvalidFormatter) eq_refl)).
Defined.

(* ===================================================================== *)
(** ** The field of a non-numeric render *)

Lemma put_text (fmt : FormatterItem) (t : string) (sink : streambuf) :
  (printPreFill fmt (len t) ;; sputn t ;; printPostFill fmt (len t)) sink
  = (sink
     ++ (if (width fmt =? WIDTH_EMPTY) || has (flags fmt) FLAG_LEFT_JUSTIFY
         then "" else nchars (u32 (width fmt - u32 (len t))) " ")
     ++ t
     ++ (if negb (width fmt =? WIDTH_EMPTY) && has (flags fmt) FLAG_LEFT_JUSTIFY
         then nchars (u32 (width fmt - u32 (len t))) " " else ""),
     Ok tt).
Proof.
  unfold bind. rewrite printPreFill_spec. unfold sputn.
  rewrite printPostFill_spec. now rewrite !append_assoc.
Qed.

Lemma printArg_switch_text (sizeof_ptr : Z) (fmt : FormatterItem) (arg : Arg)
    (t : string) :
  rendered_text (formatChar fmt) arg = Some t ->
  printArg_switch sizeof_ptr fmt arg
  = (printPreFill fmt (len t) ;; sputn t ;; printPostFill fmt (len t)).
Proof.
  unfold rendered_text, printArg_switch. cbv zeta.
  destruct (formatChar fmt == "s").
  - destruct arg as [[] | | | | | | |]; intros H; try discriminate H;
      injection H as <-; reflexivity.
  - destruct (formatChar fmt == "c"); [|discriminate].
    destruct arg; intros H; try discriminate H; injection H as <-;
      reflexivity.
Qed.

(** A boolean, character or text render whose content fits the width
    fills the field exactly: the content with [width - size] spaces before
    it, or behind it when left-justify is set, [width] characters in all;
    without a width the content alone is written. *)
Theorem text_field (sizeof_ptr : Z) (fmt : FormatterItem) (arg : Arg)
    (t : string) (sink : streambuf) :
  rendered_text (formatChar fmt) arg = Some t ->
  width fmt = WIDTH_EMPTY \/ len t <= width fmt < WIDTH_EMPTY ->
  let pad :=
    nchars (if width fmt =? WIDTH_EMPTY then 0 else width fmt - len t) " " in
  let out := if has (flags fmt) FLAG_LEFT_JUSTIFY then t ++ pad else pad ++ t in
  printArg_switch sizeof_ptr fmt arg sink = (sink ++ out, Ok tt) /\
  len out = (if width fmt =? WIDTH_EMPTY then len t else width fmt).
Proof.
  intros Ht Hw. cbv zeta. rewrite WIDTH_EMPTY_val in Hw.
  pose proof (len_nonneg t) as Hlen.
  rewrite (printArg_switch_text sizeof_ptr fmt arg t Ht), put_text.
  destruct (Z.eqb_spec (width fmt) WIDTH_EMPTY) as [E | E].
  - cbn [orb negb andb]. change (nchars 0 " ") with "".
    destruct (has (flags fmt) FLAG_LEFT_JUSTIFY); cbn [append];
      rewrite ?append_nil_r; split; reflexivity.
  - rewrite WIDTH_EMPTY_val in E. destruct Hw as [Hw | Hw]; [contradiction|].
    assert (Hu : u32 (width fmt - u32 (len t)) = width fmt - len t).
    { rewrite (u32_small (len t)) by lia. apply u32_small. lia. }
    rewrite Hu. cbn [orb negb andb].
    destruct (has (flags fmt) FLAG_LEFT_JUSTIFY); cbn [append];
      rewrite ?append_nil_r; (split; [reflexivity|]);
      rewrite len_append, len_nchars; lia.
Qed.

Lemma text_field_witness :
  rendered_text "s" (ABool true) = Some "true" /\
  printArg_switch 8 (mkItem 0 1 7 WIDTH_EMPTY "s") (ABool true) "["
  = ("[" ++ "true" ++ nchars (7 - len "true") " ", Ok tt).
Proof.
  split; [reflexivity|].
  refine (proj1 (text_field 8 (mkItem 0 1 7 WIDTH_EMPTY "s") (ABool true)
                   "true" "[" eq_refl _)).
  right. cbn. lia.
Defined.

(* ===================================================================== *)
(** ** The flag normalizer, once more *)

Lemma clear_range (fl mask : Z) : 0 <= clear fl mask < 256.
Proof. unfold clear, u8. apply Z.mod_pos_bound. reflexivity. Qed.

Lemma fixFlags_range (fmt : FormatterItem) :
  0 <= flags (fixFlags fmt) < 256.
Proof.
  unfold fixFlags. cbn [flags].
  set (fl1 := if negb (formatChar fmt == "d") && negb (formatChar fmt == "b")
                 && negb (formatChar fmt == "s")
              then clear (flags fmt) (Z.lor FLAG_SHOW_SIGN FLAG_ADD_SPACE)
              else clear (flags fmt) FLAG_EXPLICIT_BASE).
  assert (H1 : 0 <= fl1 < 256)
    by (subst fl1; destruct (_ && _); apply clear_range).
  set (fl2 := if has fl1 FLAG_SHOW_SIGN then clear fl1 FLAG_ADD_SPACE else fl1).
  assert (H2 : 0 <= fl2 < 256)
    by (subst fl2; destruct (has fl1 _); [apply clear_range | exact H1]).
  destruct (has fl2 FLAG_LEFT_JUSTIFY); [apply clear_range | exact H2].
Qed.

Lemma clear_noop (fl mask : Z) :
  0 <= fl < 256 -> Z.land fl mask = 0 -> clear fl mask = fl.
Proof.
  intros Hfl Hland. apply Z.bits_inj'. intros k Hk.
  destruct (Z.lt_ge_cases k 8) as [Hlt | Hge].
  - rewrite testbit_clear by lia.
    assert (Hb : Z.testbit (Z.land fl mask) k = false)
      by (rewrite Hland; apply Z.bits_0).
    rewrite Z.land_spec in Hb.
    destruct (Z.testbit fl k), (Z.testbit mask k); try reflexivity;
      discriminate Hb.
  - unfold clear, u8. rewrite Z.mod_pow2_bits_high by lia.
    rewrite <- (Z.mod_small fl (2 ^ 8)) by (change (2 ^ 8) with 256; lia).
    now rewrite Z.mod_pow2_bits_high by lia.
Qed.

Lemma has_false_land (fl mask : Z) : has fl mask = false -> Z.land fl mask = 0.
Proof.
  unfold has. intros H. apply negb_false_iff in H. now apply Z.eqb_eq.
Qed.

(** [fixFlags] is a normal form: applied to its own result it changes
    nothing.  Its flags byte is below 256, and it sets no flag that was
    not set. *)
Theorem fixFlags_idempotent (fmt : FormatterItem) :
  fixFlags (fixFlags fmt) = fixFlags fmt /\
  0 <= flags (fixFlags fmt) < 256 /\
  forall c, is_flag c = true ->
    has (flags (fixFlags fmt)) (flag_of c) = true ->
    has (flags fmt) (flag_of c) = true.
Proof.
  pose proof (fixFlags_range fmt) as Hrange.
  destruct (fixFlags_flags fmt) as (HL & HS & HB & HZ & HA).
  cbv zeta in HL, HS, HB, HZ, HA.
  split; [|split; [exact Hrange|]].
  - assert (Hrec : fixFlags fmt
                   = mkItem (position fmt) (flags (fixFlags fmt)) (width fmt)
                       (precision fmt) (formatChar fmt)) by reflexivity.
    set (fl := flags (fixFlags fmt)) in *.
    rewrite Hrec at 1. unfold fixFlags at 1. cbn [flags formatChar position
      width precision].
    rewrite Hrec. f_equal.
    assert (H1 : (if negb (formatChar fmt == "d")
                     && negb (formatChar fmt == "b")
                     && negb (formatChar fmt == "s")
                  then clear fl (Z.lor FLAG_SHOW_SIGN FLAG_ADD_SPACE)
                  else clear fl FLAG_EXPLICIT_BASE) = fl).
    { destruct (formatChar fmt == "d") eqn:Ed,
        (formatChar fmt == "b") eqn:Eb, (formatChar fmt == "s") eqn:Es;
        cbn [negb andb orb] in *;
        try (apply clear_noop; [exact Hrange|]; apply has_false_land;
             rewrite HB; apply andb_false_r).
      apply clear_noop; [exact Hrange|].
      rewrite Z.land_lor_distr_r.
      rewrite (has_false_land fl FLAG_SHOW_SIGN)
        by (rewrite HS; apply andb_false_r).
      rewrite (has_false_land fl FLAG_ADD_SPACE)
        by (rewrite HA, andb_false_r; reflexivity).
      reflexivity. }
    rewrite H1.
    assert (H2 : (if has fl FLAG_SHOW_SIGN then clear fl FLAG_ADD_SPACE
                  else fl) = fl).
    { destruct (has fl FLAG_SHOW_SIGN) eqn:E; [|reflexivity].
      apply clear_noop; [exact Hrange|]. apply has_false_land.
      symmetry in HS. apply andb_prop in HS as [HS _].
      rewrite HA, HS. apply andb_false_r. }
    rewrite H2.
    destruct (has fl FLAG_LEFT_JUSTIFY) eqn:E; [|reflexivity].
    apply clear_noop; [exact Hrange|]. apply has_false_land.
    rewrite HZ, <- HL. apply andb_false_r.
  - intros c Hc. apply is_flag_cases in Hc.
    destruct Hc as [-> | [-> | [-> | [-> | ->]]]];
      change (flag_of "-") with FLAG_LEFT_JUSTIFY;
      change (flag_of "+") with FLAG_SHOW_SIGN;
      change (flag_of "#") with FLAG_EXPLICIT_BASE;
      change (flag_of "0") with FLAG_FILL_ZERO;
      change (flag_of " ") with FLAG_ADD_SPACE;
      rewrite ?HL, ?HS, ?HB, ?HZ, ?HA; intros H;
      repeat (apply andb_prop in H as [H _]); exact H.
Qed.

(* ===================================================================== *)
(** ** The field of a numeric render *)






(* ===================================================================== *)
(** ** The directive grammar, written out and parsed *)

Lemma is_digit_decimal (c : ascii) (letter : Z) :
  digits_of_base 10 letter (String c "") = true -> is_digit c = true.
Proof.
  cbn [digits_of_base]. rewrite andb_true_r. intros Hc.
  unfold is_digit. change (code "0") with 48 in *.
  change (code "9") with 57. change (Z.min 10 10) with 10 in Hc.
  apply orb_prop in Hc as [Hc | Hc];
    apply andb_prop in Hc as [H1 H2];
    apply Z.leb_le in H1; apply Z.ltb_lt in H2;
    apply andb_true_iff; rewrite !Z.leb_le; lia.
Qed.

Lemma digits_of_base_head (base letter : Z) (c : ascii) (r : string) :
  digits_of_base base letter (String c r) = true ->
  digits_of_base base letter (String c "") = true
  /\ digits_of_base base letter r = true.
Proof.
  cbn [digits_of_base]. intros H. apply andb_prop in H as [H1 H2].
  now rewrite H1, H2.
Qed.

Lemma findIntegerEnd_app (ds rest : string) (letter : Z) :
  digits_of_base 10 letter ds = true -> is_digit (deref rest) = false ->
  findIntegerEnd (ds ++ rest) = rest.
Proof.
  intros Hds Hrest. induction ds as [|c r IH]; cbn [append].
  - now apply findIntegerEnd_nondigit.
  - apply digits_of_base_head in Hds as [Hc Hr].
    cbn [findIntegerEnd]. rewrite (is_digit_decimal c letter Hc). now apply IH.
Qed.

Lemma parseInt_app (ds rest : string) (letter : Z) :
  digits_of_base 10 letter ds = true -> is_digit (deref rest) = false ->
  parseInt (ds ++ rest) = u32 (digits_value 10 ds).
Proof.
  intros Hds Hrest. unfold parseInt, digits_value.
  rewrite parseInt_from_spec by lia.
  now rewrite (digit_run_app ds rest letter Hds Hrest).
Qed.

Lemma iter_eq_app_false (ds rest : string) :
  ds <> "" -> iter_eq (ds ++ rest) rest = false /\ iter_eq rest (ds ++ rest) = false.
Proof.
  intros H. unfold iter_eq. rewrite length_append.
  destruct ds as [|c r]; [congruence|]. cbn [String.length].
  split; apply Nat.eqb_neq; lia.
Qed.

(** The digits of a number, as the rest of the parser sees them. *)
Lemma decimal_spec (n : Z) :
  1 <= n < 2 ^ 32 ->
  digits_of_base 10 (code "a") (decimal n) = true /\ decimal n <> "" /\
  digits_value 10 (decimal n) = n /\ digit_val (deref (decimal n)) <> 0.
Proof.
  intros Hn.
  assert (Hty : int_type_ok uint32_t) by (unfold int_type_ok; cbn; lia).
  assert (Hr : in_range uint32_t n) by (unfold in_range; cbn; lia).
  destruct (printIntegral_buf_spec 10 (mkItem 0 0 WIDTH_EMPTY WIDTH_EMPTY "d")
              uint32_t n ltac:(lia) Hty Hr)
    as (ds & Hbuf & Hval & Hnil & Hdig & Hlead & _).
  unfold decimal. rewrite Hbuf. split; [exact Hdig|]. split.
  - intros E. apply Hnil in E. lia.
  - split; [rewrite Hval; lia | apply Hlead; lia].
Qed.

Lemma show_number_spec (n : Z) :
  0 <= n < 2 ^ 32 ->
  digits_of_base 10 (code "a") (show_number n) = true /\ show_number n <> ""
  /\ digits_value 10 (show_number n) = n.
Proof.
  intros Hn. unfold show_number. destruct (Z.eqb_spec n 0) as [-> | Hne].
  - repeat split. discriminate.
  - destruct (decimal_spec n ltac:(lia)) as (H1 & H2 & H3 & _). auto.
Qed.

Lemma digits_head (ds : string) (letter : Z) :
  digits_of_base 10 letter ds = true -> ds <> "" ->
  is_digit (deref ds) = true.
Proof.
  destruct ds as [|c r]; [congruence|]. intros H _.
  apply digits_of_base_head in H as [H _]. now apply (is_digit_decimal c letter).
Qed.

Lemma is_digit_not_mark (c : ascii) :
  is_digit c = true ->
  (c == "*") = false /\ (c == ".") = false /\ (c == "$") = false
  /\ (c == "-") = false /\ (c == "+") = false /\ (c == "#") = false
  /\ (c == " ") = false.
Proof.
  intros H. repeat split;
    match goal with
    | |- (c == ?k) = false =>
        destruct (Ascii.eqb_spec c k) as [-> | _];
        [discriminate H | reflexivity]
    end.
Qed.

Lemma nonzero_digit_not_flag (c : ascii) :
  is_digit c = true -> digit_val c <> 0 -> is_flag c = false.
Proof.
  intros Hd Hv. destruct (is_digit_not_mark c Hd) as (_ & _ & _ & E1 & E2 & E3 & E4).
  unfold is_flag. rewrite E1, E2, E3, E4. cbn [orb].
  destruct (Ascii.eqb_spec c "0") as [-> | _]; [|reflexivity].
  exfalso. apply Hv. reflexivity.
Qed.

Lemma formatChar_not_item (c : ascii) :
  is_formatChar c = true ->
  is_digit c = false /\ is_flag c = false /\ (c == "*") = false
  /\ (c == ".") = false /\ (c == "$") = false.
Proof.
  unfold is_formatChar. rewrite !orb_true_iff, !Ascii.eqb_eq.
  intros H. repeat destruct H as [H | H]; subst c; repeat split.
Qed.

Lemma handleFlags_app (fs tail : string) :
  all_flags fs = true -> is_flag (deref tail) = false ->
  forall fl, 0 <= fl < 32 ->
    handleFlags_from fl (fs ++ tail) = (Z.lor fl (flags_of fs), tail)
    /\ 0 <= Z.lor fl (flags_of fs) < 32.
Proof.
  intros Hfs Htail. induction fs as [|c r IH]; intros fl Hfl.
  - cbn [append flags_of]. rewrite Z.lor_0_r. split; [|exact Hfl].
    destruct tail as [|x t]; [reflexivity|].
    cbn [deref] in Htail. now rewrite handleFlags_from_step, Htail.
  - cbn [all_flags] in Hfs. apply andb_prop in Hfs as [Hc Hr].
    cbn [append flags_of]. rewrite handleFlags_from_step, Hc.
    destruct (flag_of_pow2 c Hc) as (k & Hk & Ek).
    pose proof (lor_flag_range fl (flag_of c) k Hfl Hk Ek) as Hrange.
    assert (Hu8 : u8 (Z.lor fl (flag_of c)) = Z.lor fl (flag_of c))
      by (unfold u8; apply Z.mod_small; change (2 ^ 8) with 256; lia).
    rewrite Hu8. destruct (IH Hr _ Hrange) as [IH1 IH2].
    rewrite <- Z.lor_assoc in IH1, IH2. now split.
Qed.

Lemma occurs_app (c : ascii) (a b : string) :
  occurs c (a ++ b) = occurs c a || occurs c b.
Proof.
  induction a as [|x a IH]; cbn [append occurs]; [reflexivity|].
  now rewrite IH, orb_assoc.
Qed.

Lemma occurs_dollar_flags (fs : string) :
  all_flags fs = true -> occurs "$" fs = false.
Proof.
  induction fs as [|c r IH]; [reflexivity|]. cbn [all_flags occurs].
  intros H. apply andb_prop in H as [Hc Hr]. rewrite (IH Hr), orb_false_r.
  apply is_flag_cases in Hc.
  destruct Hc as [-> | [-> | [-> | [-> | ->]]]]; reflexivity.
Qed.

Lemma occurs_dollar_digits (ds : string) (letter : Z) :
  digits_of_base 10 letter ds = true -> occurs "$" ds = false.
Proof.
  induction ds as [|c r IH]; [reflexivity|]. intros H.
  apply digits_of_base_head in H as [Hc Hr]. cbn [occurs].
  rewrite (IH Hr), orb_false_r.
  now destruct (is_digit_not_mark c (is_digit_decimal c letter Hc))
    as (_ & _ & E & _).
Qed.

Lemma handlePosition_none (prefix : string) (fc : ascii) (rest : string) :
  occurs "$" prefix = false -> is_digit fc = false -> (fc == "$") = false ->
  handlePosition (prefix ++ String fc rest)
  = (POSITION_NONE, prefix ++ String fc rest).
Proof.
  intros Hocc Hd Hfc. unfold handlePosition.
  assert (H : (deref (findIntegerEnd (prefix ++ String fc rest)) == "$")
              = false).
  { induction prefix as [|c r IH]; cbn [append findIntegerEnd].
    - now rewrite Hd.
    - cbn [occurs] in Hocc. apply orb_false_elim in Hocc as [Hc Hr].
      destruct (is_digit c); [now apply IH | exact Hc]. }
  rewrite H. cbn [negb]. now rewrite orb_true_r.
Qed.

Lemma handlePosition_some (n : Z) (tail : string) :
  0 <= n < 2 ^ 32 ->
  handlePosition (show_number n ++ String "$" tail) = (n, tail).
Proof.
  intros Hn. destruct (show_number_spec n Hn) as (Hdig & Hne & Hval).
  unfold handlePosition.
  rewrite (findIntegerEnd_app _ (String "$" tail) _ Hdig eq_refl).
  destruct (iter_eq_app_false (show_number n) (String "$" tail) Hne)
    as [E _].
  rewrite E. cbn [deref orb negb next]. change ("$" == "$")%char with true.
  cbn [negb]. rewrite (parseInt_app _ (String "$" tail) _ Hdig eq_refl), Hval.
  now rewrite u32_small.
Qed.

Lemma handleWidth_some (n : Z) (tail : string) :
  1 <= n < 2 ^ 32 -> is_digit (deref tail) = false ->
  handleWidth (decimal n ++ tail) = (n, tail).
Proof.
  intros Hn Htail. destruct (decimal_spec n Hn) as (Hdig & Hne & Hval & _).
  unfold handleWidth. rewrite (deref_app _ tail Hne).
  destruct (is_digit_not_mark _ (digits_head _ _ Hdig Hne)) as (E & _).
  rewrite E, (findIntegerEnd_app _ tail _ Hdig Htail).
  destruct (iter_eq_app_false (decimal n) tail Hne) as [E' _]. rewrite E'.
  rewrite (parseInt_app _ tail _ Hdig Htail), Hval. now rewrite u32_small by lia.
Qed.

Lemma handleWidth_none (tail : string) :
  (deref tail == "*") = false -> is_digit (deref tail) = false ->
  handleWidth tail = (WIDTH_EMPTY, tail).
Proof.
  intros Hs Hd. unfold handleWidth.
  now rewrite Hs, (findIntegerEnd_nondigit tail Hd), iter_eq_refl.
Qed.

Lemma handlePrecision_some (n : Z) (tail : string) :
  0 <= n < 2 ^ 32 -> is_digit (deref tail) = false ->
  handlePrecision ("." ++ show_number n ++ tail) = (n, tail).
Proof.
  intros Hn Htail. destruct (show_number_spec n Hn) as (Hdig & Hne & Hval).
  unfold handlePrecision. cbn [append deref next].
  change ("." == ".")%char with true. cbn [negb].
  rewrite (deref_app _ tail Hne).
  destruct (is_digit_not_mark _ (digits_head _ _ Hdig Hne)) as (E & _).
  rewrite E, (findIntegerEnd_app _ tail _ Hdig Htail).
  destruct (iter_eq_app_false (show_number n) tail Hne) as [_ E']. rewrite E'.
  rewrite (parseInt_app _ tail _ Hdig Htail), Hval. now rewrite u32_small.
Qed.

Lemma handlePrecision_none (tail : string) :
  (deref tail == ".") = false -> handlePrecision tail = (WIDTH_EMPTY, tail).
Proof. intros H. unfold handlePrecision. now rewrite H. Qed.

Lemma handleFormatter_written (pos : option Z) (fs : string)
    (w p : option Z) (fc : ascii) (rest : string) :
  opt_u32 0 pos -> all_flags fs = true -> opt_u32 1 w -> opt_u32 0 p ->
  is_formatChar fc = true ->
  handleFormatter (show_item pos fs w p fc ++ rest)
  = Ok (fixFlags (item_of pos fs w p fc), rest).
Proof.
  intros Hpos Hfs Hw Hp Hfc.
  destruct (formatChar_not_item fc Hfc) as (Fd & Ff & Fs & Fp & Fdol).
  set (P := match p with Some n => "." ++ show_number n | None => "" end).
  set (W := match w with Some n => decimal n | None => "" end).
  set (A := match pos with Some n => show_number n ++ "$" | None => "" end).
  set (T3 := String fc rest).
  assert (Hiter : show_item pos fs w p fc ++ rest
                  = A ++ fs ++ W ++ P ++ T3).
  { unfold show_item. fold A W P. now rewrite !append_assoc. }
  rewrite Hiter.
  (* the first character of each tail *)
  assert (H3 : is_digit (deref T3) = false /\ (deref T3 == ".") = false)
    by (now split).
  assert (H2 : is_digit (deref (P ++ T3)) = false
               /\ (deref (P ++ T3) == "*") = false
               /\ is_flag (deref (P ++ T3)) = false).
  { subst P. destruct p as [n|]; cbn [append deref]; repeat split; assumption. }
  assert (H1 : is_flag (deref (W ++ P ++ T3)) = false).
  { subst W. destruct w as [n|]; [|exact (proj2 (proj2 H2))].
    destruct (decimal_spec n Hw) as (Hdig & Hne & _ & Hlead).
    rewrite (deref_app _ _ Hne).
    apply nonzero_digit_not_flag; [now apply (digits_head _ _ Hdig) | exact Hlead]. }
  (* the handlers, one after the other *)
  assert (E1 : handlePosition (A ++ fs ++ W ++ P ++ T3)
               = (match pos with Some n => n | None => POSITION_NONE end,
                  fs ++ W ++ P ++ T3)).
  { subst A. destruct pos as [n|].
    - rewrite append_assoc. cbn [append]. now apply handlePosition_some.
    - cbn [append]. subst T3.
      replace (fs ++ W ++ P ++ String fc rest)
        with ((fs ++ W ++ P) ++ String fc rest) by now rewrite !append_assoc.
      rewrite handlePosition_none; try assumption; [reflexivity|].
      rewrite !occurs_app, (occurs_dollar_flags fs Hfs). cbn [orb].
      assert (HW : occurs "$" W = false).
      { subst W. destruct w as [n|]; [|reflexivity].
        destruct (decimal_spec n Hw) as (Hdig & _).
        now apply (occurs_dollar_digits _ _ Hdig). }
      assert (HP : occurs "$" P = false).
      { subst P. destruct p as [n|]; [|reflexivity].
        destruct (show_number_spec n Hp) as (Hdig & _).
        cbn [append occurs]. change ("." == "$")%char with false. cbn [orb].
        now apply (occurs_dollar_digits _ _ Hdig). }
      now rewrite HW, HP. }
  assert (E2 : handleFlags (fs ++ W ++ P ++ T3) = (flags_of fs, W ++ P ++ T3)).
  { unfold handleFlags.
    destruct (handleFlags_app fs (W ++ P ++ T3) Hfs H1 0 ltac:(lia)) as [E _].
    now rewrite E, Z.lor_0_l. }
  assert (E3 : handleWidth (W ++ P ++ T3)
               = (match w with Some n => n | None => WIDTH_EMPTY end, P ++ T3)).
  { subst W. destruct w as [n|].
    - apply handleWidth_some; [exact Hw | exact (proj1 H2)].
    - cbn [append]. apply handleWidth_none;
        [exact (proj1 (proj2 H2)) | exact (proj1 H2)]. }
  assert (E4 : handlePrecision (P ++ T3)
               = (match p with Some n => n | None => WIDTH_EMPTY end, T3)).
  { subst P. destruct p as [n|].
    - rewrite append_assoc. apply handlePrecision_some;
        [exact Hp | exact (proj1 H3)].
    - cbn [append]. apply handlePrecision_none. exact (proj2 H3). }
  unfold handleFormatter. rewrite E1, E2, E3, E4.
  unfold handleFormatChar, T3. cbn [deref next]. now rewrite Hfc.
Qed.

(** The parser accepts the grammar [Position Flags Width Precision
    FormatChar]: a directive written out from a position (or none), any
    string of flag characters, a width of at least 1 (or none), a
    precision (or none) and a conversion character is parsed back into
    exactly these parts, normalized by [fixFlags], and the iterator is
    left right behind the conversion character, whatever text follows. *)
Theorem handleFormatter_show_item (pos : option Z) (fs : string)
    (w p : option Z) (fc : ascii) (rest : string) :
  opt_u32 0 pos -> all_flags fs = true -> opt_u32 1 w -> opt_u32 0 p ->
  is_formatChar fc = true ->
  handleFormatter (show_item pos fs w p fc ++ rest)
  = Ok (fixFlags (item_of pos fs w p fc), rest).
Proof. apply handleFormatter_written. Qed.

Lemma handleFormatter_show_item_witness :
  opt_u32 0 (Some 2) /\ all_flags "-0+" = true /\ opt_u32 1 (Some 12) /\
  show_item (Some 2) "-0+" (Some 12) (Some 0) "x" = "2$-0+12.0x" /\
  handleFormatter (show_item (Some 2) "-0+" (Some 12) (Some 0) "x" ++ " end")
  = Ok (fixFlags (item_of (Some 2) "-0+" (Some 12) (Some 0) "x"), " end").
Proof.
  assert (H0 : opt_u32 0 (Some 2)) by (cbn; lia).
  assert (H1 : opt_u32 1 (Some 12)) by (cbn; lia).
  assert (H2 : opt_u32 0 (Some 0)) by (cbn; lia).
  split; [exact H0|]. split; [reflexivity|]. split; [exact H1|].
  split; [reflexivity|].
  exact (handleFormatter_show_item (Some 2) "-0+" (Some 12) (Some 0) "x" " end"
           H0 eq_refl H1 H2 eq_refl).
Defined.

(* ===================================================================== *)
(** ** The scanner on a whole template *)

Lemma parseInt_from_range (iter : string) :
  forall out, 0 <= out < 2 ^ 32 -> 0 <= parseInt_from out iter < 2 ^ 32.
Proof.
  induction iter as [|c r IH]; intros out H; cbn [parseInt_from]; [exact H|].
  destruct (is_digit c); [apply IH, u32_range | exact H].
Qed.

Lemma handleFormatter_position (iter : string) (fmt : FormatterItem)
    (rest : string) :
  handleFormatter iter = Ok (fmt, rest) -> 0 <= position fmt < 2 ^ 32.
Proof.
  unfold handleFormatter, handleFormatChar.
  destruct (handlePosition iter) as [pos i1] eqn:E.
  destruct (handleFlags i1) as [fl i2].
  destruct (handleWidth i2) as [w i3].
  destruct (handlePrecision i3) as [p i4].
  destruct (is_formatChar (deref i4)); [|discriminate].
  intros H. injection H as <- _. cbn [fixFlags position].
  unfold handlePosition in E.
  destruct (iter_eq iter (findIntegerEnd iter)
            || negb (deref (findIntegerEnd iter) == "$"));
    injection E as <- _.
  - apply u32_range.
  - apply parseInt_from_range. lia.
Qed.

Lemma next_position_range (positional : bool) (counter d : Z) :
  0 <= counter < 2 ^ 32 -> 0 <= d < 2 ^ 32 ->
  0 <= fst (next_position positional counter d) < 2 ^ 32 /\
  0 <= snd (snd (next_position positional counter d)) < 2 ^ 32.
Proof.
  intros Hc Hd. unfold next_position.
  destruct (d =? POSITION_NONE); cbn [fst snd].
  - split; [exact Hc|]. destruct positional; cbn [negb];
      [exact Hc | apply u32_range].
  - now split.
Qed.

Lemma positions_after_range (ds : list Z) :
  Forall (fun d => 0 <= d < 2 ^ 32) ds ->
  0 <= snd (positions_after ds) < 2 ^ 32.
Proof.
  induction ds as [|d ds IH] using rev_ind; intros H.
  - cbn. lia.
  - apply Forall_app in H as [Hds Hd]. inversion Hd as [|? ? Hd' _]; subst.
    rewrite positions_after_snoc.
    now apply next_position_range; [apply IH|].
Qed.

(** No routine of the dispatcher reads the position of the descriptor. *)
Lemma printArg_switch_position (sizeof_ptr : Z) (fmt : FormatterItem)
    (p : Z) (arg : Arg) :
  printArg_switch sizeof_ptr (set_position fmt p) arg
  = printArg_switch sizeof_ptr fmt arg.
Proof. destruct fmt. reflexivity. Qed.

Lemma printArg_dispatch (sizeof_ptr : Z) (fmt : FormatterItem) (index : Z)
    (args : list Arg) (sink : streambuf) :
  0 <= index < 2 ^ 32 ->
  printArg sizeof_ptr (set_position fmt index) args sink
  = dispatch sizeof_ptr fmt index args sink.
Proof.
  intros H. unfold printArg, dispatch. cbn [set_position position].
  destruct (nth_error args (Z.to_nat index)) as [arg|] eqn:E.
  - rewrite <- (Z2Nat.id index) at 1 by lia.
    rewrite (printArg_item_nth sizeof_ptr _ args _ arg E) by (rewrite Z2Nat.id; lia).
    now rewrite printArg_switch_position.
  - apply nth_error_None in E. apply printArg_item_exhausted. lia.
Qed.

Lemma parses_head (d : string) (fmt : FormatterItem) :
  (forall rest, handleFormatter (d ++ rest) = Ok (fmt, rest)) ->
  d <> "" /\ (deref d == "%") = false /\ (deref d == "(") = false.
Proof.
  intros H. destruct d as [|c r].
  - specialize (H ""). discriminate H.
  - split; [discriminate|]. specialize (H ""). cbn [deref].
    split.
    + destruct (c == "%") eqn:E; [|reflexivity].
      apply Ascii.eqb_eq in E. subst c.
      rewrite (handleFormatter_bare (String "%" r ++ "") eq_refl) in H.
      discriminate H.
    + destruct (c == "(") eqn:E; [|reflexivity].
      apply Ascii.eqb_eq in E. subst c.
      rewrite (handleFormatter_bare (String "(" r ++ "") eq_refl) in H.
      discriminate H.
Qed.

Lemma effective_index_middle (done : list Z) (d : Z) (l : list Z) :
  effective_index (done ++ d :: l)%list (List.length done)
  = fst (next_position (fst (positions_after done))
           (snd (positions_after done)) d).
Proof.
  unfold effective_index.
  rewrite firstn_app, Nat.sub_diag, firstn_all. cbn [firstn].
  now rewrite app_nil_r, nth_middle.
Qed.

Lemma print_loop_template (sizeof_ptr : Z) (args : list Arg) (tail : string) :
  plain tail = true ->
  forall (ps : list piece) (done : list Z) (fuel : nat) (sink : streambuf),
    Forall parses_as ps ->
    Forall (fun d => 0 <= d < 2 ^ 32) done ->
    (String.length (template ps tail) < fuel)%nat ->
    print_loop sizeof_ptr fuel (fst (positions_after done))
      (snd (positions_after done)) "" (template ps tail) args sink
    = (format_pieces sizeof_ptr
         (done ++ map (fun p => position (piece_item p)) ps)%list
         (List.length done) ps args ;;
       sputn tail) sink.
Proof.
  intros Htail.
  induction ps as [|p ps IH]; intros done fuel sink Hps Hdone Hfuel.
  - cbn [template format_pieces] in *.
    rewrite (print_loop_fuel_irrelevant sizeof_ptr args fuel
               (S (String.length (tail ++ ""))))
      by (rewrite ?append_nil_r; lia).
    rewrite <- (append_nil_r tail) at 2.
    rewrite (print_loop_plain sizeof_ptr args tail Htail).
    reflexivity.
  - inversion Hps as [|? ? [Hlit Hparse] Hps']; subst.
    destruct (parses_head _ _ Hparse) as (Hne & Hp & Hg).
    set (T := template ps tail) in *.
    assert (Hd : 0 <= position (piece_item p) < 2 ^ 32)
      by exact (handleFormatter_position _ _ _ (Hparse "")).
    pose proof (positions_after_range done Hdone) as Hc.
    cbn [template format_pieces map] in *. fold T in Hfuel |- *.
    rewrite (print_loop_fuel_irrelevant sizeof_ptr args fuel
               (S (String.length
                     (piece_text p ++ String "%" (piece_directive p ++ T)))))
      by lia.
    rewrite (print_loop_plain sizeof_ptr args _ Hlit).
    cbn [String.length append].
    rewrite print_loop_directive by (rewrite (deref_app _ _ Hne); assumption).
    rewrite (Hparse T).
    rewrite effective_index_middle.
    pose proof (next_position_range (fst (positions_after done))
                  (snd (positions_after done)) _ Hc Hd) as [Hidx _].
    pose proof (positions_after_snoc done (position (piece_item p))) as Hsnoc.
    destruct (next_position (fst (positions_after done))
                (snd (positions_after done)) (position (piece_item p)))
      as [idx [positional' counter']].
    cbn [fst snd] in Hidx, Hsnoc |- *.
    unfold bind at 1. rewrite (printArg_dispatch _ _ _ _ _ Hidx).
    unfold bind at 1. rewrite bind_sputn.
    unfold bind at 1.
    destruct (dispatch sizeof_ptr (piece_item p) idx args
                (sink ++ piece_text p)) as [s' [[]|r]]; [|reflexivity].
    specialize (IH (done ++ [position (piece_item p)])%list
                  (S (String.length (piece_directive p ++ T))) s' Hps').
    rewrite Hsnoc in IH. cbn [fst snd] in IH.
    rewrite IH.
    + rewrite <- app_assoc, length_app. cbn [List.length app].
      now rewrite Nat.add_1_r.
    + apply Forall_app. split; [exact Hdone | now constructor].
    + fold T. rewrite length_append. lia.
Qed.

Lemma last_explicit_firstn_none (ds : list Z) :
  Forall (fun d => d = POSITION_NONE) ds ->
  forall (j : nat) (acc : option Z),
    fold_left (fun acc d => if d =? POSITION_NONE then acc else Some d)
      (firstn j ds) acc = acc.
Proof.
  induction 1 as [|d ds Hd _ IH]; intros j acc; destruct j; cbn; trivial.
  subst d. rewrite Z.eqb_refl. apply IH.
Qed.

Lemma nth_none (ds : list Z) :
  Forall (fun d => d = POSITION_NONE) ds ->
  forall j : nat, nth j ds POSITION_NONE = POSITION_NONE.
Proof. induction 1 as [|d ds Hd _ IH]; intros [|j]; cbn; auto. Qed.

(** Without explicit positions the directives take the arguments in
    order. *)
Lemma effective_index_sequential (ds : list Z) (j : nat) :
  Forall (fun d => d = POSITION_NONE) ds ->
  (j < List.length ds)%nat -> Z.of_nat j < 2 ^ 32 ->
  effective_index ds j = Z.of_nat j.
Proof.
  intros Hds Hj Hlt. unfold effective_index.
  rewrite positions_after_spec. unfold last_explicit.
  rewrite (last_explicit_firstn_none ds Hds), (nth_none ds Hds).
  rewrite length_firstn, Nat.min_l by lia. cbn [fst snd].
  unfold next_position. rewrite Z.eqb_refl. cbn [fst].
  apply u32_small. lia.
Qed.

(** The scanner on a whole template.  A template made of literal text and
    directives, closed by literal text, is formatted piece by piece: each
    literal text is copied, each directive converts the argument whose
    zero-based index the position bookkeeping gives, and a directive whose
    argument is missing stops the formatting with TooFewArguments, what
    was written so far being kept.  When no directive has an explicit
    position, the [j]-th directive (from 0) converts the [j]-th argument. *)
Theorem print_template (sizeof_ptr : Z) (ps : list piece) (tail : string)
    (args : list Arg) (sink : streambuf) :
  Forall parses_as ps -> plain tail = true ->
  print sizeof_ptr (template ps tail) args sink
  = (format_pieces sizeof_ptr (map (fun p => position (piece_item p)) ps) 0
       ps args ;;
     sputn tail) sink
  /\ (Forall (fun p => position (piece_item p) = POSITION_NONE) ps ->
      forall j : nat, (j < List.length ps)%nat -> Z.of_nat j < 2 ^ 32 ->
      effective_index (map (fun p => position (piece_item p)) ps) j
      = Z.of_nat j).
Proof.
  intros Hps Htail. split.
  - unfold print.
    exact (print_loop_template sizeof_ptr args tail Htail ps [] _ sink Hps
             (Forall_nil _) (Nat.lt_succ_diag_r _)).
  - intros Hnone j Hj Hlt. apply effective_index_sequential; [| |exact Hlt].
    + apply Forall_map. exact Hnone.
    + now rewrite length_map.
Qed.

Lemma print_template_witness :
  Forall parses_as
    [mkPiece "x=" "d" (mkItem POSITION_NONE 0 WIDTH_EMPTY WIDTH_EMPTY "d");
     mkPiece ", y=" "-5s"
       (mkItem POSITION_NONE FLAG_LEFT_JUSTIFY 5 WIDTH_EMPTY "s");
     mkPiece " z=" "#x"
       (mkItem POSITION_NONE FLAG_EXPLICIT_BASE WIDTH_EMPTY WIDTH_EMPTY "x")]
  /\ plain "!" = true /\
  template
    [mkPiece "x=" "d" (mkItem POSITION_NONE 0 WIDTH_EMPTY WIDTH_EMPTY "d");
     mkPiece ", y=" "-5s"
       (mkItem POSITION_NONE FLAG_LEFT_JUSTIFY 5 WIDTH_EMPTY "s");
     mkPiece " z=" "#x"
       (mkItem POSITION_NONE FLAG_EXPLICIT_BASE WIDTH_EMPTY WIDTH_EMPTY "x")]
    "!" = "x=%d, y=%-5s z=%#x!" /\
  print 8 "x=%d, y=%-5s z=%#x!"
    [AInt int32_t (-7); AStr "ab"; AInt uint32_t 255] ""
  = ("x=-7, y=ab    z=0xff!", Ok tt) /\
  print 8 "x=%d, y=%-5s z=%#x!" [AInt int32_t (-7)] ""
  = ("x=-7, y=", Stop (Throw TooFewArguments)).
Proof.
  assert (H : Forall parses_as
    [mkPiece "x=" "d" (mkItem POSITION_NONE 0 WIDTH_EMPTY WIDTH_EMPTY "d");
     mkPiece ", y=" "-5s"
       (mkItem POSITION_NONE FLAG_LEFT_JUSTIFY 5 WIDTH_EMPTY "s");
     mkPiece " z=" "#x"
       (mkItem POSITION_NONE FLAG_EXPLICIT_BASE WIDTH_EMPTY WIDTH_EMPTY "x")]).
  { constructor; [|constructor; [|constructor; [|constructor]]];
      (split; [reflexivity|]); intros rest.
    - exact (handleFormatter_written None "" None None "d" rest
               I eq_refl I I eq_refl).
    - exact (handleFormatter_written None "-" (Some 5) None "s" rest
               I eq_refl ltac:(unfold opt_u32; lia) I eq_refl).
    - exact (handleFormatter_written None "#" None None "x" rest
               I eq_refl I I eq_refl). }
  split; [exact H|]. split; [reflexivity|]. split; [reflexivity|]. split.
  - exact (proj1 (print_template 8 _ "!"
                    [AInt int32_t (-7); AStr "ab"; AInt uint32_t 255] "" H
                    eq_refl)).
  - exact (proj1 (print_template 8 _ "!" [AInt int32_t (-7)] "" H eq_refl)).
Defined.
